(** * A shallow embedding of the research-assistant pipeline

    The development follows the Python sources module by module:

    - [Py]            the fragments of Python's [str], [list] and [dict]
                      that the program uses;
    - [DemoData]      [tools/demo_data.py];
    - [WebSearchTool] [tools/web_search.py];
    - [TextProcessor] [tools/text_processor.py];
    - [SearchAgent]   [agents/search_agent.py];
    - [AnalyzerAgent] [agents/analyzer_agent.py].

    Conventions.  A Python [str] is a [string]; the model covers ASCII text
    (every literal of the program that takes part in a comparison is ASCII),
    so [len] is the number of characters, [lower] maps [A-Z] to [a-z] and the
    white space of [strip] and [split] is the ASCII white space.  A Python
    [int] is a [Z].  A Python [float] is a binary64 [float].  A [dict] whose
    iteration order matters is an association list in insertion order.  Code
    that can raise returns an [outcome].  Calls to [print], [time.sleep] and
    the logging helper have no effect on any returned value and are left
    out. *)

From Stdlib Require Import Bool Arith ZArith Lia List Ascii String.
From Stdlib Require Import Permutation Sorted.
From Stdlib Require Import Floats Uint63.
Import ListNotations.

Open Scope string_scope.
Open Scope list_scope.
Open Scope nat_scope.

(** Concatenation of strings, Python's [+] on [str]. *)
Infix "+++" := String.append (right associativity, at level 60).

(* ===================================================================== *)
(** * Python primitives *)
(* ===================================================================== *)

Module Py.

(** ** Exceptions *)

Inductive outcome (A : Type) : Type :=
| Return (a : A)
| Raise (error_msg : string).
Arguments Return {A} a.
Arguments Raise {A} error_msg.

Definition bind {A B} (m : outcome A) (k : A -> outcome B) : outcome B :=
  match m with
  | Return a => k a
  | Raise e => Raise e
  end.

(** [try: body  except Exception as e: handler(str(e))] *)
Definition try_except {A} (body : outcome A) (handler : string -> outcome A)
  : outcome A :=
  match body with
  | Return a => Return a
  | Raise e => handler e
  end.

(** ** Lists *)

(** [l[:n]]: a negative [n] counts from the end. *)
Definition slice_to {A} (n : Z) (l : list A) : list A :=
  if (0 <=? n)%Z then firstn (Z.to_nat n) l
  else firstn (Z.to_nat (Z.of_nat (List.length l) + n)) l.

(** [enumerate(l)] from index [i]. *)
Fixpoint enumerate_from {A} (i : nat) (l : list A) : list (nat * A) :=
  match l with
  | [] => []
  | x :: r => (i, x) :: enumerate_from (S i) r
  end.

Definition enumerate {A} (l : list A) : list (nat * A) := enumerate_from 0 l.

(** ** Characters *)

Definition is_upper (c : ascii) : bool :=
  let n := nat_of_ascii c in (65 <=? n) && (n <=? 90).

Definition is_lower (c : ascii) : bool :=
  let n := nat_of_ascii c in (97 <=? n) && (n <=? 122).

Definition is_digit (c : ascii) : bool :=
  let n := nat_of_ascii c in (48 <=? n) && (n <=? 57).

(** [str.isspace] on ASCII: TAB, LF, VT, FF, CR, FS, GS, RS, US, space. *)
Definition is_space (c : ascii) : bool :=
  let n := nat_of_ascii c in
  ((9 <=? n) && (n <=? 13)) || ((28 <=? n) && (n <=? 32)).

(** The class [\w] of [re] on ASCII: letters, digits and underscore. *)
Definition is_word_char (c : ascii) : bool :=
  is_upper c || is_lower c || is_digit c || (nat_of_ascii c =? 95).

Definition lower_char (c : ascii) : ascii :=
  if is_upper c then ascii_of_nat (nat_of_ascii c + 32) else c.

(** ** Strings *)

Fixpoint lower (s : string) : string :=
  match s with
  | EmptyString => EmptyString
  | String c r => String (lower_char c) (lower r)
  end.

Definition len (s : string) : nat := String.length s.

(** Truth value of a string: [bool(s)]. *)
Definition truthy (s : string) : bool :=
  match s with
  | EmptyString => false
  | String _ _ => true
  end.

Fixpoint lstrip (s : string) : string :=
  match s with
  | EmptyString => EmptyString
  | String c r => if is_space c then lstrip r else s
  end.

Fixpoint rstrip (s : string) : string :=
  match s with
  | EmptyString => EmptyString
  | String c r =>
      match rstrip r with
      | EmptyString => if is_space c then EmptyString else String c EmptyString
      | r' => String c r'
      end
  end.

(** [s.strip()] *)
Definition strip (s : string) : string := rstrip (lstrip s).

(** [needle in hay] *)
Fixpoint contains (needle hay : string) : bool :=
  String.prefix needle hay ||
  match hay with
  | EmptyString => false
  | String _ r => contains needle r
  end.

(** [s.split(sep)] for a one-character separator: the pieces between the
    separators, empty pieces included; never the empty list. *)
Fixpoint split_char (sep : ascii) (s : string) : list string :=
  match s with
  | EmptyString => [EmptyString]
  | String c r =>
      if Ascii.eqb c sep then EmptyString :: split_char sep r
      else match split_char sep r with
           | [] => [String c EmptyString]
           | p :: ps => String c p :: ps
           end
  end.

(** The maximal runs of characters of the class [p] in [s], in order; [cur]
    is the run being read. *)
Fixpoint runs (p : ascii -> bool) (s : string) (cur : string) : list string :=
  match s with
  | EmptyString => if truthy cur then [cur] else []
  | String c r =>
      if p c then runs p r (cur +++ String c EmptyString)
      else if truthy cur then cur :: runs p r EmptyString
      else runs p r EmptyString
  end.

(** [s.split()]: the maximal runs of characters that are not white space. *)
Definition split_ws (s : string) : list string :=
  runs (fun c => negb (is_space c)) s EmptyString.

(** [s.replace(old, '')] for a non-empty [old]: every occurrence found from
    left to right, without overlap, is removed; [skip] counts the characters
    of a found occurrence still to be dropped. *)
Fixpoint remove_from (old : string) (s : string) (skip : nat) : string :=
  match s with
  | EmptyString => EmptyString
  | String c r =>
      match skip with
      | S k => remove_from old r k
      | O => if String.prefix old s then remove_from old r (len old - 1)
             else String c (remove_from old r 0)
      end
  end.

Definition remove_all (old s : string) : string := remove_from old s 0.

(** [s[:n]] for [n >= 0]. *)
Fixpoint str_take (n : nat) (s : string) : string :=
  match n, s with
  | S k, String c r => String c (str_take k r)
  | _, _ => EmptyString
  end.

(** [re.split(p+, s)] for a character class [p]: the pieces between the
    maximal runs of separator characters, empty pieces at the ends
    included. *)
Fixpoint re_split_runs (p : ascii -> bool) (s : string) (in_sep : bool)
  : list string :=
  match s with
  | EmptyString => [EmptyString]
  | String c r =>
      if p c then
        (if in_sep then re_split_runs p r true
         else EmptyString :: re_split_runs p r true)
      else match re_split_runs p r false with
           | [] => [String c EmptyString]
           | q :: qs => String c q :: qs
           end
  end.

(** [sep.join(l)] *)
Fixpoint join (sep : string) (l : list string) : string :=
  match l with
  | [] => EmptyString
  | [x] => x
  | x :: r => x +++ sep +++ join sep r
  end.

(** ** Dictionaries in insertion order *)

Definition dict (V : Type) : Type := list (string * V).

Definition keys {V} (d : dict V) : list string := map fst d.

(** [d.get(k)] *)
Fixpoint get {V} (d : dict V) (k : string) : option V :=
  match d with
  | [] => None
  | (k', v) :: r => if String.eqb k' k then Some v else get r k
  end.

(** [d[k]] *)
Definition getitem {V} (d : dict V) (k : string) : outcome V :=
  match get d k with
  | Some v => Return v
  | None => Raise "KeyError"
  end.

(** [d[k] = v]: an existing key keeps its place. *)
Fixpoint setitem {V} (d : dict V) (k : string) (v : V) : dict V :=
  match d with
  | [] => [(k, v)]
  | (k', v') :: r =>
      if String.eqb k' k then (k', v) :: r else (k', v') :: setitem r k v
  end.

(** [k in s] for a set kept as the list of its members. *)
Definition mem (k : string) (s : list string) : bool :=
  existsb (String.eqb k) s.

End Py.
Import Py.

Notation "x <- m ;; k" := (Py.bind m (fun x => k))
  (at level 61, m at next level, right associativity).

(* ===================================================================== *)
(** * Configuration: [config.py] *)
(* ===================================================================== *)

(** The settings the pipeline reads.  [DEMO_MODE] and
    [USE_FALLBACK_ON_ERROR] are attributes of the class [Config];
    [DEMO_AVAILABLE] is the module-level flag of [tools/web_search.py] that
    records whether [demo_data] could be imported. *)
Record Env : Type := {
  DEMO_MODE : bool;
  USE_FALLBACK_ON_ERROR : bool;
  DEMO_AVAILABLE : bool
}.

(** The values written in [config.py]; [demo_data.py] is part of the
    repository, so the import succeeds. *)
Definition repo_env : Env :=
  {| DEMO_MODE := true; USE_FALLBACK_ON_ERROR := true; DEMO_AVAILABLE := true |}.

(** The same installation switched to live mode. *)
Definition live_env : Env :=
  {| DEMO_MODE := false; USE_FALLBACK_ON_ERROR := true; DEMO_AVAILABLE := true |}.

(** A search result: the dictionary with the keys [title], [url] and
    [snippet]. *)
Record SearchResult : Type := {
  title : string;
  url : string;
  snippet : string
}.

(* ===================================================================== *)
(** * Canned results: [tools/demo_data.py] *)
(* ===================================================================== *)

Module DemoData.

Definition results_artificial_intelligence_in_healthcare : list SearchResult :=
  [ {| title := "AI in Healthcare: Transforming Patient Care";
     url := "https://example.com/ai-healthcare-1";
     snippet := "Artificial intelligence is revolutionizing healthcare through improved diagnostics, personalized treatment plans, and predictive analytics. AI algorithms can analyze medical images with accuracy comparable to human radiologists, helping detect diseases like cancer at earlier stages." |};
    {| title := "Machine Learning Applications in Medicine";
     url := "https://example.com/ai-healthcare-2";
     snippet := "Machine learning models are being used to predict patient outcomes, optimize hospital operations, and assist in drug discovery. These technologies are helping healthcare providers make more informed decisions and improve patient care quality." |};
    {| title := "The Future of AI-Powered Healthcare";
     url := "https://example.com/ai-healthcare-3";
     snippet := "From virtual health assistants to robotic surgery, AI is expanding the possibilities in healthcare. Recent developments include AI systems that can detect diseases earlier and more accurately than traditional methods, leading to better patient outcomes." |};
    {| title := "AI Ethics in Medical Practice";
     url := "https://example.com/ai-healthcare-4";
     snippet := "As AI becomes more prevalent in healthcare, ethical considerations around patient privacy, algorithmic bias, and accountability are crucial. Medical professionals and policymakers are working to establish guidelines for responsible AI use." |};
    {| title := "Real-World AI Healthcare Success Stories";
     url := "https://example.com/ai-healthcare-5";
     snippet := "Healthcare institutions worldwide are reporting significant improvements in patient outcomes using AI. Case studies show reduced diagnosis times, improved treatment accuracy, and better resource allocation in hospitals." |} ].

Definition results_artificial_intelligence : list SearchResult :=
  [ {| title := "Understanding Artificial Intelligence";
     url := "https://example.com/ai-overview";
     snippet := "Artificial Intelligence (AI) refers to computer systems that can perform tasks typically requiring human intelligence. This includes learning, reasoning, problem-solving, and understanding language." |};
    {| title := "AI Technology Trends 2024";
     url := "https://example.com/ai-trends";
     snippet := "The AI landscape is rapidly evolving with breakthroughs in large language models, computer vision, and autonomous systems. Companies are investing billions in AI research and development." |};
    {| title := "Applications of AI Across Industries";
     url := "https://example.com/ai-applications";
     snippet := "AI is being applied across healthcare, finance, transportation, education, and entertainment. From chatbots to self-driving cars, AI technologies are transforming how we live and work." |} ].

Definition results_machine_learning : list SearchResult :=
  [ {| title := "Machine Learning Fundamentals";
     url := "https://example.com/ml-basics";
     snippet := "Machine learning is a subset of AI that enables systems to learn and improve from experience without explicit programming. It uses algorithms to identify patterns in data." |};
    {| title := "Types of Machine Learning";
     url := "https://example.com/ml-types";
     snippet := "The three main types of machine learning are supervised learning, unsupervised learning, and reinforcement learning. Each has different applications and use cases." |};
    {| title := "Real-World ML Applications";
     url := "https://example.com/ml-applications";
     snippet := "Machine learning powers recommendation systems, fraud detection, image recognition, and natural language processing. Companies use ML to gain insights from large datasets." |} ].

Definition results_climate_change : list SearchResult :=
  [ {| title := "Climate Change: Current State";
     url := "https://example.com/climate-overview";
     snippet := "Global temperatures continue to rise, with 2024 on track to be one of the warmest years on record. Scientists warn of increasing extreme weather events and sea level rise." |};
    {| title := "Climate Solutions and Mitigation";
     url := "https://example.com/climate-solutions";
     snippet := "Renewable energy, carbon capture, and sustainable practices offer pathways to reduce emissions. Countries are implementing policies to achieve net-zero targets." |};
    {| title := "Impact on Global Ecosystems";
     url := "https://example.com/climate-impact";
     snippet := "Climate change affects biodiversity, agriculture, and human health. Ecosystems are struggling to adapt to rapid environmental changes." |} ].

Definition results_quantum_computing : list SearchResult :=
  [ {| title := "Introduction to Quantum Computing";
     url := "https://example.com/quantum-intro";
     snippet := "Quantum computers use quantum mechanical phenomena to solve complex problems faster than classical computers. They leverage qubits instead of traditional bits." |};
    {| title := "Quantum Computing Applications";
     url := "https://example.com/quantum-apps";
     snippet := "Potential applications include cryptography, drug discovery, optimization problems, and materials science. Major tech companies are racing to build practical quantum computers." |};
    {| title := "Challenges in Quantum Computing";
     url := "https://example.com/quantum-challenges";
     snippet := "Quantum systems are fragile and require extremely low temperatures. Error correction and scaling remain significant technical hurdles." |} ].

Definition results_default : list SearchResult :=
  [ {| title := "Research Topic Overview";
     url := "https://example.com/overview";
     snippet := "This topic encompasses various aspects including recent developments, practical applications, and future implications. Research shows significant interest and ongoing innovation in this field." |};
    {| title := "Latest Developments and Trends";
     url := "https://example.com/trends";
     snippet := "Current trends indicate growing adoption and increasing investment. Experts predict continued growth and evolution in the coming years with new applications emerging regularly." |};
    {| title := "Practical Applications";
     url := "https://example.com/applications";
     snippet := "Real-world implementations demonstrate the value and potential of this technology. Organizations across industries are finding innovative ways to leverage these capabilities for competitive advantage." |};
    {| title := "Challenges and Considerations";
     url := "https://example.com/challenges";
     snippet := "While promising, this field faces several challenges including technical limitations, ethical concerns, and regulatory questions that need to be addressed." |};
    {| title := "Future Outlook";
     url := "https://example.com/future";
     snippet := "The future looks bright with continued innovation expected. Researchers and practitioners are optimistic about upcoming breakthroughs and wider adoption." |} ].

Definition DEMO_SEARCH_RESULTS : dict (list SearchResult) :=
  [ ("artificial intelligence in healthcare", results_artificial_intelligence_in_healthcare);
    ("artificial intelligence", results_artificial_intelligence);
    ("machine learning", results_machine_learning);
    ("climate change", results_climate_change);
    ("quantum computing", results_quantum_computing);
    ("default", results_default) ].
(** The test of the loop body: [key in query_lower or any(word in
    query_lower for word in key.split())]. *)
Definition key_matches (key query_lower : string) : bool :=
  contains key query_lower ||
  existsb (fun word => contains word query_lower) (split_ws key).

(** The loop [for key in DEMO_SEARCH_RESULTS] over the keys still to be
    visited, followed by the statement after the loop. *)
Fixpoint scan_keys (db : dict (list SearchResult)) (pending : list string)
    (query_lower : string) (max_results : Z)
  : outcome (list SearchResult) :=
  match pending with
  | [] =>
      r <- getitem db "default" ;; Return (slice_to max_results r)
  | key :: rest =>
      if String.eqb key "default" then
        scan_keys db rest query_lower max_results
      else if key_matches key query_lower then
        r <- getitem db key ;; Return (slice_to max_results r)
      else scan_keys db rest query_lower max_results
  end.

(** [get_demo_results(query, max_results)], reading the module-level
    dictionary [db]. *)
Definition get_demo_results (db : dict (list SearchResult))
    (query : string) (max_results : Z) : outcome (list SearchResult) :=
  let query_lower := lower query in
  scan_keys db (keys db) query_lower max_results.

(** [add_demo_topic(topic, results)] *)
Definition add_demo_topic (db : dict (list SearchResult))
    (topic : string) (results : list SearchResult)
  : dict (list SearchResult) :=
  setitem db (lower topic) results.

End DemoData.

(* ===================================================================== *)
(** * The search tool: [tools/web_search.py] *)
(* ===================================================================== *)

Module WebSearchTool.

(** The instance attributes of [WebSearchTool]; the [DDGS] client is the
    [backend] argument of [search]. *)
Record t : Type := {
  max_results : Z;
  use_demo : bool
}.

(** [__init__(self, max_results=5)] *)
Definition init (env : Env) (max_results : Z) : t :=
  {| max_results := max_results; use_demo := DEMO_MODE env |}.

Definition set_use_demo (self : t) (b : bool) : t :=
  {| max_results := max_results self; use_demo := b |}.

(** [d.get(k, default)] on a result of the backend. *)
Definition get_or (d : dict string) (k default : string) : string :=
  match get d k with
  | Some v => v
  | None => default
  end.

(** The dictionary appended to [results] for one backend result. *)
Definition to_result (result : dict string) : SearchResult :=
  {| title := get_or result "title" "No title";
     url := get_or result "href" "";
     snippet := get_or result "body" "No description available" |}.

Definition max_retries : nat := 3.

(** One call of the backend: the list it yields, or the exception it
    raises, given by [str(e)]. *)
Definition backend : Type := nat -> outcome (list (dict string)).

(** The loop [for attempt in range(max_retries)] over the attempts still
    to be made, followed by the [return []] after the loop.  The result is
    what [search] returns or raises, and the tool after the call. *)
Fixpoint attempts (env : Env) (db : dict (list SearchResult)) (self : t)
    (query : string) (ddgs : backend) (pending : list nat)
  : outcome (list SearchResult) * t :=
  match pending with
  | [] => (Return [], self)
  | attempt :: rest =>
      match ddgs attempt with
      | Return search_results => (Return (map to_result search_results), self)
      | Raise error_msg =>
          if contains "Ratelimit" error_msg then
            if attempt <? max_retries - 1 then
              attempts env db self query ddgs rest
            else if DEMO_AVAILABLE env && USE_FALLBACK_ON_ERROR env then
              let self' := set_use_demo self true in
              (DemoData.get_demo_results db query (max_results self'), self')
            else (Return [], self)
          else (Return [], self)
      end
  end.

(** [search(self, query)] *)
Definition search (env : Env) (db : dict (list SearchResult)) (self : t)
    (query : string) (ddgs : backend) : outcome (list SearchResult) * t :=
  if use_demo self && DEMO_AVAILABLE env then
    (DemoData.get_demo_results db query (max_results self), self)
  else attempts env db self query ddgs (seq 0 max_retries).

End WebSearchTool.

(* ===================================================================== *)
(** * Text analysis: [tools/text_processor.py] *)
(* ===================================================================== *)

Module TextProcessor.

(** ** Sorting

    [sorted(l, key=key, reverse=True)] and [l.sort(key=key, reverse=True)]:
    Python's sort is stable and compares keys with [<] only; with
    [reverse=True] the result is in descending order of the keys and elements
    with equal keys keep their original order. *)

Section Sorting.
Context {A K : Type} (key : A -> K) (lt : K -> K -> bool).

(** [x] stood before every element of [l]: it passes the elements with a
    strictly greater key and stops before the first other one. *)
Fixpoint insert_desc (x : A) (l : list A) : list A :=
  match l with
  | [] => [x]
  | y :: r => if lt (key x) (key y) then y :: insert_desc x r else x :: l
  end.

Fixpoint sort_desc (l : list A) : list A :=
  match l with
  | [] => []
  | x :: r => insert_desc x (sort_desc r)
  end.

End Sorting.

(** ** Floating-point scores *)

(** [float(n)] for a length [n]; exact below [2^53]. *)
Definition float_of_nat (n : nat) : float :=
  PrimFloat.of_uint63 (Uint63.of_Z (Z.of_nat n)).

(** [a / b] on two [int]s: the correctly rounded quotient.  The program
    divides lengths and indices only, by a divisor that is not zero. *)
Definition true_div (a b : nat) : float :=
  (float_of_nat a / float_of_nat b)%float.

(** [min(a, b)] on floats: [b] only if it is strictly smaller. *)
Definition py_min (a b : float) : float :=
  if (b <? a)%float then b else a.

(** The literals 0.6 and 0.4 as binary64 values. *)
Definition c_0_6 : float := 0x1.3333333333333p-1%float.
Definition c_0_4 : float := 0x1.999999999999ap-2%float.

(** The body of the scoring loop for the sentence at index [i] of
    [total] candidates. *)
Definition score (i total : nat) (sentence : string) : float :=
  let position_score := (1 - true_div i total)%float in
  let length_score := py_min (true_div (len sentence) 100) 1%float in
  (position_score * c_0_6 + length_score * c_0_4)%float.

Definition is_terminator (c : ascii) : bool :=
  Ascii.eqb c "."%char || Ascii.eqb c "!"%char || Ascii.eqb c "?"%char.

(** The candidates: [[s.strip() for s in re.split(r'[.!?]+', text)
    if len(s.strip()) > 20]]. *)
Definition candidate_sentences (text : string) : list string :=
  map strip
    (filter (fun s => 20 <? len (strip s))
            (re_split_runs is_terminator text false)).

(** The list [scored_sentences] at the end of the scoring loop. *)
Definition scored_sentences (text : string) (max_points : Z)
  : list (string * float) :=
  let sentences := candidate_sentences text in
  map (fun '(i, sentence) => (sentence, score i (List.length sentences) sentence))
      (enumerate (slice_to (max_points * 2) sentences)).

(** [extract_key_points(text, max_points=5)] *)
Definition extract_key_points (text : string) (max_points : Z) : list string :=
  let scored_sentences :=
    sort_desc snd PrimFloat.ltb (scored_sentences text max_points) in
  map fst (slice_to max_points scored_sentences).

(** ** Keywords *)

Definition stop_words : list string :=
  ["that"; "this"; "with"; "from"; "have"; "been";
   "will"; "their"; "there"; "what"; "when"; "where";
   "which"; "while"; "who"; "would"; "could"; "should"].

Fixpoint all_chars (p : ascii -> bool) (s : string) : bool :=
  match s with
  | EmptyString => true
  | String c r => p c && all_chars p r
  end.

(** [re.findall(r'\b[a-z]{4,}\b', s)].  A match starts and ends at a word
    boundary and holds letters [a-z] only, so it is a whole maximal run of
    word characters; such a run is matched exactly when all its characters
    are in [a-z] and there are at least four of them. *)
Definition findall_words (s : string) : list string :=
  filter (fun w => all_chars is_lower w && (4 <=? len w))
         (runs is_word_char s EmptyString).

(** One pass of the counting loop: [word_freq[word] = word_freq.get(word,
    0) + 1] for a word that is not a stop word. *)
Definition count_word (word_freq : dict Z) (word : string) : dict Z :=
  if negb (mem word stop_words) then
    setitem word_freq word
      (match get word_freq word with Some n => n | None => 0 end + 1)%Z
  else word_freq.

(** [extract_keywords(text, top_n=10)] *)
Definition extract_keywords (text : string) (top_n : Z) : list string :=
  let words := findall_words (lower text) in
  let word_freq := fold_left count_word words [] in
  let sorted_words := sort_desc snd Z.ltb word_freq in
  map fst (slice_to top_n sorted_words).

(** ** Summaries and cleaning *)

(** The loop of [summarize_snippets] that removes duplicates: a snippet is
    kept when [snippet.lower().strip()] was not seen. *)
Fixpoint summarize_loop (snippets unique_snippets : list string)
    (seen : list string) : list string :=
  match snippets with
  | [] => unique_snippets
  | snippet :: rest =>
      let normalized := strip (lower snippet) in
      if negb (mem normalized seen) then
        summarize_loop rest (unique_snippets ++ [snippet]) (normalized :: seen)
      else summarize_loop rest unique_snippets seen
  end.

(** [summarize_snippets(snippets)] *)
Definition summarize_snippets (snippets : list string) : string :=
  match snippets with
  | [] => "No content available to summarize."
  | _ => join " " (summarize_loop snippets [] [])
  end.

(** [re.sub(r'\s+', ' ', s)]: every maximal run of white space becomes one
    space; [in_ws] tells that the run being read was already replaced. *)
Fixpoint collapse_ws (s : string) (in_ws : bool) : string :=
  match s with
  | EmptyString => EmptyString
  | String c r =>
      if is_space c then
        (if in_ws then collapse_ws r true
         else String " "%char (collapse_ws r true))
      else String c (collapse_ws r false)
  end.

(** The characters that [[^\w\s.,!?-]] does not match. *)
Definition kept_by_clean (c : ascii) : bool :=
  is_word_char c || is_space c ||
  Ascii.eqb c "."%char || Ascii.eqb c ","%char || Ascii.eqb c "!"%char ||
  Ascii.eqb c "?"%char || Ascii.eqb c "-"%char.

Fixpoint filter_chars (p : ascii -> bool) (s : string) : string :=
  match s with
  | EmptyString => EmptyString
  | String c r => if p c then String c (filter_chars p r) else filter_chars p r
  end.

(** [clean_text(text)] *)
Definition clean_text (text : string) : string :=
  let text := collapse_ws text false in
  let text := filter_chars kept_by_clean text in
  strip text.


End TextProcessor.

(* ===================================================================== *)
(** * The search agent: [agents/search_agent.py] *)
(* ===================================================================== *)

(** The dictionary returned by [search_and_gather]. *)
Record SearchData : Type := {
  sd_topic : string;
  sd_queries : list string;
  sd_results : list SearchResult;
  sd_total_sources : nat
}.

Module SearchAgent.

(** The instance attributes of [SearchAgent].  The OpenAI client is the
    [llm] argument of the methods that call it. *)
Record t : Type := {
  max_results : Z;
  demo_mode : bool;
  search_tool : WebSearchTool.t
}.

Definition with_search_tool (self : t) (tool : WebSearchTool.t) : t :=
  {| max_results := max_results self;
     demo_mode := demo_mode self;
     search_tool := tool |}.

(** [__init__(self, api_key, max_results=5)]; [api_key] is [None] when the
    environment variable is not set, and [client] is the outcome of
    [OpenAI(api_key=api_key)]. *)
Definition init (env : Env) (api_key : option string) (client : outcome unit)
    (max_results : Z) : outcome t :=
  let self :=
    {| max_results := max_results;
       demo_mode := DEMO_MODE env;
       search_tool := WebSearchTool.init env max_results |} in
  if negb (DEMO_MODE env) then
    match api_key with
    | None => Raise "No API key provided!"
    | Some k =>
        if negb (truthy k) then Raise "No API key provided!"
        else if negb (String.prefix "sk-" k || String.prefix "sk-proj-" k)
        then Raise "Invalid API key format!"
        else try_except (_ <- client ;; Return self)
                        (fun e => Raise ("Failed to create OpenAI client: " +++ e))
    end
  else Return self.

Definition newline : ascii := ascii_of_nat 10.

(** The lines kept from the reply of the model:
    [[q.strip() for q in queries_text.split('\n') if q.strip()]]. *)
Definition reply_queries (queries_text : string) : list string :=
  map strip (filter (fun q => truthy (strip q)) (split_char newline queries_text)).

(** [generate_search_queries(self, topic, num_queries=3)].  [llm] is the
    outcome of the call of the model up to
    [response.choices[0].message.content]: the reply, or the exception
    raised on the way. *)
Definition generate_search_queries (self : t) (llm : outcome string)
    (topic : string) (num_queries : Z) : outcome (list string) :=
  if demo_mode self then
    let queries :=
      [topic;
       topic +++ " latest developments";
       topic +++ " practical applications"] in
    Return (slice_to num_queries queries)
  else
    try_except
      (content <- llm ;;
       let queries_text := strip content in
       let queries := reply_queries queries_text in
       Return (slice_to num_queries queries))
      (fun e =>
         Return [topic; topic +++ " latest news"; topic +++ " applications"]).

(** The loop [for query in queries] of [search_and_gather]: the search for
    the [call]-th query talks to the backend [ddgs call]. *)
Fixpoint search_each (env : Env) (db : dict (list SearchResult))
    (tool : WebSearchTool.t) (ddgs : nat -> WebSearchTool.backend)
    (call : nat) (queries : list string) (all_results : list SearchResult)
  : outcome (list SearchResult) * WebSearchTool.t :=
  match queries with
  | [] => (Return all_results, tool)
  | query :: rest =>
      match WebSearchTool.search env db tool query (ddgs call) with
      | (Return results, tool') =>
          search_each env db tool' ddgs (S call) rest (all_results ++ results)
      | (Raise e, tool') => (Raise e, tool')
      end
  end.

(** The loop [for result in all_results] that removes duplicates. *)
Fixpoint unique_loop (all_results unique_results : list SearchResult)
    (seen_urls : list string) : list SearchResult :=
  match all_results with
  | [] => unique_results
  | result :: rest =>
      if negb (mem (url result) seen_urls) then
        unique_loop rest (unique_results ++ [result]) (url result :: seen_urls)
      else unique_loop rest unique_results seen_urls
  end.

Definition remove_duplicates (all_results : list SearchResult)
  : list SearchResult :=
  unique_loop all_results [] [].

(** [search_and_gather(self, topic)]: the returned dictionary, or the
    exception that escapes, and the agent after the call. *)
Definition search_and_gather (env : Env) (db : dict (list SearchResult))
    (self : t) (llm : outcome string) (ddgs : nat -> WebSearchTool.backend)
    (topic : string) : outcome SearchData * t :=
  match generate_search_queries self llm topic 3 with
  | Raise e => (Raise e, self)
  | Return queries =>
      match search_each env db (search_tool self) ddgs 0 queries [] with
      | (Raise e, tool') => (Raise e, with_search_tool self tool')
      | (Return all_results, tool') =>
          let unique_results := remove_duplicates all_results in
          (Return {| sd_topic := topic;
                     sd_queries := queries;
                     sd_results := unique_results;
                     sd_total_sources := List.length unique_results |},
           with_search_tool self tool')
      end
  end.

End SearchAgent.

(* ===================================================================== *)
(** * The analyzer agent: [agents/analyzer_agent.py] *)
(* ===================================================================== *)

Record Insights : Type := {
  overview : string;
  key_findings : string;
  implications : string
}.

(** The dictionary returned by [analyze_sources]. *)
Record Analysis : Type := {
  an_topic : string;
  an_keywords : list string;
  an_key_points : list string;
  an_insights : Insights;
  an_sources : list SearchResult
}.

Module AnalyzerAgent.

Record t : Type := { demo_mode : bool }.

(** [__init__(self, api_key)] *)
Definition init (env : Env) : t := {| demo_mode := DEMO_MODE env |}.

Definition dot : ascii := "."%char.

(** The bullet of a finding: U+2022 and a space. *)
Definition bullet : string := "• ".

(** [snippet.split('.')[0] + '.'] *)
Definition first_sentence (snippet : string) : string :=
  hd EmptyString (split_char dot snippet) +++ ".".

(** [[s.strip() + '.' for s in snippet.split('.') if len(s.strip()) > 30]] *)
Definition long_sentences (snippet : string) : list string :=
  map (fun s => strip s +++ ".")
      (filter (fun s => 30 <? len (strip s)) (split_char dot snippet)).

(** The loop [for result in results[:4]] that collects the findings. *)
Fixpoint collect_findings (results : list SearchResult) (key_findings : list string)
  : list string :=
  match results with
  | [] => key_findings
  | result :: rest =>
      let sentences := long_sentences (snippet result) in
      match sentences with
      | s0 :: _ => collect_findings rest (key_findings ++ [bullet +++ s0])
      | [] => collect_findings rest key_findings
      end
  end.

(** The branch [if self.demo_mode:] of [_synthesize_insights]. *)
Definition demo_insights (topic : string) (results : list SearchResult)
  : Insights :=
  let overview_parts :=
    map (fun result => first_sentence (snippet result)) (slice_to 3 results) in
  let overview := join " " overview_parts in
  let key_findings := collect_findings (slice_to 4 results) [] in
  let key_findings_text := join (String SearchAgent.newline EmptyString) key_findings in
  let implications :=
    "The research on " +++ topic +++
    " shows significant developments and practical applications. " in
  let implications := implications +++
    "Organizations are increasingly adopting these technologies to improve efficiency and outcomes. " in
  let implications := implications +++
    "Continued innovation in this field is expected to drive further advancements." in
  {| overview :=
       if truthy overview then overview
       else "Research on " +++ topic +++
            " reveals multiple important aspects and developments.";
     key_findings :=
       if truthy key_findings_text then key_findings_text
       else "Various perspectives and applications identified in the research.";
     implications := implications |}.

Inductive section : Type := Overview | KeyFindings | Implications.

Definition append_to (insights : Insights) (s : section) (text : string)
  : Insights :=
  match s with
  | Overview =>
      {| overview := overview insights +++ text;
         key_findings := key_findings insights;
         implications := implications insights |}
  | KeyFindings =>
      {| overview := overview insights;
         key_findings := key_findings insights +++ text;
         implications := implications insights |}
  | Implications =>
      {| overview := overview insights;
         key_findings := key_findings insights;
         implications := implications insights +++ text |}
  end.

(** The loop [for line in sections] that reads the reply of the model. *)
Fixpoint parse_sections (sections : list string) (insights : Insights)
    (current_section : option section) : Insights :=
  match sections with
  | [] => insights
  | line :: rest =>
      if contains "OVERVIEW:" line then
        parse_sections rest
          {| overview := strip (remove_all "OVERVIEW:" line);
             key_findings := key_findings insights;
             implications := implications insights |}
          (Some Overview)
      else if contains "KEY_FINDINGS:" line then
        parse_sections rest
          {| overview := overview insights;
             key_findings := strip (remove_all "KEY_FINDINGS:" line);
             implications := implications insights |}
          (Some KeyFindings)
      else if contains "IMPLICATIONS:" line then
        parse_sections rest
          {| overview := overview insights;
             key_findings := key_findings insights;
             implications := strip (remove_all "IMPLICATIONS:" line) |}
          (Some Implications)
      else
        match current_section with
        | Some s =>
            if truthy (strip line) then
              parse_sections rest
                (append_to insights s
                   (String SearchAgent.newline EmptyString +++ strip line))
                current_section
            else parse_sections rest insights current_section
        | None => parse_sections rest insights current_section
        end
  end.

Definition max_content_length : nat := 3000.

(** [_synthesize_insights(self, topic, content, results)].  [llm k] is the
    outcome of the [k]-th call of the model.  The handler of the live branch
    calls the method again, so the method is defined by recursion on
    [fuel], the number of nested calls allowed; [None] says that this number
    did not suffice. *)
Fixpoint _synthesize_insights (fuel : nat) (self : t) (llm : nat -> outcome string)
    (call : nat) (topic content : string) (results : list SearchResult)
  : option Insights :=
  match fuel with
  | O => None
  | S fuel' =>
      if demo_mode self then Some (demo_insights topic results)
      else
        let content :=
          if max_content_length <? len content
          then str_take max_content_length content +++ "..."
          else content in
        match llm call with
        | Return reply =>
            let analysis := strip reply in
            let insights :=
              {| overview := ""; key_findings := ""; implications := "" |} in
            let sections := split_char SearchAgent.newline analysis in
            Some (parse_sections sections insights None)
        | Raise e =>
            if negb (demo_mode self) then
              _synthesize_insights fuel' self llm (S call) topic content results
            else
              Some {| overview := "Analysis of " +++ topic +++
                                  " based on gathered sources.";
                      key_findings := "Multiple perspectives found in research.";
                      implications := "Further research recommended." |}
        end
  end.

(** The loop [for result in results[:5]] that collects the key points. *)
Fixpoint collect_key_points (results : list SearchResult) (key_points : list string)
  : list string :=
  match results with
  | [] => key_points
  | result :: rest =>
      let points := TextProcessor.extract_key_points (snippet result) 2 in
      collect_key_points rest (key_points ++ points)
  end.

(** [analyze_sources(self, search_data)] *)
Definition analyze_sources (fuel : nat) (self : t) (llm : nat -> outcome string)
    (search_data : SearchData) : option Analysis :=
  let results := sd_results search_data in
  let all_text := join " " (map snippet results) in
  let keywords := TextProcessor.extract_keywords all_text 10 in
  let key_points := collect_key_points (slice_to 5 results) [] in
  match _synthesize_insights fuel self llm 0 (sd_topic search_data) all_text results with
  | None => None
  | Some insights =>
      Some {| an_topic := sd_topic search_data;
              an_keywords := keywords;
              an_key_points := key_points;
              an_insights := insights;
              an_sources := results |}
  end.

End AnalyzerAgent.

(* ===================================================================== *)
(** * Validation of the configuration: [config.py] *)
(* ===================================================================== *)

Module Config.

(** [Config.validate()].  [api_key] is [Config.OPENAI_API_KEY], [None] when
    the environment variable is not set, and [makedirs] is the outcome of
    [os.makedirs(Config.REPORTS_DIR, exist_ok=True)]. *)
Definition validate (env : Env) (api_key : option string)
    (makedirs : outcome unit) : outcome bool :=
  if DEMO_MODE env then
    _ <- makedirs ;; Return true
  else
    match api_key with
    | None => Raise "OPENAI_API_KEY not found in environment variables!"
    | Some k =>
        if negb (truthy k) then
          Raise "OPENAI_API_KEY not found in environment variables!"
        else if negb (String.prefix "sk-" k || String.prefix "sk-proj-" k)
        then Raise "Invalid OpenAI API key format!"
        else _ <- makedirs ;; Return true
    end.

End Config.

(* ===================================================================== *)
(** * Specification-level definitions

    The notions in which the properties below are stated, written from the
    words of the specification and independent of the code above. *)
(* ===================================================================== *)

Definition has_url (u : string) (r : SearchResult) : bool := String.eqb (url r) u.

(** [l1] is obtained from [l2] by dropping elements: the elements of [l1]
    occur in [l2] in the same relative order. *)
Inductive subsequence {A : Type} : list A -> list A -> Prop :=
| subseq_nil : subsequence [] []
| subseq_keep x l1 l2 : subsequence l1 l2 -> subsequence (x :: l1) (x :: l2)
| subseq_drop x l1 l2 : subsequence l1 l2 -> subsequence l1 (x :: l2).

(** The first occurrence of every [url]: the head is kept and every later
    result with its [url] is dropped. *)
Fixpoint first_occurrences (l : list SearchResult) : list SearchResult :=
  match l with
  | [] => []
  | r :: rest =>
      r :: filter (fun x => negb (has_url (url r) x)) (first_occurrences rest)
  end.

(** The offline lookup in the words of the specification: the first key
    other than ["default"] that occurs in the lowercased query, or one of
    whose words does; the list stored under it, or else the one stored under
    ["default"], cut to [max_results]. *)
Definition topic_matches (query : string) (key : string) : bool :=
  negb (String.eqb key "default") &&
  (contains key (lower query) ||
   existsb (fun word => contains word (lower query)) (split_ws key)).

Definition offline_lookup (db : dict (list SearchResult)) (query : string)
    (max_results : Z) : outcome (list SearchResult) :=
  match find (topic_matches query) (keys db) with
  | Some key => r <- getitem db key ;; Return (slice_to max_results r)
  | None => r <- getitem db "default" ;; Return (slice_to max_results r)
  end.

(** The query template of the offline planner. *)
Definition query_template (topic : string) : list string :=
  [topic; topic +++ " latest developments"; topic +++ " practical applications"].

(** A backend that answers every attempt with a rate-limit error. *)
Definition always_rate_limited : WebSearchTool.backend :=
  fun _ => Raise "202 Ratelimit".

(** A sequence of calls of [search] on one tool, each with its query and the
    behaviour of the backend during the call: what each call returns or
    raises, and the tool at the end. *)
Fixpoint search_calls (env : Env) (db : dict (list SearchResult))
    (self : WebSearchTool.t) (calls : list (string * WebSearchTool.backend))
  : list (outcome (list SearchResult)) * WebSearchTool.t :=
  match calls with
  | [] => ([], self)
  | (query, ddgs) :: rest =>
      let (r, self') := WebSearchTool.search env db self query ddgs in
      let (rs, self'') := search_calls env db self' rest in
      (r :: rs, self'')
  end.

(** The fallback as the specification words it: the call returns a non-empty
    list and
    leaves the tool offline. *)
Definition falls_back_with_results (env : Env) (db : dict (list SearchResult))
    (self : WebSearchTool.t) (query : string) (ddgs : WebSearchTool.backend)
  : Prop :=
  exists results self',
    WebSearchTool.search env db self query ddgs = (Return results, self') /\
    WebSearchTool.use_demo self' = true /\
    results <> [].

(** The contract of the query planner as the specification words it: a
    non-empty
    sequence of non-empty queries, at most [count] of them. *)
Definition plans_queries (self : SearchAgent.t) (llm : outcome string)
    (topic : string) (count : Z) : Prop :=
  exists queries,
    SearchAgent.generate_search_queries self llm topic count = Return queries /\
    queries <> [] /\
    Forall (fun q => q <> "") queries /\
    (Z.of_nat (List.length queries) <= count)%Z.

(** The agents as [main.py] builds them, offline and live. *)
Definition demo_agent : SearchAgent.t :=
  {| SearchAgent.max_results := 5;
     SearchAgent.demo_mode := true;
     SearchAgent.search_tool := WebSearchTool.init repo_env 5 |}.

Definition live_agent : SearchAgent.t :=
  {| SearchAgent.max_results := 5;
     SearchAgent.demo_mode := false;
     SearchAgent.search_tool := WebSearchTool.init live_env 5 |}.

(** The findings in the words of the specification: for each of the first
    four results, the first sentence of its snippet whose length
    [qualifies], as a bullet; a result without such a sentence gives
    nothing. *)
Definition finding_of (qualifies : nat -> bool) (r : SearchResult)
  : list string :=
  match find (fun s => qualifies (len (strip s)))
             (split_char AnalyzerAgent.dot (snippet r)) with
  | Some s => [AnalyzerAgent.bullet +++ strip s +++ "."]
  | None => []
  end.

Definition findings_of (qualifies : nat -> bool) (results : list SearchResult)
  : list string :=
  flat_map (finding_of qualifies) (firstn 4 results).

Definition key_findings_text (qualifies : nat -> bool)
    (results : list SearchResult) : string :=
  match findings_of qualifies results with
  | [] => "Various perspectives and applications identified in the research."
  | findings => join (String SearchAgent.newline EmptyString) findings
  end.

(** The two readings of the length test. *)
Definition at_least (n : nat) : nat -> bool := fun k => n <=? k.
Definition more_than (n : nat) : nat -> bool := fun k => n <? k.

(** The key points in the words of the specification: at most two points
    from each of the first five results. *)
Definition key_points_of (results : list SearchResult) : list string :=
  flat_map (fun r => TextProcessor.extract_key_points (snippet r) 2)
           (firstn 5 results).

(** [a] may stand before [b] in a descending order: the key of [a] is not
    smaller than the key of [b]. *)
Definition not_below {A K : Type} (key : A -> K) (lt : K -> K -> bool)
    (a b : A) : Prop :=
  lt (key a) (key b) = false.

(** The strings of [l] in the order of their first occurrence. *)
Fixpoint first_seen (l : list string) : list string :=
  match l with
  | [] => []
  | x :: r => x :: filter (fun y => negb (String.eqb x y)) (first_seen r)
  end.

(** The number of occurrences of [w] in [ws], as a Python [int]. *)
Definition occurrences (ws : list string) (w : string) : Z :=
  Z.of_nat (count_occ string_dec ws w).

(** The frequency table in the words of the specification: every distinct
    word, in first-encountered order, with its number of occurrences. *)
Definition frequency_table (ws : list string) : dict Z :=
  map (fun w => (w, occurrences ws w)) (first_seen ws).

(** The words that are counted: the tokens of the lowercased text that are
    not stop words, in text order. *)
Definition counted_words (text : string) : list string :=
  filter (fun w => negb (mem w TextProcessor.stop_words))
         (TextProcessor.findall_words (lower text)).

(** [w] occurs in [s]: [s] is [pre + w + post]. *)
Definition occurs_in (w s : string) : Prop :=
  exists pre post, s = pre +++ w +++ post.

(** The bound of the specification on the number of key points. *)
Definition at_most_max_points (text : string) (max_points : Z) : Prop :=
  (Z.of_nat (List.length (TextProcessor.extract_key_points text max_points))
   <= max_points)%Z.

(** The place of a floating-point number in the order of the numbers: the
    class (negative infinity, negative, zero, positive, positive infinity),
    then exponent and mantissa.  Not-a-number has no place. *)
Definition sf_rank (x : spec_float) : Z * Z * Z :=
  match x with
  | S754_nan => (0, 0, 0)%Z
  | S754_zero _ => (0, 0, 0)%Z
  | S754_infinity true => (-2, 0, 0)%Z
  | S754_infinity false => (2, 0, 0)%Z
  | S754_finite true m e => (-1, - e, Z.neg m)%Z
  | S754_finite false m e => (1, e, Z.pos m)%Z
  end.

(** The lexicographic order of the places. *)
Definition rank_lt (a b : Z * Z * Z) : Prop :=
  let '(a1, a2, a3) := a in
  let '(b1, b2, b3) := b in
  (a1 < b1 \/ a1 = b1 /\ (a2 < b2 \/ a2 = b2 /\ a3 < b3))%Z.

(** Every value but not-a-number. *)
Definition is_number (x : spec_float) : Prop := x <> S754_nan.

(** A number with the sign [s]. *)
Definition sf_sign_is (s : bool) (x : spec_float) : Prop :=
  match x with
  | S754_zero s' | S754_infinity s' | S754_finite s' _ _ => s' = s
  | S754_nan => False
  end.

(** A zero or a finite number. *)
Definition sf_finite (x : spec_float) : Prop :=
  match x with
  | S754_zero _ | S754_finite _ _ _ => True
  | _ => False
  end.

(** A score that is a number: [x == x]. *)
Definition score_is_number (e : string * float) : Prop :=
  (snd e =? snd e)%float = true.

(** The key points in the words of the specification, for a given reading
    [keeps] of the length test on the stripped fragments. *)
Definition key_points_with (keeps : nat -> bool) (text : string)
    (max_points : Z) : list string :=
  let candidates :=
    filter (fun s => keeps (len s))
           (map strip (re_split_runs TextProcessor.is_terminator text false)) in
  let total := List.length candidates in
  let scored :=
    map (fun '(i, s) => (s, TextProcessor.score i total s))
        (enumerate (slice_to (2 * max_points) candidates)) in
  map fst (slice_to max_points
             (TextProcessor.sort_desc snd PrimFloat.ltb scored)).

(** The first element for every key: the head is kept and every later
    element with its key is dropped. *)
Fixpoint first_by {A : Type} (key : A -> string) (l : list A) : list A :=
  match l with
  | [] => []
  | x :: rest =>
      x :: filter (fun y => negb (String.eqb (key x) (key y))) (first_by key rest)
  end.

(** The key under which [summarize_snippets] compares snippets. *)
Definition normalized (snippet : string) : string := strip (lower snippet).

(** The three section headers of a reply of the model. *)
Definition has_header (line : string) : bool :=
  contains "OVERVIEW:" line || contains "KEY_FINDINGS:" line ||
  contains "IMPLICATIONS:" line.

(** The insights before any line of a reply is read. *)
Definition empty_insights : Insights :=
  {| overview := ""; key_findings := ""; implications := "" |}.

(** What a live synthesis makes of a reply of the model. *)
Definition insights_of_reply (reply : string) : Insights :=
  AnalyzerAgent.parse_sections
    (split_char SearchAgent.newline (strip reply)) empty_insights None.

(** An offline agent with the given bound on the results, as
    [SearchAgent.__init__] builds it when [DEMO_MODE] is set. *)
Definition offline_agent (max_results : Z) : SearchAgent.t :=
  {| SearchAgent.max_results := max_results;
     SearchAgent.demo_mode := true;
     SearchAgent.search_tool :=
       {| WebSearchTool.max_results := max_results;
          WebSearchTool.use_demo := true |} |}.

(** The list that answers a lowercased query on the shipped data, by the
    words that decide it. *)
Definition shipped_answer (query_lower : string) : list SearchResult :=
  if contains "artificial" query_lower || contains "in" query_lower ||
     contains "healthcare" query_lower
  then DemoData.results_artificial_intelligence_in_healthcare
  else if contains "climate" query_lower || contains "change" query_lower
  then DemoData.results_climate_change
  else if contains "quantum" query_lower
  then DemoData.results_quantum_computing
  else DemoData.results_default.

(** A backend that answers with rate-limit errors before attempt [k] and
    with [answer] from then on. *)
Definition rate_limited_before (k : nat) (answer : outcome (list (dict string)))
  : WebSearchTool.backend :=
  fun attempt => if attempt <? k then Raise "202 Ratelimit" else answer.


(* ===================================================================== *)
(** * Properties *)
(* ===================================================================== *)

(** ** Slices *)

Lemma slice_to_nonneg {A} (n : Z) (l : list A) :
  (0 <= n)%Z -> slice_to n l = firstn (Z.to_nat n) l.
Proof.
  intros Hn. unfold slice_to.
  destruct (0 <=? n)%Z eqn:E; [reflexivity | apply Z.leb_gt in E; lia].
Qed.

Lemma slice_to_prefix {A} (n : Z) (l : list A) :
  exists k, slice_to n l = firstn k l.
Proof.
  unfold slice_to. destruct (0 <=? n)%Z; eexists; reflexivity.
Qed.

Lemma slice_to_length {A} (n : Z) (l : list A) :
  (0 <= n)%Z -> (Z.of_nat (List.length (slice_to n l)) <= n)%Z.
Proof.
  intros Hn. rewrite slice_to_nonneg by assumption.
  rewrite length_firstn. lia.
Qed.

Lemma slice_to_length_le {A} (n : Z) (l : list A) :
  List.length (slice_to n l) <= List.length l.
Proof.
  destruct (slice_to_prefix n l) as [k ->]. rewrite length_firstn. lia.
Qed.

Lemma slice_to_In {A} (n : Z) (l : list A) (x : A) :
  In x (slice_to n l) -> In x l.
Proof.
  destruct (slice_to_prefix n l) as [k ->]. intros H.
  rewrite <- (firstn_skipn k l). apply in_or_app. now left.
Qed.

Lemma slice_to_nil_iff {A} (n : Z) (l : list A) :
  (1 <= n)%Z -> slice_to n l = [] -> l = [].
Proof.
  intros Hn. rewrite slice_to_nonneg by lia.
  destruct (Z.to_nat n) eqn:E; [lia|].
  destruct l; [reflexivity | discriminate].
Qed.

(** ** Strings *)

Lemma truthy_true_iff (s : string) : truthy s = true <-> s <> "".
Proof.
  destruct s; simpl; split; intros H; congruence.
Qed.

Lemma append_nonempty_r (s t : string) : t <> "" -> s +++ t <> "".
Proof.
  intros Ht. destruct s; simpl; [assumption | discriminate].
Qed.

Lemma append_nonempty_l (s t : string) : s <> "" -> s +++ t <> "".
Proof.
  intros Hs. destruct s; simpl; [now contradiction Hs | discriminate].
Qed.

(** ** Removing duplicates *)

Section Deduplication.

Import SearchAgent.

Lemma filter_filter {A} (p q : A -> bool) (l : list A) :
  filter p (filter q l) = filter (fun x => q x && p x) l.
Proof.
  induction l as [|x l IH]; simpl; [reflexivity|].
  destruct (q x); simpl; [destruct (p x)|]; now rewrite IH.
Qed.

(** The loop appends to [unique_results] the first occurrences, among the
    results still to be read, of the [url]s that were not seen. *)
Lemma unique_loop_first_occurrences all_results :
  forall unique_results seen_urls,
    unique_loop all_results unique_results seen_urls =
    unique_results ++
    filter (fun x => negb (mem (url x) seen_urls)) (first_occurrences all_results).
Proof.
  induction all_results as [|result rest IH]; intros acc seen; simpl.
  - now rewrite app_nil_r.
  - destruct (mem (url result) seen) eqn:Hseen; simpl; rewrite IH.
    + f_equal. rewrite filter_filter. apply filter_ext. intros x.
      unfold has_url. destruct (String.eqb_spec (url x) (url result)) as [->|]; simpl.
      * now rewrite Hseen.
      * reflexivity.
    + rewrite <- app_assoc. simpl. do 2 f_equal.
      rewrite filter_filter. apply filter_ext. intros x.
      unfold has_url, mem. simpl.
      rewrite (String.eqb_sym (url x) (url result)).
      now rewrite negb_orb.
Qed.

Lemma remove_duplicates_first_occurrences all_results :
  remove_duplicates all_results = first_occurrences all_results.
Proof.
  unfold remove_duplicates. rewrite unique_loop_first_occurrences. simpl.
  induction (first_occurrences all_results) as [|x l IH]; simpl; congruence.
Qed.

Lemma subsequence_refl {A} (l : list A) : subsequence l l.
Proof. induction l; constructor; assumption. Qed.

Lemma subsequence_filter {A} (p : A -> bool) (l1 l2 : list A) :
  subsequence l1 l2 -> subsequence (filter p l1) l2.
Proof.
  induction 1; simpl.
  - constructor.
  - destruct (p x); now constructor.
  - now constructor.
Qed.

Lemma first_occurrences_subsequence l : subsequence (first_occurrences l) l.
Proof.
  induction l as [|r rest IH]; simpl; constructor.
  now apply subsequence_filter.
Qed.

Lemma first_occurrences_urls l u :
  In u (map url (first_occurrences l)) <-> In u (map url l).
Proof.
  induction l as [|r rest IH]; simpl; [reflexivity|].
  rewrite <- IH. rewrite !in_map_iff. split.
  - intros [H | (x & Hx & Hin)]; [now left|].
    apply filter_In in Hin. right. exists x. tauto.
  - intros [H | (x & Hx & Hin)]; [now left|].
    destruct (String.eqb_spec (url r) u) as [E|E]; [now left|].
    right. exists x. split; [assumption|]. apply filter_In. split; [assumption|].
    unfold has_url. rewrite Hx. apply negb_true_iff.
    apply String.eqb_neq. congruence.
Qed.

Lemma first_occurrences_NoDup l : NoDup (map url (first_occurrences l)).
Proof.
  induction l as [|r rest IH]; simpl; constructor.
  - rewrite in_map_iff. intros (x & Hx & Hin). apply filter_In in Hin.
    destruct Hin as [_ Hin]. unfold has_url in Hin.
    rewrite Hx, String.eqb_refl in Hin. discriminate.
  - induction (first_occurrences rest) as [|x l IHl]; simpl; [constructor|].
    inversion IH; subst. destruct (negb (has_url (url r) x)); simpl; auto.
    constructor; auto. rewrite in_map_iff in *.
    intros (y & Hy & Hin). apply filter_In in Hin. apply H1. exists y. tauto.
Qed.

Lemma find_filter_other {A} (p q : A -> bool) (l : list A) :
  (forall x, p x = true -> q x = true) ->
  find p (filter q l) = find p l.
Proof.
  intros Hpq. induction l as [|x l IH]; simpl; [reflexivity|].
  destruct (q x) eqn:Hq; simpl.
  - now rewrite IH.
  - destruct (p x) eqn:Hp; [|assumption].
    apply Hpq in Hp. congruence.
Qed.

Lemma first_occurrences_find l u :
  find (has_url u) (first_occurrences l) = find (has_url u) l.
Proof.
  induction l as [|r rest IH]; simpl; [reflexivity|].
  destruct (has_url u r) eqn:Hr; [reflexivity|].
  rewrite find_filter_other; [assumption|].
  intros x Hx. unfold has_url in *. apply String.eqb_eq in Hx.
  rewrite Hx, String.eqb_sym. now rewrite Hr.
Qed.

(** The merge step of [search_and_gather] is [remove_duplicates] applied to
    the concatenation of the results of the searches. *)
Lemma search_and_gather_results env db self llm ddgs topic data self' :
  search_and_gather env db self llm ddgs topic = (Return data, self') ->
  exists queries all_results tool',
    generate_search_queries self llm topic 3 = Return queries /\
    search_each env db (search_tool self) ddgs 0 queries [] =
      (Return all_results, tool') /\
    sd_results data = remove_duplicates all_results /\
    sd_total_sources data = List.length (sd_results data).
Proof.
  unfold search_and_gather.
  destruct (generate_search_queries self llm topic 3) as [queries|e]; [|discriminate].
  destruct (search_each _ _ _ _ _ _ _) as [[all_results|e] tool'] eqn:E; [|discriminate].
  intros H. inversion H; subst; clear H. simpl.
  exists queries, all_results, tool'. auto.
Qed.

Lemma first_occurrences_length l :
  List.length (first_occurrences l) =
  List.length (nodup string_dec (map url l)).
Proof.
  rewrite <- (length_map url).
  apply Permutation_length, NoDup_Permutation.
  - apply first_occurrences_NoDup.
  - apply NoDup_nodup.
  - intros u. rewrite nodup_In. apply first_occurrences_urls.
Qed.

Lemma filter_map_comm {X Y} (f : X -> Y) (p : Y -> bool) (l : list X) :
  filter p (map f l) = map f (filter (fun x => p (f x)) l).
Proof.
  induction l as [|x l IH]; simpl; [reflexivity|].
  destruct (p (f x)); simpl; now rewrite IH.
Qed.

Lemma first_occurrences_app l m :
  first_occurrences (l ++ m) =
  first_occurrences l ++
  filter (fun r => negb (mem (url r) (map url l))) (first_occurrences m).
Proof.
  induction l as [|x l IH]; simpl.
  - induction (first_occurrences m) as [|y k IHk]; simpl; congruence.
  - f_equal. rewrite IH, filter_app. f_equal.
    rewrite filter_filter. apply filter_ext. intros r.
    unfold has_url, mem. simpl.
    rewrite (String.eqb_sym (url r) (url x)).
    rewrite negb_orb. apply andb_comm.
Qed.

(** A result read after [l] is added at the end when its [url] is new, and
    dropped otherwise. *)
Lemma first_occurrences_snoc l r :
  first_occurrences (l ++ [r]) =
  if mem (url r) (map url l) then first_occurrences l
  else first_occurrences l ++ [r].
Proof.
  rewrite first_occurrences_app. simpl.
  destruct (mem (url r) (map url l)); simpl; [apply app_nil_r | reflexivity].
Qed.

(** The [url]s of the first occurrences are the distinct [url]s in the
    order in which they are first met. *)
Lemma first_occurrences_url_order l :
  map url (first_occurrences l) = first_seen (map url l).
Proof.
  induction l as [|r rest IH]; simpl; [reflexivity|].
  f_equal. rewrite <- IH, filter_map_comm. f_equal.
  apply filter_ext. intros x. unfold has_url.
  now rewrite String.eqb_sym.
Qed.

(** C1.  Removing duplicates keeps, for every [url] of the input, exactly
    its first occurrence, in the order of the input: the output is the list
    of the first occurrences, its [url]s are the distinct [url]s of the
    input in the order in which they are first met, no [url] occurs twice in
    it, it is the input with elements dropped and none reordered, the first
    result with a given [url] is the same in the output and in the input,
    and it has as many elements as the input has distinct [url]s.  A result
    read after the others is added at the end of the output when its [url]
    is new and dropped otherwise.  The results that [search_and_gather]
    returns are obtained in this way from the concatenation of the results
    of its searches. *)
Theorem remove_duplicates_keeps_first_occurrences :
  (forall all_results : list SearchResult,
      let unique_results := remove_duplicates all_results in
      unique_results = first_occurrences all_results /\
      map url unique_results = first_seen (map url all_results) /\
      NoDup (map url unique_results) /\
      subsequence unique_results all_results /\
      (forall u, find (has_url u) unique_results = find (has_url u) all_results) /\
      List.length unique_results =
        List.length (nodup string_dec (map url all_results)) /\
      (forall result,
          remove_duplicates (all_results ++ [result]) =
          if mem (url result) (map url all_results) then unique_results
          else unique_results ++ [result])) /\
  (forall env db self llm ddgs topic data self',
      search_and_gather env db self llm ddgs topic = (Return data, self') ->
      exists queries all_results tool',
        generate_search_queries self llm topic 3 = Return queries /\
        search_each env db (search_tool self) ddgs 0 queries [] =
          (Return all_results, tool') /\
        sd_results data = remove_duplicates all_results /\
        sd_total_sources data =
          List.length (nodup string_dec (map url all_results))).
Proof.
  split.
  - intros all_results unique_results. subst unique_results.
    rewrite remove_duplicates_first_occurrences.
    split; [reflexivity|].
    split; [apply first_occurrences_url_order|].
    split; [apply first_occurrences_NoDup|].
    split; [apply first_occurrences_subsequence|].
    split; [intros u; apply first_occurrences_find|].
    split; [apply first_occurrences_length|].
    intros result. rewrite remove_duplicates_first_occurrences.
    apply first_occurrences_snoc.
  - intros env db self llm ddgs topic data self' H.
    apply search_and_gather_results in H.
    destruct H as (queries & all_results & tool' & Hq & Hs & Hr & Ht).
    exists queries, all_results, tool'.
    repeat (split; [assumption|]).
    rewrite Ht, Hr, remove_duplicates_first_occurrences.
    apply first_occurrences_length.
Qed.

(** The order is that of the input: of two results with the same [url]
    the first is kept where it stood. *)
Example remove_duplicates_order :
  let a := {| title := "A"; url := "u"; snippet := "first" |} in
  let b := {| title := "B"; url := "v"; snippet := "other" |} in
  let a' := {| title := "A again"; url := "u"; snippet := "second" |} in
  remove_duplicates [a; b; a'] = [a; b].
Proof. reflexivity. Qed.

(** The offline pipeline on the topic [climate change]: three queries, nine
    results, three distinct [url]s. *)
Lemma remove_duplicates_keeps_first_occurrences_witness :
  exists data self',
    search_and_gather repo_env DemoData.DEMO_SEARCH_RESULTS demo_agent
      (Raise "no client") (fun _ _ => Raise "no network") "climate change" =
      (Return data, self') /\
    sd_results data = DemoData.results_climate_change /\
    sd_total_sources data = 3.
Proof.
  destruct (search_and_gather repo_env DemoData.DEMO_SEARCH_RESULTS demo_agent
              (Raise "no client") (fun _ _ => Raise "no network")
              "climate change") as [[data|e] self'] eqn:E;
    [|vm_compute in E; discriminate].
  exists data, self'. split; [reflexivity|].
  destruct (proj2 remove_duplicates_keeps_first_occurrences _ _ _ _ _ _ _ _ E)
    as (queries & all_results & tool' & Hq & Hs & Hr & Ht).
  vm_compute in Hq. inversion Hq; subst queries; clear Hq.
  vm_compute in Hs. inversion Hs; subst all_results tool'; clear Hs.
  split; [rewrite Hr; reflexivity | rewrite Ht; reflexivity].
Defined.

End Deduplication.

(** ** The offline lookup *)

Section OfflineLookup.

Import DemoData.

Lemma scan_keys_find db query max_results pending :
  scan_keys db pending (lower query) max_results =
  match find (topic_matches query) pending with
  | Some key => r <- getitem db key ;; Return (slice_to max_results r)
  | None => r <- getitem db "default" ;; Return (slice_to max_results r)
  end.
Proof.
  induction pending as [|key rest IH]; simpl; [reflexivity|].
  unfold topic_matches at 1. fold (key_matches key (lower query)).
  destruct (String.eqb key "default"); simpl; [assumption|].
  destruct (key_matches key (lower query)); [reflexivity | assumption].
Qed.

Lemma shipped_keys_present key :
  In key (keys DEMO_SEARCH_RESULTS) ->
  exists r, get DEMO_SEARCH_RESULTS key = Some r /\ r <> [].
Proof.
  simpl. intros H.
  repeat (destruct H as [<- | H]; [eexists; split; [reflexivity | discriminate] |]).
  contradiction.
Qed.

(** On the shipped data the lookup returns the list of one of the keys. *)
Lemma shipped_lookup query max_results :
  exists key r,
    (find (topic_matches query) (keys DEMO_SEARCH_RESULTS) = Some key \/
     find (topic_matches query) (keys DEMO_SEARCH_RESULTS) = None /\
     key = "default") /\
    get DEMO_SEARCH_RESULTS key = Some r /\ r <> [] /\
    get_demo_results DEMO_SEARCH_RESULTS query max_results =
      Return (slice_to max_results r).
Proof.
  unfold get_demo_results. rewrite scan_keys_find.
  destruct (find (topic_matches query) (keys DEMO_SEARCH_RESULTS)) as [key|] eqn:F.
  - destruct (shipped_keys_present key) as (r & Hr & Hne).
    { now apply find_some in F. }
    exists key, r. unfold getitem. rewrite Hr. simpl. auto.
  - destruct (shipped_keys_present "default") as (r & Hr & Hne).
    { simpl. tauto. }
    exists "default", r. unfold getitem. rewrite Hr. simpl. auto.
Qed.

(** C3.  The lookup returns the list stored under the first key, other than
    ["default"], that is a substring of the lowercased query or one of whose
    words is, cut to [max_results]; when no key matches it returns the list
    stored under ["default"], cut to [max_results].  On the shipped data
    both lists exist, so the lookup returns. *)
Theorem get_demo_results_first_matching_key :
  forall (query : string) (max_results : Z),
    (forall db,
        get_demo_results db query max_results =
        offline_lookup db query max_results) /\
    (exists key r,
        (find (topic_matches query) (keys DEMO_SEARCH_RESULTS) = Some key \/
         find (topic_matches query) (keys DEMO_SEARCH_RESULTS) = None /\
         key = "default") /\
        get DEMO_SEARCH_RESULTS key = Some r /\
        get_demo_results DEMO_SEARCH_RESULTS query max_results =
          Return (slice_to max_results r)).
Proof.
  intros query max_results. split.
  - intros db. unfold get_demo_results, offline_lookup. apply scan_keys_find.
  - destruct (shipped_lookup query max_results) as (key & r & H & Hr & _ & E).
    exists key, r. auto.
Qed.

(** The fuzziness of the rule: the word [in] of the first key occurs in
    [machine], so this query is answered with the health-care list. *)
Example lookup_machine_learning :
  get_demo_results DEMO_SEARCH_RESULTS "Machine Learning" 2 =
  Return (firstn 2 results_artificial_intelligence_in_healthcare).
Proof. reflexivity. Qed.

Example lookup_climate_change :
  get_demo_results DEMO_SEARCH_RESULTS "climate change" 5 =
  Return results_climate_change.
Proof. reflexivity. Qed.

Example lookup_default :
  get_demo_results DEMO_SEARCH_RESULTS "rust" 5 = Return results_default.
Proof. reflexivity. Qed.

Lemma shipped_lookup_nonempty query max_results :
  (1 <= max_results)%Z ->
  exists results,
    get_demo_results DEMO_SEARCH_RESULTS query max_results = Return results /\
    results <> [].
Proof.
  intros Hn.
  destruct (shipped_lookup query max_results) as (key & r & _ & _ & Hne & E).
  eexists. split; [exact E|].
  intros H. apply Hne. now apply slice_to_nil_iff in H.
Qed.

End OfflineLookup.

(** ** The search tool *)

Section SearchTool.

Import WebSearchTool.

Lemma attempts_flag env db self query ddgs pending :
  let self' := snd (attempts env db self query ddgs pending) in
  max_results self' = max_results self /\
  (use_demo self' = use_demo self \/ use_demo self' = true).
Proof.
  induction pending as [|attempt rest IH]; simpl; [auto|].
  destruct (ddgs attempt) as [rs|e]; simpl; [auto|].
  destruct (contains "Ratelimit" e); simpl; [|auto].
  destruct (attempt <? 2); [exact IH|].
  destruct (DEMO_AVAILABLE env && USE_FALLBACK_ON_ERROR env); simpl; auto.
Qed.

(** No call of [search] takes an offline tool back to live mode. *)
Lemma search_stays_offline env db self query ddgs :
  use_demo self = true ->
  use_demo (snd (search env db self query ddgs)) = true.
Proof.
  intros H. unfold search.
  destruct (use_demo self && DEMO_AVAILABLE env); [exact H|].
  destruct (attempts_flag env db self query ddgs (seq 0 max_retries)) as [_ [E|E]];
    congruence.
Qed.

Lemma search_calls_stay_offline env db calls :
  forall self,
    use_demo self = true ->
    use_demo (snd (search_calls env db self calls)) = true.
Proof.
  induction calls as [|[query ddgs] rest IH]; intros self H; simpl; [assumption|].
  pose proof (search_stays_offline env db self query ddgs H) as H1.
  destruct (search env db self query ddgs) as [r self1]. simpl in H1.
  specialize (IH self1 H1).
  destruct (search_calls env db self1 rest). exact IH.
Qed.

(** An offline tool answers from the canned data and does not change. *)
Lemma search_offline env db self query ddgs :
  DEMO_AVAILABLE env = true ->
  use_demo self = true ->
  search env db self query ddgs =
  (DemoData.get_demo_results db query (max_results self), self).
Proof.
  intros Ha Hd. unfold search. now rewrite Ha, Hd.
Qed.

Lemma search_calls_offline env db self calls :
  DEMO_AVAILABLE env = true ->
  use_demo self = true ->
  search_calls env db self calls =
  (map (fun call => DemoData.get_demo_results db (fst call) (max_results self)) calls,
   self).
Proof.
  intros Ha Hd. induction calls as [|[query ddgs] rest IH]; simpl; [reflexivity|].
  rewrite search_offline by assumption. now rewrite IH.
Qed.

(** Three rate-limit errors in a row, with the fallback enabled. *)
Lemma search_rate_limited env db self query ddgs :
  DEMO_AVAILABLE env = true ->
  USE_FALLBACK_ON_ERROR env = true ->
  use_demo self = false ->
  (forall attempt, attempt < 3 ->
     exists e, ddgs attempt = Raise e /\ contains "Ratelimit" e = true) ->
  search env db self query ddgs =
  (DemoData.get_demo_results db query (max_results self), set_use_demo self true).
Proof.
  intros Ha Hf Hd Hrl. unfold search. rewrite Hd. simpl.
  destruct (Hrl 0) as (e0 & E0 & C0); [lia|].
  destruct (Hrl 1) as (e1 & E1 & C1); [lia|].
  destruct (Hrl 2) as (e2 & E2 & C2); [lia|].
  rewrite E0, C0. simpl. rewrite E1, C1. simpl. rewrite E2, C2. simpl.
  now rewrite Ha, Hf.
Qed.

(** C2, as stated, fails: with [max_results = 0] the fallback switches the
    tool offline but the list it returns is empty. *)
Lemma fallback_with_zero_max_results_is_empty :
  ~ falls_back_with_results live_env DemoData.DEMO_SEARCH_RESULTS
      {| max_results := 0; use_demo := false |}
      "machine learning" always_rate_limited.
Proof.
  intros (results & self' & E & _ & Hne).
  vm_compute in E. inversion E; subst. now apply Hne.
Qed.

(** C2, amended.  In live mode with the canned data available and the
    fallback enabled, a call of [search] that meets three rate-limit errors
    in a row leaves the tool offline and returns the offline results for
    the failed query, cut to [max_results]: a non-empty list when
    [max_results] is at least 1.  From then on every call is answered from
    the canned data, and no sequence of calls, whatever the settings, takes
    the tool back to live mode. *)
Theorem rate_limit_fallback_is_one_way :
  forall (env : Env) (self : t) (query : string) (ddgs : backend),
    DEMO_AVAILABLE env = true ->
    USE_FALLBACK_ON_ERROR env = true ->
    use_demo self = false ->
    (forall attempt, attempt < 3 ->
       exists e, ddgs attempt = Raise e /\ contains "Ratelimit" e = true) ->
    exists results self',
      search env DemoData.DEMO_SEARCH_RESULTS self query ddgs =
        (Return results, self') /\
      DemoData.get_demo_results DemoData.DEMO_SEARCH_RESULTS query
        (max_results self) = Return results /\
      ((1 <= max_results self)%Z -> results <> []) /\
      use_demo self' = true /\
      max_results self' = max_results self /\
      (forall db calls,
          search_calls env db self' calls =
          (map (fun call =>
                  DemoData.get_demo_results db (fst call) (max_results self'))
               calls, self')) /\
      (forall env' db calls,
          use_demo (snd (search_calls env' db self' calls)) = true).
Proof.
  intros env self query ddgs Ha Hf Hd Hrl.
  destruct (shipped_lookup query (max_results self)) as (key & r & _ & _ & Hne & E).
  exists (slice_to (max_results self) r), (set_use_demo self true).
  rewrite (search_rate_limited env _ self query ddgs Ha Hf Hd Hrl), E.
  repeat split; try reflexivity.
  - intros Hn H. apply Hne. now apply slice_to_nil_iff in H.
  - intros db calls. now apply search_calls_offline.
  - intros env' db calls. now apply search_calls_stay_offline.
Qed.

Lemma rate_limit_fallback_is_one_way_witness :
  exists results self',
    search live_env DemoData.DEMO_SEARCH_RESULTS
      {| max_results := 5; use_demo := false |}
      "quantum computing" always_rate_limited = (Return results, self') /\
    results <> [] /\ use_demo self' = true.
Proof.
  destruct (rate_limit_fallback_is_one_way live_env
              {| max_results := 5; use_demo := false |}
              "quantum computing" always_rate_limited)
    as (results & self' & E & _ & Hne & Hd & _).
  - reflexivity.
  - reflexivity.
  - reflexivity.
  - intros attempt _. exists "202 Ratelimit". split; reflexivity.
  - exists results, self'. split; [exact E|]. split; [|exact Hd].
    apply Hne. simpl. lia.
Defined.

End SearchTool.

(** ** The query planner *)

Section QueryPlanner.

Import SearchAgent.

Lemma query_template_nonempty topic :
  topic <> "" -> Forall (fun q => q <> "") (query_template topic).
Proof.
  intros Ht. unfold query_template.
  repeat constructor; [assumption | |]; now apply append_nonempty_l.
Qed.

Lemma Forall_slice_to {A} (P : A -> Prop) (n : Z) (l : list A) :
  Forall P l -> Forall P (slice_to n l).
Proof.
  intros H. apply Forall_forall. intros x Hx.
  apply slice_to_In in Hx. revert x Hx. now apply Forall_forall.
Qed.

(** C5.  In offline mode the planner returns, for [count = 3], exactly the
    three queries of the template, and for every [count] the template cut
    by the slice [[:count]], which for a [count] that is not negative is the
    list of its first [count] queries. *)
Theorem generate_search_queries_offline_template :
  forall (self : t) (llm : outcome string) (topic : string),
    demo_mode self = true ->
    generate_search_queries self llm topic 3 =
      Return [topic;
              topic +++ " latest developments";
              topic +++ " practical applications"] /\
    (forall count : Z,
        generate_search_queries self llm topic count =
          Return (slice_to count (query_template topic)) /\
        ((0 <= count)%Z ->
         generate_search_queries self llm topic count =
           Return (firstn (Z.to_nat count) (query_template topic)))).
Proof.
  intros self llm topic Hd. unfold generate_search_queries. rewrite Hd.
  split; [reflexivity|]. intros count. split; [reflexivity|].
  intros Hc. now rewrite slice_to_nonneg.
Qed.

Lemma generate_search_queries_offline_template_witness :
  generate_search_queries demo_agent (Raise "no client") "rust" 3 =
    Return ["rust"; "rust latest developments"; "rust practical applications"] /\
  generate_search_queries demo_agent (Raise "no client") "rust" 2 =
    Return ["rust"; "rust latest developments"].
Proof.
  destruct (generate_search_queries_offline_template
              demo_agent (Raise "no client") "rust" eq_refl) as [H3 Hc].
  split; [exact H3|].
  destruct (Hc 2%Z) as [_ H2]. apply H2. discriminate.
Defined.

(** X24.  The planner never raises.  In offline mode it returns the
    template cut by the slice [[:count]]: at most [count] queries when
    [count] is not negative, and at least one when [count] is at least 1.
    In live mode, when the call of the model fails, it returns a non-empty
    sequence.  In both cases every query is non-empty when the topic is. *)
Theorem generate_search_queries_never_raises :
  forall (self : t) (llm : outcome string) (topic : string) (count : Z),
    exists queries,
      generate_search_queries self llm topic count = Return queries /\
      (demo_mode self = true ->
       queries = slice_to count (query_template topic) /\
       ((0 <= count)%Z -> (Z.of_nat (List.length queries) <= count)%Z) /\
       ((1 <= count)%Z -> queries <> [])) /\
      (demo_mode self = false -> (exists e, llm = Raise e) -> queries <> []) /\
      (topic <> "" ->
       demo_mode self = true \/ (exists e, llm = Raise e) ->
       Forall (fun q => q <> "") queries).
Proof.
  intros self llm topic count. unfold generate_search_queries.
  destruct (demo_mode self) eqn:Hd.
  - eexists. split; [reflexivity|]. split; [|split].
    + intros _. split; [reflexivity|]. split.
      * apply slice_to_length.
      * intros Hc H. apply slice_to_nil_iff in H; [discriminate | assumption].
    + discriminate.
    + intros Ht _. apply Forall_slice_to. now apply query_template_nonempty.
  - destruct llm as [content|e]; simpl.
    + eexists. split; [reflexivity|]. split; [discriminate|]. split.
      * intros _ [e He]. discriminate.
      * intros _ [H|[e He]]; discriminate.
    + eexists. split; [reflexivity|]. split; [discriminate|]. split.
      * intros _ _. discriminate.
      * intros Ht _. repeat constructor; [assumption | |];
          now apply append_nonempty_l.
Qed.

Lemma generate_search_queries_never_raises_witness :
  (exists queries,
      generate_search_queries demo_agent (Raise "no client") "rust" 2 =
        Return queries /\
      (Z.of_nat (List.length queries) <= 2)%Z /\ queries <> [] /\
      Forall (fun q => q <> "") queries) /\
  (exists queries,
      generate_search_queries live_agent (Raise "timeout") "rust" 2 =
        Return queries /\
      queries <> [] /\ Forall (fun q => q <> "") queries).
Proof.
  split.
  - destruct (generate_search_queries_never_raises
                demo_agent (Raise "no client") "rust" 2)
      as (queries & E & Hdemo & _ & Hall).
    destruct (Hdemo eq_refl) as (_ & Hlen & Hne).
    exists queries. split; [exact E|]. split; [apply Hlen; discriminate|].
    split; [apply Hne; discriminate|].
    apply Hall; [discriminate | left; reflexivity].
  - destruct (generate_search_queries_never_raises
                live_agent (Raise "timeout") "rust" 2)
      as (queries & E & _ & Hlive & Hall).
    exists queries. split; [exact E|].
    split; [apply Hlive; [reflexivity | now exists "timeout"]|].
    apply Hall; [discriminate | right; now exists "timeout"].
Defined.

(** C4.  The claim fails on the failure fallback of the live planner.  The
    handler returns its three queries whatever [count] is, where the
    offline path and the path of an answered call both cut their queries by
    the slice [[:count]].  For the topic [rust], a call of the model that
    fails and [count = 1] the planner returns three queries, more than
    [count].  In general the fallback returns its three queries for every
    [count], while on the two other paths at most [count] queries are
    returned whenever [count] is not negative. *)
Theorem fallback_queries_are_not_cut_to_count :
  generate_search_queries live_agent (Raise "timeout") "rust" 1 =
    Return ["rust"; "rust latest news"; "rust applications"] /\
  ~ plans_queries live_agent (Raise "timeout") "rust" 1 /\
  (forall (self : t) (e topic : string) (count : Z),
      demo_mode self = false ->
      generate_search_queries self (Raise e) topic count =
        Return [topic; topic +++ " latest news"; topic +++ " applications"]) /\
  (forall (self : t) (llm : outcome string) (topic : string) (count : Z)
          (queries : list string),
      demo_mode self = true \/ (exists content, llm = Return content) ->
      generate_search_queries self llm topic count = Return queries ->
      (0 <= count)%Z ->
      (Z.of_nat (List.length queries) <= count)%Z).
Proof.
  split; [reflexivity|]. split; [|split].
  - intros (queries & E & _ & _ & Hlen).
    vm_compute in E. inversion E; subst; clear E.
    vm_compute in Hlen. now apply Hlen.
  - intros self e topic count Hd. unfold generate_search_queries.
    now rewrite Hd.
  - intros self llm topic count queries Hpath E Hc.
    unfold generate_search_queries in E.
    destruct (demo_mode self).
    + inversion E; subst. now apply slice_to_length.
    + destruct Hpath as [Hd | [content ->]]; [discriminate|].
      simpl in E. inversion E; subst. now apply slice_to_length.
Qed.

Lemma fallback_queries_are_not_cut_to_count_witness :
  generate_search_queries live_agent (Raise "rate limit") "rust" 2 =
    Return ["rust"; "rust latest news"; "rust applications"] /\
  (Z.of_nat
     (List.length ["rust"; "rust latest developments"]) <= 2)%Z.
Proof.
  destruct fallback_queries_are_not_cut_to_count as (_ & _ & Hfb & Hcut).
  split.
  - apply Hfb. reflexivity.
  - apply (Hcut demo_agent (Raise "no client") "rust" 2%Z).
    + left. reflexivity.
    + reflexivity.
    + discriminate.
Defined.

End QueryPlanner.

(** ** The insights of the offline analyzer *)

Section Insights.

Import AnalyzerAgent.

Lemma join_nonempty sep x l : x <> "" -> join sep (x :: l) <> "".
Proof.
  intros Hx. destruct l; simpl; [assumption | now apply append_nonempty_l].
Qed.

Lemma first_sentence_nonempty snippet : first_sentence snippet <> "".
Proof. unfold first_sentence. now apply append_nonempty_r. Qed.

Lemma bullet_nonempty s : bullet +++ s <> "".
Proof. now apply append_nonempty_l. Qed.

(** The head of the long sentences is the first long piece. *)
Lemma long_sentences_head snippet :
  match long_sentences snippet with
  | s0 :: _ => [bullet +++ s0]
  | [] => []
  end = finding_of (more_than 30) {| title := ""; url := ""; snippet := snippet |}.
Proof.
  unfold long_sentences, finding_of, more_than. simpl.
  induction (split_char dot snippet) as [|s l IH]; simpl; [reflexivity|].
  destruct (30 <? len (strip s)); simpl; [reflexivity | exact IH].
Qed.

Lemma finding_of_snippet qualifies r :
  finding_of qualifies r =
  finding_of qualifies {| title := ""; url := ""; snippet := snippet r |}.
Proof. reflexivity. Qed.

Lemma collect_findings_flat_map results :
  forall key_findings,
    collect_findings results key_findings =
    key_findings ++ flat_map (finding_of (more_than 30)) results.
Proof.
  induction results as [|r rest IH]; intros acc; simpl.
  - now rewrite app_nil_r.
  - rewrite (finding_of_snippet _ r), <- long_sentences_head.
    destruct (long_sentences (snippet r)) as [|s0 ss]; rewrite IH.
    + reflexivity.
    + now rewrite <- app_assoc.
Qed.

Lemma findings_of_nonempty qualifies results x l :
  findings_of qualifies results = x :: l -> x <> "".
Proof.
  unfold findings_of. induction (firstn 4 results) as [|r rest IH]; simpl.
  - discriminate.
  - unfold finding_of at 1.
    destruct (find _ _); simpl.
    + intros H. inversion H. apply bullet_nonempty.
    + exact IH.
Qed.

(** The findings of the offline branch are those of the specification with
    the test "longer than 30 characters". *)
Lemma demo_insights_key_findings topic results :
  key_findings (demo_insights topic results) =
  key_findings_text (more_than 30) results.
Proof.
  unfold demo_insights, key_findings_text. simpl.
  rewrite collect_findings_flat_map. simpl.
  rewrite slice_to_nonneg by discriminate.
  change (Z.to_nat 4) with 4.
  fold (findings_of (more_than 30) results).
  destruct (findings_of (more_than 30) results) as [|x l] eqn:E.
  - reflexivity.
  - apply findings_of_nonempty in E.
    pose proof (join_nonempty (String SearchAgent.newline "") x l E) as Hj.
    apply truthy_true_iff in Hj. now rewrite Hj.
Qed.

Lemma demo_insights_nonempty topic results :
  overview (demo_insights topic results) <> "" /\
  key_findings (demo_insights topic results) <> "" /\
  implications (demo_insights topic results) <> "".
Proof.
  split; [|split].
  - unfold demo_insights. simpl.
    destruct (truthy (join " " _)) eqn:T.
    + now apply truthy_true_iff.
    + discriminate.
  - unfold demo_insights. simpl.
    destruct (truthy (join _ _)) eqn:T.
    + now apply truthy_true_iff.
    + discriminate.
  - unfold demo_insights. simpl. discriminate.
Qed.

(** With a result at hand the overview is extracted text, never the
    fallback. *)
Lemma demo_insights_overview_extracted topic r results :
  overview (demo_insights topic (r :: results)) =
  join " " (map (fun result => first_sentence (snippet result))
                (firstn 3 (r :: results))).
Proof.
  unfold demo_insights. cbn [overview].
  rewrite slice_to_nonneg by discriminate. change (Z.to_nat 3) with 3.
  cbn [firstn map].
  match goal with
  | |- (if truthy ?j then _ else _) = _ =>
      assert (Hj : truthy j = true)
        by (apply truthy_true_iff, join_nonempty, first_sentence_nonempty);
      now rewrite Hj
  end.
Qed.

(** C8.  In demo mode the synthesis returns, for every topic and every list
    of results, insights whose three fields are non-empty; where nothing is
    extracted the generic texts are used: the generic overview for the
    empty list of results, the generic findings when no result has a
    finding. *)
Theorem demo_synthesis_fields_nonempty :
  forall (fuel : nat) (self : t) (llm : nat -> outcome string) (call : nat)
         (topic content : string) (results : list SearchResult),
    demo_mode self = true ->
    exists insights,
      _synthesize_insights (S fuel) self llm call topic content results =
        Some insights /\
      overview insights <> "" /\
      key_findings insights <> "" /\
      implications insights <> "" /\
      (results = [] ->
       overview insights =
         "Research on " +++ topic +++
         " reveals multiple important aspects and developments.") /\
      (findings_of (more_than 30) results = [] ->
       key_findings insights =
         "Various perspectives and applications identified in the research.").
Proof.
  intros fuel self llm call topic content results Hd.
  exists (demo_insights topic results).
  split; [simpl; now rewrite Hd|].
  destruct (demo_insights_nonempty topic results) as (Ho & Hk & Hi).
  repeat (split; [assumption|]).
  split.
  - intros ->. reflexivity.
  - intros H. rewrite demo_insights_key_findings.
    unfold key_findings_text. now rewrite H.
Qed.

Lemma demo_synthesis_fields_nonempty_witness :
  exists insights,
    _synthesize_insights 1 {| demo_mode := true |} (fun _ => Raise "no client")
      0 "rust" "" [] = Some insights /\
    overview insights =
      "Research on rust reveals multiple important aspects and developments." /\
    key_findings insights <> "" /\ implications insights <> "".
Proof.
  destruct (demo_synthesis_fields_nonempty 0 {| demo_mode := true |}
              (fun _ => Raise "no client") 0 "rust" "" [] eq_refl)
    as (insights & E & _ & Hk & Hi & Hfb & _).
  exists insights. split; [exact E|].
  split; [exact (Hfb eq_refl)|]. now split.
Defined.

(** C9, as stated, fails: a sentence of exactly 30 characters does not
    qualify, so this result yields the generic text and not a bullet. *)
Lemma sentence_of_thirty_characters_is_no_finding :
  let results :=
    [{| title := "t"; url := "u";
        snippet := "Exactly thirty characters here." |}] in
  len "Exactly thirty characters here" = 30 /\
  key_findings_text (at_least 30) results =
    bullet +++ "Exactly thirty characters here." /\
  key_findings (demo_insights "rust" results) =
    "Various perspectives and applications identified in the research." /\
  key_findings (demo_insights "rust" results) <>
    key_findings_text (at_least 30) results.
Proof.
  intros results. subst results.
  split; [reflexivity|]. split; [reflexivity|]. split; [reflexivity|].
  vm_compute. discriminate.
Qed.

(** C9, amended.  In demo mode the findings are the bullets, one per line,
    of the first sentence longer than 30 characters of each of the first
    four results that has one; results without such a sentence give
    nothing, and when there is no bullet the generic text is used. *)
Theorem demo_key_findings_bullets :
  forall (fuel : nat) (self : t) (llm : nat -> outcome string) (call : nat)
         (topic content : string) (results : list SearchResult),
    demo_mode self = true ->
    exists insights,
      _synthesize_insights (S fuel) self llm call topic content results =
        Some insights /\
      key_findings insights = key_findings_text (more_than 30) results.
Proof.
  intros fuel self llm call topic content results Hd.
  exists (demo_insights topic results). split.
  - simpl. now rewrite Hd.
  - exact (demo_insights_key_findings topic results).
Qed.

Lemma demo_key_findings_bullets_witness :
  exists insights,
    _synthesize_insights 1 {| demo_mode := true |} (fun _ => Raise "no client")
      0 "rust" ""
      [{| title := "t"; url := "u"; snippet := "Short. Ownership makes memory safety a compile-time property. More." |};
       {| title := "t2"; url := "u2"; snippet := "Too short. Also short." |}]
      = Some insights /\
    key_findings insights =
      bullet +++ "Ownership makes memory safety a compile-time property.".
Proof.
  destruct (demo_key_findings_bullets 0 {| demo_mode := true |}
              (fun _ => Raise "no client") 0 "rust" ""
              [{| title := "t"; url := "u"; snippet := "Short. Ownership makes memory safety a compile-time property. More." |};
               {| title := "t2"; url := "u2"; snippet := "Too short. Also short." |}]
              eq_refl)
    as (insights & E & Hk).
  exists insights. split; [exact E|]. rewrite Hk. reflexivity.
Defined.

End Insights.

(** ** The key points of an analysis *)

Section KeyPoints.

Import AnalyzerAgent.

Lemma extract_key_points_length text max_points :
  (0 <= max_points)%Z ->
  (Z.of_nat (List.length (TextProcessor.extract_key_points text max_points))
   <= max_points)%Z.
Proof.
  intros Hm. unfold TextProcessor.extract_key_points.
  rewrite length_map. now apply slice_to_length.
Qed.

Lemma collect_key_points_flat_map results :
  forall key_points,
    collect_key_points results key_points =
    key_points ++
    flat_map (fun r => TextProcessor.extract_key_points (snippet r) 2) results.
Proof.
  induction results as [|r rest IH]; intros acc; simpl.
  - now rewrite app_nil_r.
  - rewrite IH. now rewrite <- app_assoc.
Qed.

Lemma flat_map_length_bound {A B} (f : A -> list B) (k : nat) (l : list A) :
  (forall x, List.length (f x) <= k) ->
  List.length (flat_map f l) <= k * List.length l.
Proof.
  intros Hf. induction l as [|x l IH]; simpl; [lia|].
  rewrite length_app. specialize (Hf x). lia.
Qed.

Lemma key_points_of_length results : List.length (key_points_of results) <= 10.
Proof.
  unfold key_points_of.
  etransitivity.
  - apply (flat_map_length_bound _ 2). intros r.
    pose proof (extract_key_points_length (snippet r) 2). lia.
  - rewrite length_firstn. lia.
Qed.

(** A live analyzer returns as soon as one call of the model succeeds. *)
Lemma synthesis_returns_after_reply fuel self llm topic results :
  forall call content k reply,
    k < fuel ->
    llm (call + k) = Return reply ->
    exists insights,
      _synthesize_insights fuel self llm call topic content results =
        Some insights.
Proof.
  induction fuel as [|fuel IH]; intros call content k reply Hk Hr; [lia|].
  simpl. destruct (demo_mode self) eqn:Hd; [eexists; reflexivity|].
  destruct (llm call) as [r|e] eqn:E; [eexists; reflexivity|].
  simpl. destruct k as [|k].
  - rewrite Nat.add_0_r in Hr. congruence.
  - apply (IH (S call) _ k reply); [lia|].
    now rewrite <- Nat.add_succ_comm in Hr.
Qed.

(** C10.  Whatever the mode, an analysis that is returned holds the key
    points of the first five results only, at most two from each, hence at
    most ten; in demo mode, and in live mode as soon as a call of the model
    succeeds within the allowed nesting, the analysis is returned. *)
Theorem analyze_sources_at_most_ten_key_points :
  forall (fuel : nat) (self : t) (llm : nat -> outcome string)
         (search_data : SearchData),
    (forall analysis,
        analyze_sources fuel self llm search_data = Some analysis ->
        an_key_points analysis = key_points_of (sd_results search_data) /\
        List.length (an_key_points analysis) <= 10 /\
        Forall (fun r =>
                  List.length (TextProcessor.extract_key_points (snippet r) 2) <= 2)
               (sd_results search_data)) /\
    (demo_mode self = true /\ 0 < fuel \/
     (exists k reply, k < fuel /\ llm k = Return reply) ->
     exists analysis,
       analyze_sources fuel self llm search_data = Some analysis /\
       List.length (an_key_points analysis) <= 10).
Proof.
  intros fuel self llm search_data.
  assert (Hkp : forall analysis,
             analyze_sources fuel self llm search_data = Some analysis ->
             an_key_points analysis = key_points_of (sd_results search_data)).
  { intros analysis. unfold analyze_sources.
    destruct (_synthesize_insights _ _ _ _ _ _ _) as [insights|]; [|discriminate].
    intros H. inversion H; subst; clear H. simpl.
    rewrite collect_key_points_flat_map. simpl.
    now rewrite slice_to_nonneg by discriminate. }
  split.
  - intros analysis H. rewrite (Hkp analysis H).
    split; [reflexivity|]. split; [apply key_points_of_length|].
    apply Forall_forall. intros r _.
    pose proof (extract_key_points_length (snippet r) 2). lia.
  - intros Hret.
    assert (exists insights,
               _synthesize_insights fuel self llm 0 (sd_topic search_data)
                 (join " " (map snippet (sd_results search_data)))
                 (sd_results search_data) = Some insights) as [insights Hi].
    { destruct Hret as [[Hd Hf] | (k & reply & Hk & Hr)].
      - destruct fuel as [|fuel]; [lia|]. simpl. rewrite Hd. now eexists.
      - now apply (synthesis_returns_after_reply fuel self llm _ _ 0 _ k reply). }
    eexists. split.
    + unfold analyze_sources. rewrite Hi. reflexivity.
    + simpl. rewrite collect_key_points_flat_map. simpl.
      rewrite slice_to_nonneg by discriminate. apply key_points_of_length.
Qed.

Lemma analyze_sources_at_most_ten_key_points_witness :
  exists analysis,
    analyze_sources 1 {| demo_mode := true |} (fun _ => Raise "no client")
      {| sd_topic := "climate change";
         sd_queries := ["climate change"];
         sd_results := DemoData.results_climate_change;
         sd_total_sources := 3 |} = Some analysis /\
    List.length (an_key_points analysis) <= 10.
Proof.
  destruct (analyze_sources_at_most_ten_key_points 1 {| demo_mode := true |}
              (fun _ => Raise "no client")
              {| sd_topic := "climate change";
                 sd_queries := ["climate change"];
                 sd_results := DemoData.results_climate_change;
                 sd_total_sources := 3 |}) as [Hall Hret].
  destruct Hret as (analysis & E & _); [left; split; [reflexivity | lia]|].
  exists analysis. split; [exact E|].
  destruct (Hall analysis E) as (_ & Hlen & _). exact Hlen.
Defined.

End KeyPoints.

(** ** The stable descending sort *)

Section StableSort.

Import TextProcessor.

Context {A K : Type} (key : A -> K) (lt : K -> K -> bool).

Lemma insert_desc_perm x l : Permutation (insert_desc key lt x l) (x :: l).
Proof.
  induction l as [|y r IH]; simpl; [reflexivity|].
  destruct (lt (key x) (key y)); [|reflexivity].
  rewrite IH. apply perm_swap.
Qed.

Lemma sort_desc_perm l : Permutation (sort_desc key lt l) l.
Proof.
  induction l as [|x r IH]; simpl; [reflexivity|].
  rewrite insert_desc_perm. now constructor.
Qed.

Lemma sort_desc_length l : List.length (sort_desc key lt l) = List.length l.
Proof. apply Permutation_length, sort_desc_perm. Qed.

Lemma sort_desc_In l x : In x (sort_desc key lt l) <-> In x l.
Proof.
  split; apply Permutation_in; [|symmetry]; apply sort_desc_perm.
Qed.

Section Sortedness.

Hypothesis lt_asym : forall a b, lt a b = true -> lt b a = false.

Lemma insert_desc_sorted x l :
  Sorted (not_below key lt) l -> Sorted (not_below key lt) (insert_desc key lt x l).
Proof.
  induction l as [|y r IH]; intros Hs; simpl.
  - repeat constructor.
  - destruct (lt (key x) (key y)) eqn:E.
    + inversion Hs as [|? ? Hr Hhd]; subst.
      constructor; [now apply IH|].
      destruct r as [|z r]; simpl.
      * constructor. now apply lt_asym.
      * destruct (lt (key x) (key z)) eqn:E'.
        -- inversion Hhd; subst. now constructor.
        -- constructor. now apply lt_asym.
    + constructor; [assumption|]. now constructor.
Qed.

(** No element of the result is followed by one with a greater key. *)
Lemma sort_desc_sorted l : Sorted (not_below key lt) (sort_desc key lt l).
Proof.
  induction l as [|x r IH]; simpl; [constructor|].
  now apply insert_desc_sorted.
Qed.

End Sortedness.

(** Elements of one class of keys keep their order, when no key of the class
    is strictly below another one. *)
Lemma insert_desc_filter (p : A -> bool) x l :
  (forall y, In y l -> lt (key x) (key y) = true -> p x = true -> p y = false) ->
  filter p (insert_desc key lt x l) = filter p (x :: l).
Proof.
  induction l as [|y r IH]; intros Hp; [reflexivity|].
  simpl. destruct (lt (key x) (key y)) eqn:E; [|reflexivity].
  simpl. rewrite IH by (intros z Hz; apply Hp; now right).
  pose proof (Hp y (or_introl eq_refl) E) as Hy.
  simpl. destruct (p x); [|reflexivity].
  now rewrite Hy.
Qed.

Lemma sort_desc_stable (p : A -> bool) l :
  (forall x y, lt (key x) (key y) = true -> p x = true -> p y = false) ->
  filter p (sort_desc key lt l) = filter p l.
Proof.
  intros Hp. induction l as [|x r IH]; [reflexivity|].
  simpl sort_desc. rewrite insert_desc_filter by (intros y _; apply Hp).
  simpl. now rewrite IH.
Qed.

End StableSort.

(** ** Keywords *)

Section Keywords.

Import TextProcessor.

Lemma append_empty_r s : s +++ "" = s.
Proof. induction s; simpl; congruence. Qed.

Lemma append_assoc3 s t u : (s +++ t) +++ u = s +++ t +++ u.
Proof. induction s; simpl; congruence. Qed.

Lemma prefix_append w post : String.prefix w (w +++ post) = true.
Proof.
  induction w as [|c w IH]; simpl; [now destruct post|].
  destruct (Ascii.ascii_dec c c); [assumption | congruence].
Qed.

Lemma prefix_contains w s : String.prefix w s = true -> contains w s = true.
Proof.
  intros H. destruct s; cbn [contains]; now rewrite H.
Qed.

Lemma occurs_in_contains w s : occurs_in w s -> contains w s = true.
Proof.
  intros (pre & post & ->). induction pre as [|c pre IH].
  - apply prefix_contains. exact (prefix_append w post).
  - simpl. rewrite IH. apply orb_true_r.
Qed.

(** Every run is a piece of the text that was read. *)
Lemma runs_occur p s :
  forall cur w, In w (runs p s cur) -> occurs_in w (cur +++ s).
Proof.
  induction s as [|c r IH]; intros cur w; simpl.
  - destruct (truthy cur); [|contradiction].
    intros [<-|[]]. exists "", "". now rewrite !append_empty_r.
  - destruct (p c).
    + intros H. apply IH in H. destruct H as (pre & post & E).
      exists pre, post. rewrite <- E. now rewrite append_assoc3.
    + assert (Hrest : In w (runs p r "") -> occurs_in w (cur +++ String c r)).
      { intros H. apply IH in H. destruct H as (pre & post & E).
        simpl in E. exists (cur +++ String c pre), post.
        rewrite append_assoc3. simpl. now rewrite E. }
      destruct (truthy cur); [|exact Hrest].
      intros [<-|H]; [|now apply Hrest].
      exists "", (String c r). reflexivity.
Qed.

Lemma findall_words_spec s w :
  In w (findall_words s) ->
  all_chars is_lower w = true /\ 4 <= len w /\ contains w s = true.
Proof.
  unfold findall_words. intros H. apply filter_In in H.
  destruct H as [Hrun Hok]. apply andb_true_iff in Hok.
  destruct Hok as [Hl Hn]. apply Nat.leb_le in Hn.
  repeat split; try assumption.
  apply occurs_in_contains. exact (runs_occur is_word_char s "" w Hrun).
Qed.

(** *** The order of first occurrence *)

Lemma first_seen_In l x : In x (first_seen l) <-> In x l.
Proof.
  induction l as [|y r IH]; simpl; [reflexivity|].
  rewrite filter_In, IH. split.
  - tauto.
  - intros [->|H]; [now left|].
    destruct (String.eqb_spec y x); [now left|]. right. auto.
Qed.

Lemma first_seen_NoDup l : NoDup (first_seen l).
Proof.
  induction l as [|y r IH]; simpl; constructor.
  - rewrite filter_In. intros [_ H]. now rewrite String.eqb_refl in H.
  - now apply NoDup_filter.
Qed.

Lemma mem_In w l : mem w l = true <-> In w l.
Proof.
  unfold mem. rewrite existsb_exists. split.
  - intros (x & Hx & E). apply String.eqb_eq in E. now subst.
  - intros H. exists w. split; [assumption | apply String.eqb_refl].
Qed.

Lemma first_seen_snoc l w :
  first_seen (l ++ [w]) = first_seen l ++ (if mem w l then [] else [w]).
Proof.
  induction l as [|y r IH]; simpl; [reflexivity|].
  rewrite IH, filter_app. f_equal. f_equal.
  unfold mem in *. simpl. rewrite (String.eqb_sym w y).
  destruct (String.eqb y w) eqn:E; simpl.
  - destruct (existsb _ r); simpl; [reflexivity|]. now rewrite E.
  - destruct (existsb _ r); simpl; [reflexivity|]. now rewrite E.
Qed.

Lemma occurrences_snoc pre w x :
  occurrences (pre ++ [w]) x =
  (occurrences pre x + (if String.eqb x w then 1 else 0))%Z.
Proof.
  unfold occurrences. rewrite count_occ_app. simpl.
  destruct (string_dec w x) as [->|Hne].
  - rewrite String.eqb_refl. lia.
  - destruct (String.eqb_spec x w); [congruence | lia].
Qed.

(** *** The counting loop *)

Lemma get_map_In (f : string -> Z) l w :
  In w l -> get (map (fun x => (x, f x)) l) w = Some (f w).
Proof.
  induction l as [|y r IH]; simpl; [contradiction|].
  destruct (String.eqb_spec y w) as [->|Hne]; [reflexivity|].
  intros [H|H]; [congruence | auto].
Qed.

Lemma get_map_not_In (f : string -> Z) l w :
  ~ In w l -> get (map (fun x => (x, f x)) l) w = None.
Proof.
  induction l as [|y r IH]; simpl; [reflexivity|].
  intros H. destruct (String.eqb_spec y w) as [->|Hne]; [tauto|].
  apply IH. tauto.
Qed.

Lemma setitem_map_not_In (f : string -> Z) l w v :
  ~ In w l ->
  setitem (map (fun x => (x, f x)) l) w v = map (fun x => (x, f x)) l ++ [(w, v)].
Proof.
  induction l as [|y r IH]; simpl; [reflexivity|].
  intros H. destruct (String.eqb_spec y w) as [->|Hne]; [tauto|].
  rewrite IH by tauto. reflexivity.
Qed.

Lemma setitem_map_In (f g : string -> Z) l w :
  NoDup l -> In w l ->
  (forall x, x <> w -> g x = f x) ->
  setitem (map (fun x => (x, f x)) l) w (g w) = map (fun x => (x, g x)) l.
Proof.
  intros Hnd Hin Hg. induction l as [|y r IH]; simpl; [contradiction|].
  inversion Hnd as [|? ? Hy Hr]; subst.
  destruct (String.eqb_spec y w) as [->|Hne].
  - f_equal. apply map_ext_in. intros x Hx.
    rewrite Hg; [reflexivity|]. intros ->. contradiction.
  - rewrite (Hg y Hne). f_equal. apply IH; [assumption|].
    destruct Hin; [congruence | assumption].
Qed.

(** One pass of the loop on the table of the words read so far gives the
    table with the new word counted. *)
Lemma count_step pre w :
  setitem (frequency_table pre) w
    (match get (frequency_table pre) w with Some n => n | None => 0 end + 1)%Z =
  frequency_table (pre ++ [w]).
Proof.
  unfold frequency_table. rewrite first_seen_snoc.
  destruct (mem w pre) eqn:M.
  - apply mem_In in M. rewrite app_nil_r.
    assert (Hw : In w (first_seen pre)) by now apply first_seen_In.
    rewrite (get_map_In _ _ _ Hw).
    replace (occurrences pre w + 1)%Z with (occurrences (pre ++ [w]) w)
      by (rewrite occurrences_snoc, String.eqb_refl; reflexivity).
    apply setitem_map_In; [apply first_seen_NoDup | assumption |].
    intros x Hx. rewrite occurrences_snoc.
    destruct (String.eqb_spec x w); [contradiction | lia].
  - assert (Hw : ~ In w pre).
    { intros H. apply mem_In in H. congruence. }
    assert (Hw' : ~ In w (first_seen pre)) by now rewrite first_seen_In.
    rewrite (get_map_not_In _ _ _ Hw'), (setitem_map_not_In _ _ _ _ Hw').
    rewrite map_app. simpl. f_equal.
    + apply map_ext_in. intros x Hx. rewrite occurrences_snoc.
      destruct (String.eqb_spec x w) as [->|]; [contradiction|].
      f_equal. lia.
    + rewrite occurrences_snoc, String.eqb_refl. do 3 f_equal.
      unfold occurrences. rewrite (proj1 (count_occ_not_In _ _ _) Hw). reflexivity.
Qed.

Lemma count_word_step pre w :
  count_word (frequency_table pre) w =
  if negb (mem w stop_words) then frequency_table (pre ++ [w])
  else frequency_table pre.
Proof.
  unfold count_word.
  destruct (negb (mem w stop_words)); [apply count_step | reflexivity].
Qed.

Lemma count_loop words :
  forall pre,
    fold_left count_word words (frequency_table pre) =
    frequency_table
      (pre ++ filter (fun w => negb (mem w stop_words)) words).
Proof.
  induction words as [|w r IH]; intros pre; cbn [fold_left filter].
  - now rewrite app_nil_r.
  - rewrite count_word_step.
    destruct (negb (mem w stop_words)).
    + rewrite IH, <- app_assoc. reflexivity.
    + apply IH.
Qed.

(** The dictionary built by the loop is the frequency table of the counted
    words. *)
Lemma word_freq_table text :
  fold_left count_word (findall_words (lower text)) [] =
  frequency_table (counted_words text).
Proof. exact (count_loop (findall_words (lower text)) []). Qed.

Lemma Sorted_impl {T} (R R' : T -> T -> Prop) l :
  (forall a b, R a b -> R' a b) -> Sorted R l -> Sorted R' l.
Proof.
  intros HR. induction 1 as [|a l Hs IH Hhd]; constructor; [assumption|].
  destruct Hhd; constructor; auto.
Qed.

Lemma ranking_sorted (table : dict Z) :
  StronglySorted (fun a b => (snd b <= snd a)%Z) (sort_desc snd Z.ltb table).
Proof.
  apply Sorted_StronglySorted.
  - intros a b c Hab Hbc. lia.
  - apply (Sorted_impl (not_below snd Z.ltb)).
    + unfold not_below. intros a b H. apply Z.ltb_ge in H. exact H.
    + apply sort_desc_sorted. intros a b H.
      apply Z.ltb_lt in H. apply Z.ltb_ge. lia.
Qed.

Lemma ranking_stable (table : dict Z) n :
  filter (fun e => (snd e =? n)%Z) (sort_desc snd Z.ltb table) =
  filter (fun e => (snd e =? n)%Z) table.
Proof.
  apply sort_desc_stable. intros x y Hlt Hx.
  apply Z.ltb_lt in Hlt. apply Z.eqb_eq in Hx. apply Z.eqb_neq. lia.
Qed.

(** A negative [top_n] is outside the contract: the slice then cuts the
    ranking from its end. *)
Example extract_keywords_negative_top_n :
  extract_keywords "alpha beta gamma beta" (-1) = ["beta"; "alpha"].
Proof. reflexivity. Qed.

(** C6.  The keywords are the first words of a ranking cut by the slice
    [[:top_n]], hence at most [top_n] of them for every [top_n] that is
    not negative.  The ranking lists every distinct counted word once with
    its number of occurrences, in descending order of that number, and
    words with the same number stand in the order in which they are first
    met in the text.  Every keyword is a token of the lowercased text made
    of at least four letters [a-z], and none is a stop word. *)
Theorem extract_keywords_ranking :
  forall (text : string) (top_n : Z),
    exists ranking : list (string * Z),
      extract_keywords text top_n = map fst (slice_to top_n ranking) /\
      Permutation ranking (frequency_table (counted_words text)) /\
      StronglySorted (fun a b => (snd b <= snd a)%Z) ranking /\
      (forall n : Z,
          filter (fun e => (snd e =? n)%Z) ranking =
          filter (fun e => (snd e =? n)%Z)
                 (frequency_table (counted_words text))) /\
      ((0 <= top_n)%Z ->
       (Z.of_nat (List.length (extract_keywords text top_n)) <= top_n)%Z) /\
      (forall w, In w (extract_keywords text top_n) ->
          In w (findall_words (lower text)) /\
          all_chars is_lower w = true /\
          4 <= len w /\
          contains w (lower text) = true /\
          mem w stop_words = false).
Proof.
  intros text top_n.
  exists (sort_desc snd Z.ltb (frequency_table (counted_words text))).
  unfold extract_keywords. rewrite word_freq_table.
  split; [reflexivity|].
  split; [apply sort_desc_perm|].
  split; [apply ranking_sorted|].
  split; [apply ranking_stable|].
  split.
  - intros Hn. rewrite length_map. now apply slice_to_length.
  - intros w Hw. apply in_map_iff in Hw. destruct Hw as ([w' n] & <- & Hin).
    apply slice_to_In, sort_desc_In in Hin.
    unfold frequency_table in Hin. apply in_map_iff in Hin.
    destruct Hin as (x & E & Hx). inversion E; subst; clear E. simpl.
    apply (proj1 (first_seen_In _ _)) in Hx. unfold counted_words in Hx.
    apply filter_In in Hx. destruct Hx as [Hfind Hstop].
    apply negb_true_iff in Hstop.
    destruct (findall_words_spec _ _ Hfind) as (Hl & Hn & Hc).
    auto.
Qed.

Lemma extract_keywords_ranking_witness :
  let text := "Data beats opinions; data that is clean beats data" in
  extract_keywords text 2 = ["data"; "beats"] /\
  (Z.of_nat (List.length (extract_keywords text 2)) <= 2)%Z /\
  4 <= len "data" /\ mem "data" stop_words = false.
Proof.
  intros text.
  destruct (extract_keywords_ranking text 2)
    as (ranking & _ & _ & _ & _ & Hlen & Hword).
  split; [reflexivity|]. split; [apply Hlen; discriminate|].
  destruct (Hword "data") as (_ & _ & H4 & _ & Hstop).
  - left. reflexivity.
  - split; assumption.
Defined.

(** The ranking on a small text: [learning] occurs three times; [machine]
    and [data] occur twice and stand in the order in which they are first
    met; [that] and [with] are stop words; [data_set] and [abcd1] are no
    tokens. *)
Example extract_keywords_small_text :
  extract_keywords
    "Machine learning is machine-learning that with data_set abcd1 Data data learning; zeta"
    10 = ["learning"; "machine"; "data"; "zeta"].
Proof. reflexivity. Qed.

End Keywords.

(** ** The order of the floating-point scores *)

Section FloatOrder.

Lemma SFcompare_rank a b :
  is_number a -> is_number b ->
  match SFcompare a b with
  | Some Lt => rank_lt (sf_rank a) (sf_rank b)
  | Some Gt => rank_lt (sf_rank b) (sf_rank a)
  | Some Eq => sf_rank a = sf_rank b
  | None => False
  end.
Proof.
  unfold is_number.
  destruct a as [sa|sa| |sa ma ea], b as [sb|sb| |sb mb eb];
    try congruence; intros _ _; simpl;
    try destruct sa; try destruct sb; simpl; try lia; try reflexivity.
  - destruct (Z.compare_spec ea eb); simpl; try lia.
    subst. rewrite Pos.compare_cont_spec. simpl.
    destruct (Pos.compare_spec ma mb); simpl; try lia. now subst.
  - destruct (Z.compare_spec ea eb); simpl; try lia.
    subst. rewrite Pos.compare_cont_spec. simpl.
    destruct (Pos.compare_spec ma mb); simpl; try lia. now subst.
Qed.

Lemma SFcompare_number a b c : SFcompare a b = Some c -> is_number a /\ is_number b.
Proof.
  unfold is_number.
  destruct a, b; simpl; try discriminate; intros _; split; discriminate.
Qed.

Lemma rank_lt_irrefl r : ~ rank_lt r r.
Proof. destruct r as [[r1 r2] r3]. simpl. lia. Qed.

Lemma rank_lt_asym r s : rank_lt r s -> ~ rank_lt s r.
Proof. destruct r as [[r1 r2] r3], s as [[s1 s2] s3]. simpl. lia. Qed.

Lemma rank_lt_cotrans r s t : rank_lt r t -> rank_lt r s \/ rank_lt s t.
Proof.
  destruct r as [[r1 r2] r3], s as [[s1 s2] s3], t as [[t1 t2] t3]. simpl. lia.
Qed.

Lemma SFltb_rank a b : SFltb a b = true -> rank_lt (sf_rank a) (sf_rank b).
Proof.
  unfold SFltb. destruct (SFcompare a b) as [[]|] eqn:E; try discriminate.
  intros _. destruct (SFcompare_number _ _ _ E) as [Ha Hb].
  pose proof (SFcompare_rank a b Ha Hb) as H. now rewrite E in H.
Qed.

Lemma rank_SFltb a b :
  is_number a -> is_number b ->
  rank_lt (sf_rank a) (sf_rank b) -> SFltb a b = true.
Proof.
  intros Ha Hb Hlt. pose proof (SFcompare_rank a b Ha Hb) as H.
  unfold SFltb. destruct (SFcompare a b) as [[]|].
  - rewrite H in Hlt. now apply rank_lt_irrefl in Hlt.
  - reflexivity.
  - now apply rank_lt_asym in Hlt.
  - contradiction.
Qed.

Lemma SFeqb_rank a b :
  SFeqb a b = true -> is_number a /\ is_number b /\ sf_rank a = sf_rank b.
Proof.
  unfold SFeqb. destruct (SFcompare a b) as [[]|] eqn:E; try discriminate.
  intros _. destruct (SFcompare_number _ _ _ E) as [Ha Hb].
  pose proof (SFcompare_rank a b Ha Hb) as H. rewrite E in H. auto.
Qed.

(** [<] on floats is asymmetric. *)
Lemma float_ltb_asym (x y : float) :
  (x <? y)%float = true -> (y <? x)%float = false.
Proof.
  rewrite !FloatAxioms.ltb_spec. intros H. apply SFltb_rank in H.
  destruct (SFltb (Prim2SF y) (Prim2SF x)) eqn:E; [|reflexivity].
  apply SFltb_rank in E. now apply rank_lt_asym in E.
Qed.

(** Two floats equal to a third are not strictly ordered. *)
Lemma float_ltb_eqb (x y k : float) :
  (x <? y)%float = true -> (x =? k)%float = true -> (y =? k)%float = false.
Proof.
  rewrite FloatAxioms.ltb_spec, !FloatAxioms.eqb_spec. intros H Hx. apply SFltb_rank in H.
  apply SFeqb_rank in Hx. destruct Hx as (_ & _ & Hx).
  destruct (SFeqb (Prim2SF y) (Prim2SF k)) eqn:E; [|reflexivity].
  apply SFeqb_rank in E. destruct E as (_ & _ & Hy).
  rewrite Hx, <- Hy in H. now apply rank_lt_irrefl in H.
Qed.

Lemma float_number (x : float) :
  (x =? x)%float = true -> is_number (Prim2SF x).
Proof. rewrite FloatAxioms.eqb_spec. intros H. now apply SFeqb_rank in H. Qed.

(** On numbers, "not smaller than" is transitive. *)
Lemma float_not_below_trans (x y z : float) :
  (y =? y)%float = true ->
  (x <? y)%float = false -> (y <? z)%float = false -> (x <? z)%float = false.
Proof.
  intros Hy Hxy Hyz. apply float_number in Hy.
  destruct (x <? z)%float eqn:E; [|reflexivity].
  rewrite FloatAxioms.ltb_spec in *. pose proof E as Hxz.
  unfold SFltb in E.
  destruct (SFcompare (Prim2SF x) (Prim2SF z)) as [c|] eqn:C; [|discriminate].
  destruct (SFcompare_number _ _ _ C) as [Hx Hz].
  apply SFltb_rank in Hxz.
  destruct (rank_lt_cotrans _ (sf_rank (Prim2SF y)) _ Hxz) as [H|H].
  - apply rank_SFltb in H; [congruence | assumption | assumption].
  - apply rank_SFltb in H; [congruence | assumption | assumption].
Qed.

End FloatOrder.

(** ** The scores are numbers

    The operations on floats are specified on [spec_float]; rounding is
    followed far enough to see that no step of the scoring formula yields
    not-a-number when the lengths are below [2^53]. *)

Section FloatNumbers.

Import TextProcessor.

Open Scope Z_scope.

Lemma digits2_pos_size p : digits2_pos p = Pos.size p.
Proof. induction p; simpl; congruence. Qed.

Lemma Zdigits2_log2 p : Zdigits2 (Zpos p) = Z.log2 (Zpos p) + 1.
Proof.
  simpl. rewrite digits2_pos_size.
  destruct p; simpl; try reflexivity; now rewrite Pos.add_1_r.
Qed.

Lemma Zdigits2_nonneg m : 0 <= Zdigits2 m.
Proof. destruct m; simpl; lia. Qed.

Lemma Zdigits2_mono a b : 0 <= a <= b -> Zdigits2 a <= Zdigits2 b.
Proof.
  intros [Ha Hab]. destruct a as [|a|a]; [apply Zdigits2_nonneg | | lia].
  destruct b as [|b|b]; try lia.
  rewrite !Zdigits2_log2. apply Z.add_le_mono_r, Z.log2_le_mono. exact Hab.
Qed.

Lemma Zdigits2_bound m k : 0 <= k -> 0 <= m < 2 ^ k -> Zdigits2 m <= k.
Proof.
  intros Hk [Hm Hlt]. destruct m as [|p|p]; [exact Hk | | lia].
  rewrite Zdigits2_log2.
  assert (Z.log2 (Zpos p) < k) by (apply Z.log2_lt_pow2; lia). lia.
Qed.

Lemma Zdigits2_lt_pow2 m : 0 <= m -> m < 2 ^ Zdigits2 m.
Proof.
  intros Hm. destruct m as [|p|p]; [reflexivity | | lia].
  rewrite Zdigits2_log2. apply Z.log2_spec. lia.
Qed.

Lemma shr_1_bounds r : 0 <= shr_m r -> 0 <= shr_m (shr_1 r) <= shr_m r.
Proof.
  destruct r as [m rb sb]. simpl.
  destruct m as [|[p|p|]|p]; simpl; lia.
Qed.

Lemma iter_pos_invariant {A} (P : A -> Prop) (f : A -> A) :
  (forall x, P x -> P (f x)) -> forall n x, P x -> P (iter_pos f n x).
Proof.
  intros Hf. induction n as [n IH|n IH|]; intros x Hx; simpl; auto.
Qed.

Lemma shr_bounds r e n :
  0 <= shr_m r -> 0 <= shr_m (fst (shr r e n)) <= shr_m r.
Proof.
  intros Hr. unfold shr. destruct n as [|p|p]; simpl; try lia.
  apply (iter_pos_invariant (fun x => 0 <= shr_m x <= shr_m r)); [|lia].
  intros x Hx. pose proof (shr_1_bounds x). lia.
Qed.

Lemma shr_record_of_loc_m m l : shr_m (shr_record_of_loc m l) = m.
Proof. destruct l as [|[]]; reflexivity. Qed.

Lemma shr_fexp_bounds m e l :
  0 <= m -> 0 <= shr_m (fst (shr_fexp prec emax m e l)) <= m.
Proof.
  intros Hm. unfold shr_fexp.
  pose proof (shr_bounds (shr_record_of_loc m l) e
                (fexp prec emax (Zdigits2 m + e) - e)) as H.
  rewrite shr_record_of_loc_m in H. now apply H.
Qed.

Lemma shr_fexp_exp m e l :
  snd (shr_fexp prec emax m e l) = Z.max e (fexp prec emax (Zdigits2 m + e)).
Proof.
  unfold shr_fexp, shr.
  destruct (fexp prec emax (Zdigits2 m + e) - e) as [|p|p] eqn:E; simpl; lia.
Qed.

Lemma round_nearest_even_bounds m l :
  m <= round_nearest_even m l <= m + 1.
Proof.
  unfold round_nearest_even. destruct l as [|[]]; try lia.
  destruct (Z.even m); lia.
Qed.


Lemma sf_sign_is_number s x : sf_sign_is s x -> is_number x.
Proof. destruct x; simpl; try contradiction; discriminate. Qed.

Lemma sf_finite_number x : sf_finite x -> is_number x.
Proof. destruct x; simpl; try contradiction; discriminate. Qed.

(** Rounding a mantissa that is not negative gives a number of the given
    sign. *)
Lemma binary_round_aux_sign s m e l :
  0 <= m -> sf_sign_is s (binary_round_aux prec emax s m e l).
Proof.
  intros Hm. unfold binary_round_aux.
  pose proof (shr_fexp_bounds m e l Hm) as H1.
  destruct (shr_fexp prec emax m e l) as [mrs' e']. simpl in H1.
  pose proof (round_nearest_even_bounds (shr_m mrs') (loc_of_shr_record mrs')) as H2.
  set (m1 := round_nearest_even (shr_m mrs') (loc_of_shr_record mrs')) in *.
  assert (Hm1 : 0 <= m1) by lia.
  pose proof (shr_fexp_bounds m1 e' loc_Exact Hm1) as H3.
  destruct (shr_fexp prec emax m1 e' loc_Exact) as [mrs'' e'']. simpl in H3.
  destruct (shr_m mrs'') as [|p|p]; [exact eq_refl | | lia].
  destruct (e'' <=? emax - prec); exact eq_refl.
Qed.

(** No overflow: a mantissa of at most 128 digits with an exponent that is
    not positive rounds to a finite number. *)
Lemma binary_round_aux_finite s m e l :
  0 <= m -> Zdigits2 m <= 128 -> e <= 0 ->
  sf_finite (binary_round_aux prec emax s m e l).
Proof.
  intros Hm Hd He. unfold binary_round_aux.
  pose proof (shr_fexp_bounds m e l Hm) as H1.
  pose proof (shr_fexp_exp m e l) as E1.
  destruct (shr_fexp prec emax m e l) as [mrs' e']. simpl in H1, E1.
  pose proof (round_nearest_even_bounds (shr_m mrs') (loc_of_shr_record mrs')) as H2.
  set (m1 := round_nearest_even (shr_m mrs') (loc_of_shr_record mrs')) in *.
  assert (Hm1 : 0 <= m1) by lia.
  pose proof (shr_fexp_bounds m1 e' loc_Exact Hm1) as H3.
  pose proof (shr_fexp_exp m1 e' loc_Exact) as E3.
  destruct (shr_fexp prec emax m1 e' loc_Exact) as [mrs'' e'']. simpl in H3, E3.
  assert (Hd1 : Zdigits2 m1 <= 129).
  { apply Zdigits2_bound; [lia|]. split; [assumption|].
    pose proof (Zdigits2_lt_pow2 m Hm) as Hlt.
    assert (2 ^ Zdigits2 m <= 2 ^ 128)
      by (apply Z.pow_le_mono_r; [lia | assumption]).
    change (2 ^ 129) with (2 * 2 ^ 128). lia. }
  pose proof (Zdigits2_nonneg m) as Hn. pose proof (Zdigits2_nonneg m1) as Hn1.
  assert (He'' : e'' <= emax - prec).
  { subst e' e''. unfold fexp, emin, prec, emax in *. lia. }
  destruct (shr_m mrs'') as [|p|p]; [exact I | | lia].
  apply Z.leb_le in He''. rewrite He''. exact I.
Qed.

(** A mantissa of exactly 53 digits is kept as it is. *)
Lemma binary_round_aux_exact s p e :
  Zdigits2 (Zpos p) = 53 -> -1074 <= e <= 971 ->
  binary_round_aux prec emax s (Zpos p) e loc_Exact = S754_finite s p e.
Proof.
  intros Hd He. unfold binary_round_aux, shr_fexp.
  assert (Hf : fexp prec emax (Zdigits2 (Zpos p) + e) - e = 0).
  { rewrite Hd. unfold fexp, emin, prec, emax. lia. }
  rewrite Hf. simpl shr. cbn [shr_m loc_of_shr_record round_nearest_even fst snd shr_record_of_loc].
  rewrite Hf. cbn [shr fst snd shr_m shr_record_of_loc].
  assert (Hle : (e <=? emax - prec) = true)
    by (apply Z.leb_le; unfold emax, prec; lia).
  now rewrite Hle.
Qed.

Lemma Zpos_iter_xO p d : Zpos (Pos.iter xO p d) = Zpos p * 2 ^ Zpos d.
Proof.
  induction d as [|d IH] using Pos.peano_ind.
  - cbn. lia.
  - rewrite Pos.iter_succ, Pos2Z.inj_xO, IH, Pos2Z.inj_succ, Z.pow_succ_r by lia.
    ring.
Qed.

(** A positive integer below [2^53] converts to a finite positive float. *)
Lemma binary_round_small p :
  Zpos p < 2 ^ 53 ->
  exists m e, binary_round prec emax false p 0 = S754_finite false m e.
Proof.
  intros Hp. unfold binary_round.
  assert (Hd : 1 <= Zpos (digits2_pos p) <= 53).
  { change (Zpos (digits2_pos p)) with (Zdigits2 (Zpos p)). split.
    - rewrite Zdigits2_log2. pose proof (Z.log2_nonneg (Zpos p)). lia.
    - apply Zdigits2_bound; lia. }
  assert (Hf : fexp prec emax (Zpos (digits2_pos p) + 0) = Zpos (digits2_pos p) - 53)
    by (unfold fexp, emin, prec, emax; lia).
  rewrite Hf. unfold shl_align.
  destruct (Zpos (digits2_pos p) - 53 - 0) as [|k|k] eqn:E; [| lia |].
  - exists p, 0. apply binary_round_aux_exact; [|lia].
    change (Zdigits2 (Zpos p)) with (Zpos (digits2_pos p)). lia.
  - eexists _, _. apply binary_round_aux_exact; [|lia].
    rewrite Zdigits2_log2, Zpos_iter_xO, Z.log2_mul_pow2 by lia.
    change (Zpos (digits2_pos p)) with (Zdigits2 (Zpos p)) in E.
    rewrite Zdigits2_log2 in E. lia.
Qed.


Lemma binary_round_number s p e : sf_sign_is s (binary_round prec emax s p e).
Proof.
  unfold binary_round.
  destruct (shl_align p e (fexp prec emax (Zpos (digits2_pos p) + e))) as [mz ez].
  apply binary_round_aux_sign. lia.
Qed.

Lemma binary_normalize_number m e sz :
  is_number (binary_normalize prec emax m e sz).
Proof.
  destruct m as [|p|p]; simpl; [discriminate | |];
    exact (sf_sign_is_number _ _ (binary_round_number _ p e)).
Qed.

(** [float(n)] for [n] below [2^53] is zero or a finite positive number. *)
Lemma float_of_nat_spec n :
  Z.of_nat n < 2 ^ 53 ->
  n = 0%nat /\ Prim2SF (float_of_nat n) = S754_zero false \/
  (0 < n)%nat /\
  exists m e, Prim2SF (float_of_nat n) = S754_finite false m e.
Proof.
  intros Hn. unfold float_of_nat.
  rewrite FloatAxioms.of_uint63_spec, Uint63.of_Z_spec, Z.mod_small
    by (change wB with (2 ^ 63); lia).
  destruct n as [|n]; [left; split; reflexivity|]. right. split; [lia|].
  rewrite Nat2Z.inj_succ in *. unfold Z.succ in *.
  destruct (Z.of_nat n + 1) as [|p|p] eqn:E; try lia.
  simpl. now apply binary_round_small.
Qed.

(** The quotient of a number that is not negative by a finite positive one
    is a number that is not negative. *)
Lemma SF64div_sign x my ey :
  sf_sign_is false x -> sf_finite x ->
  sf_sign_is false (SF64div x (S754_finite false my ey)).
Proof.
  destruct x as [sx|sx| |sx mx ex]; simpl; try contradiction; intros -> _.
  - reflexivity.
  - unfold SF64div, SFdiv.
    destruct (SFdiv_core_binary prec emax (Zpos mx) ex (Zpos my) ey)
      as [[mz ez] lz] eqn:E.
    apply binary_round_aux_sign.
    unfold SFdiv_core_binary in E.
    match type of E with
    | (let '(q, r) := Z.div_eucl ?a ?b in _) = _ =>
        assert (Ha : 0 <= a);
        [| pose proof (Z.div_pos a b Ha eq_refl) as Hq;
           unfold Z.div in Hq; destruct (Z.div_eucl a b) as [q r];
           inversion E; subst; exact Hq ]
    end.
    destruct (ex - ey - _) as [|k|k]; try lia.
    apply Z.shiftl_nonneg. lia.
Qed.

Lemma SF64sub_number mx ex q :
  sf_sign_is false q -> is_number (SF64sub (S754_finite false mx ex) q).
Proof.
  destruct q as [sq|sq| |sq mq eq]; simpl; try contradiction; intros ->;
    unfold SF64sub, SFsub; try discriminate.
  apply binary_normalize_number.
Qed.

Lemma SF64mul_number x sc mc ec :
  is_number x -> is_number (SF64mul x (S754_finite sc mc ec)).
Proof.
  destruct x as [sx|sx| |sx mx ex]; unfold SF64mul, SFmul; intros H;
    try discriminate; [now contradiction H|].
  apply (sf_sign_is_number (xorb sx sc)), binary_round_aux_sign. lia.
Qed.

Lemma SF64add_number x y :
  is_number x -> sf_finite y -> is_number (SF64add x y).
Proof.
  destruct x as [sx|sx| |sx mx ex], y as [sy|sy| |sy my ey];
    simpl; try contradiction; intros H _;
    unfold SF64add, SFadd; try discriminate; try (now contradiction H).
  - destruct sx, sy; discriminate.
  - apply binary_normalize_number.
Qed.

Lemma valid_digits s m e :
  valid_binary (S754_finite s m e) = true -> Zpos m < 2 ^ 53.
Proof.
  simpl. unfold bounded, canonical_mantissa. intros H.
  apply andb_true_iff in H. destruct H as [H _]. apply Z.eqb_eq in H.
  pose proof (Zdigits2_lt_pow2 (Zpos m)) as Hlt. simpl Zdigits2 in Hlt.
  assert (Zpos (digits2_pos m) <= 53)
    by (unfold fexp, emin, prec, emax in H; lia).
  assert (2 ^ Zpos (digits2_pos m) <= 2 ^ 53)
    by (apply Z.pow_le_mono_r; lia).
  lia.
Qed.

(** The product of a valid number in [[0, 1]] by a valid positive constant
    with exponent [-54] is finite. *)
Lemma SF64mul_small x mc :
  valid_binary x = true ->
  sf_sign_is false x ->
  SFltb (Prim2SF 1) x = false ->
  Zpos mc < 2 ^ 53 ->
  sf_finite (SF64mul x (S754_finite false mc (-54))).
Proof.
  intros Hv Hs Hle Hmc.
  destruct x as [sx|sx| |sx mx ex]; simpl in Hs; try contradiction; subst.
  - exact I.
  - discriminate.
  - unfold SF64mul, SFmul. apply binary_round_aux_finite; [lia | |].
    + apply Zdigits2_bound; [lia|]. split; [lia|].
      apply valid_digits in Hv. rewrite Pos2Z.inj_mul.
      change (2 ^ 128) with (2 ^ 53 * (2 ^ 53 * 2 ^ 22)). nia.
    + assert (ex <= -52); [|lia].
      change (Prim2SF 1) with (S754_finite false 4503599627370496 (-52)) in Hle.
      unfold SFltb, SFcompare in Hle.
      destruct (Z.compare_spec (-52) ex); [lia | discriminate | lia].
Qed.

Lemma SFeqb_refl x : is_number x -> SFeqb x x = true.
Proof.
  intros Hx. pose proof (SFcompare_rank x x Hx Hx) as H. unfold SFeqb.
  destruct (SFcompare x x) as [[]|]; try reflexivity; try contradiction;
    now apply rank_lt_irrefl in H.
Qed.

(** The score is a number when the lengths involved are below [2^53]. *)
Lemma score_number i total sentence :
  (0 < total)%nat ->
  Z.of_nat total < 2 ^ 53 ->
  Z.of_nat i < 2 ^ 53 ->
  Z.of_nat (len sentence) < 2 ^ 53 ->
  let x := score i total sentence in
  (x =? x)%float = true.
Proof.
  intros Htot Hn Hi Hl x. subst x.
  rewrite FloatAxioms.eqb_spec. apply SFeqb_refl.
  unfold score, true_div, py_min.
  rewrite FloatAxioms.add_spec. apply SF64add_number.
  - (* the position score *)
    rewrite FloatAxioms.mul_spec. change (Prim2SF c_0_6)
      with (S754_finite false 5404319552844595 (-53)).
    apply SF64mul_number. rewrite FloatAxioms.sub_spec.
    change (Prim2SF 1) with (S754_finite false 4503599627370496 (-52)).
    apply SF64sub_number. rewrite FloatAxioms.div_spec.
    destruct (float_of_nat_spec total Hn) as [[-> _]|(_ & m & e & ->)]; [lia|].
    destruct (float_of_nat_spec i Hi) as [[_ ->]|(_ & mi & ei & ->)];
      now apply SF64div_sign.
  - (* the length score *)
    rewrite FloatAxioms.mul_spec. change (Prim2SF c_0_4)
      with (S754_finite false 7205759403792794 (-54)).
    set (q := (float_of_nat (len sentence) /
               float_of_nat 100)%float).
    assert (Hq : sf_sign_is false (Prim2SF q)).
    { subst q. rewrite FloatAxioms.div_spec.
      change (Prim2SF (float_of_nat 100))
        with (S754_finite false 7036874417766400 (-46)).
      destruct (float_of_nat_spec (len sentence) Hl)
        as [[_ ->]|(_ & ml & el & ->)]; now apply SF64div_sign. }
    destruct (1 <? q)%float eqn:E.
    + now vm_compute.
    + rewrite FloatAxioms.ltb_spec in E.
      apply SF64mul_small; [apply Prim2SF_valid | assumption | assumption | lia].
Qed.

End FloatNumbers.

(** ** Key points *)

Section KeyPointRanking.

Import TextProcessor.

Lemma nth_error_enumerate_from {X} (l : list X) :
  forall k i,
    nth_error (enumerate_from k l) i =
    option_map (fun x => (k + i, x)) (nth_error l i).
Proof.
  induction l as [|x l IH]; intros k [|i]; simpl; try reflexivity.
  - now rewrite Nat.add_0_r.
  - rewrite IH. destruct (nth_error l i); simpl; [|reflexivity].
    do 2 f_equal. lia.
Qed.

Lemma enumerate_length {X} (l : list X) :
  List.length (enumerate l) = List.length l.
Proof.
  unfold enumerate. generalize 0.
  induction l as [|x l IH]; intros k; simpl; [reflexivity | now rewrite IH].
Qed.

Lemma nth_error_slice_to {X} (n : Z) (l : list X) i x :
  nth_error (slice_to n l) i = Some x -> nth_error l i = Some x.
Proof.
  destruct (slice_to_prefix n l) as [k ->]. revert k l.
  induction i as [|i IH]; intros [|k] [|y l]; simpl; try discriminate; eauto.
Qed.

Lemma candidate_sentences_spec text s :
  In s (candidate_sentences text) <->
  exists fragment,
    In fragment (re_split_runs is_terminator text false) /\
    s = strip fragment /\ 20 < len s.
Proof.
  unfold candidate_sentences. rewrite in_map_iff. split.
  - intros (f & <- & Hf). apply filter_In in Hf. destruct Hf as [Hin Hlen].
    apply Nat.ltb_lt in Hlen. exists f. auto.
  - intros (f & Hin & -> & Hlen). exists f. split; [reflexivity|].
    apply filter_In. split; [assumption | now apply Nat.ltb_lt].
Qed.

Lemma candidate_sentences_long text :
  Forall (fun s => 20 < len s) (candidate_sentences text).
Proof.
  apply Forall_forall. intros s Hs.
  apply candidate_sentences_spec in Hs. destruct Hs as (f & _ & _ & H). exact H.
Qed.

Lemma scored_sentences_nth text max_points i e :
  nth_error (scored_sentences text max_points) i = Some e ->
  nth_error (candidate_sentences text) i = Some (fst e) /\
  snd e = score i (List.length (candidate_sentences text)) (fst e).
Proof.
  unfold scored_sentences, enumerate. rewrite nth_error_map, nth_error_enumerate_from.
  destruct (nth_error (slice_to _ _) i) as [s|] eqn:E; simpl; [|discriminate].
  intros H. inversion H; subst; clear H. simpl.
  split; [now apply nth_error_slice_to in E | reflexivity].
Qed.

Lemma scored_sentences_length text max_points :
  List.length (scored_sentences text max_points) =
  List.length (slice_to (max_points * 2) (candidate_sentences text)).
Proof.
  unfold scored_sentences. now rewrite length_map, enumerate_length.
Qed.

Lemma scored_sentences_long text max_points e :
  In e (scored_sentences text max_points) -> 20 < len (fst e).
Proof.
  intros H. apply In_nth_error in H. destruct H as [i H].
  apply scored_sentences_nth in H. destruct H as [H _].
  apply nth_error_In in H.
  pose proof (candidate_sentences_long text) as Hall.
  rewrite Forall_forall in Hall. now apply Hall.
Qed.

(** The function is the one of the specification with the test "longer
    than 20 characters". *)
Lemma extract_key_points_more_than_20 text max_points :
  extract_key_points text max_points =
  key_points_with (more_than 20) text max_points.
Proof.
  unfold extract_key_points, key_points_with, scored_sentences, candidate_sentences.
  rewrite filter_map_comm, (Z.mul_comm 2 max_points). reflexivity.
Qed.

Lemma re_split_runs_size p s :
  forall in_sep,
    list_sum (map len (re_split_runs p s in_sep)) +
    List.length (re_split_runs p s in_sep) <= len s + 1.
Proof.
  induction s as [|c r IH]; intros in_sep; simpl; [lia|].
  destruct (p c).
  - destruct in_sep; simpl; specialize (IH true); lia.
  - specialize (IH false).
    destruct (re_split_runs p r false) as [|q qs]; simpl in *; lia.
Qed.

Lemma In_list_sum n l : In n l -> n <= list_sum l.
Proof.
  induction l as [|m l IH]; simpl; [contradiction|].
  intros [->|H]; [lia | apply IH in H; lia].
Qed.

Lemma lstrip_len s : len (lstrip s) <= len s.
Proof.
  induction s as [|c r IH]; simpl; [lia|].
  destruct (is_space c); simpl; lia.
Qed.

Lemma rstrip_len s : len (rstrip s) <= len s.
Proof.
  induction s as [|c r IH]; simpl; [lia|].
  destruct (rstrip r); [destruct (is_space c)|]; simpl in *; lia.
Qed.

Lemma strip_len s : len (strip s) <= len s.
Proof.
  unfold strip. pose proof (rstrip_len (lstrip s)). pose proof (lstrip_len s). lia.
Qed.

(** There are at most [len text + 1] candidates, none longer than the
    text. *)
Lemma candidate_sentences_size text :
  List.length (candidate_sentences text) <= len text + 1 /\
  Forall (fun s => len s <= len text) (candidate_sentences text).
Proof.
  pose proof (re_split_runs_size is_terminator text false) as Hsize.
  unfold candidate_sentences. split.
  - rewrite length_map.
    pose proof (filter_length_le (fun s => 20 <? len (strip s))
                  (re_split_runs is_terminator text false)). lia.
  - apply Forall_forall. intros s Hs. apply in_map_iff in Hs.
    destruct Hs as (f & <- & Hf). apply filter_In in Hf. destruct Hf as [Hf _].
    pose proof (strip_len f).
    pose proof (In_list_sum (len f) _ (in_map len _ _ Hf)).
    destruct (re_split_runs is_terminator text false); [contradiction|].
    simpl in *. lia.
Qed.

(** On a text shorter than [2^52] characters every score is a number. *)
Lemma scored_sentences_numbers text max_points :
  (Z.of_nat (len text) < 2 ^ 52)%Z ->
  Forall score_is_number (scored_sentences text max_points).
Proof.
  intros Hlen. apply Forall_forall. intros e He.
  apply In_nth_error in He. destruct He as [i He].
  apply scored_sentences_nth in He. destruct He as [Hnth Hscore].
  destruct (candidate_sentences_size text) as [Hcount Hall].
  assert (Hi : i < List.length (candidate_sentences text))
    by (apply nth_error_Some; congruence).
  apply nth_error_In in Hnth. rewrite Forall_forall in Hall.
  specialize (Hall _ Hnth).
  unfold score_is_number. rewrite Hscore.
  change (2 ^ 52)%Z with 4503599627370496%Z in Hlen.
  apply score_number; change (2 ^ 53)%Z with 9007199254740992%Z; lia.
Qed.

(** A sorted list of numbers is sorted throughout. *)
Lemma Sorted_numbers_StronglySorted (l : list (string * float)) :
  Forall score_is_number l ->
  Sorted (not_below snd PrimFloat.ltb) l ->
  StronglySorted (not_below snd PrimFloat.ltb) l.
Proof.
  intros Hnum Hs. induction Hs as [|a l Hs IH Hhd]; constructor.
  - apply IH. now inversion Hnum.
  - inversion Hnum as [|? ? Ha Hl]; subst. specialize (IH Hl).
    destruct Hhd as [|b l Hab]; constructor; [assumption|].
    inversion IH as [|? ? _ Hb]; subst.
    inversion Hl as [|? ? Hbnum _]; subst.
    apply Forall_forall. intros c Hc. rewrite Forall_forall in Hb.
    unfold not_below in *.
    now apply (float_not_below_trans (snd a) (snd b) (snd c) Hbnum Hab), Hb.
Qed.

(** C7, as stated, fails: a fragment of exactly 20 characters is not kept
    as a candidate; and a negative [max_points] cuts the candidates and
    the ranking from their ends, so more than [max_points] sentences are
    returned. *)
Lemma fragment_of_twenty_characters_is_dropped :
  len "Exactly twenty chars" = 20 /\
  key_points_with (at_least 20) "Exactly twenty chars. Tiny." 5 =
    ["Exactly twenty chars"] /\
  extract_key_points "Exactly twenty chars. Tiny." 5 = [] /\
  extract_key_points "Exactly twenty chars. Tiny." 5 <>
    key_points_with (at_least 20) "Exactly twenty chars. Tiny." 5 /\
  extract_key_points
    "The first sentence is long enough. The second sentence is long enough. The third sentence is long enough. The fourth sentence is long enough."
    (-1) = ["The first sentence is long enough"] /\
  ~ at_most_max_points
      "The first sentence is long enough. The second sentence is long enough. The third sentence is long enough. The fourth sentence is long enough."
      (-1).
Proof.
  split; [reflexivity|]. split; [reflexivity|]. split; [reflexivity|].
  split; [vm_compute; discriminate|]. split; [reflexivity|].
  unfold at_most_max_points. vm_compute. intros H. now apply H.
Qed.

(** C7, amended.  The candidates are the stripped fragments between runs of
    the terminators that are longer than 20 characters.  The candidate at
    index [i], for the indices of the slice [[:max_points * 2]], is scored
    [(1 - i / total) * 0.6 + min(length / 100, 1.0) * 0.4] in binary64
    arithmetic, [total] being the number of all candidates.  The result
    lists the sentences of the slice [[:max_points]] of a ranking of the
    scored candidates in which no score is followed by a greater one and
    candidates with equal scores keep their order; on a text shorter than
    [2^52] characters, where every length converts exactly, all scores are
    numbers and no score has a greater one anywhere after it.  There are
    at most [max_points] sentences when [max_points] is not negative, and
    each is longer than 20 characters. *)
Theorem extract_key_points_ranking :
  forall (text : string) (max_points : Z),
    let candidates := candidate_sentences text in
    let scored := scored_sentences text max_points in
    exists ranking : list (string * float),
      extract_key_points text max_points =
        key_points_with (more_than 20) text max_points /\
      (forall s, In s candidates <->
         exists fragment,
           In fragment (re_split_runs is_terminator text false) /\
           s = strip fragment /\ 20 < len s) /\
      List.length scored = List.length (slice_to (max_points * 2) candidates) /\
      (forall i e, nth_error scored i = Some e ->
         nth_error candidates i = Some (fst e) /\
         snd e =
           ((1 - true_div i (List.length candidates)) * c_0_6 +
            py_min (true_div (len (fst e)) 100) 1 * c_0_4)%float) /\
      Permutation ranking scored /\
      Sorted (not_below snd PrimFloat.ltb) ranking /\
      ((Z.of_nat (len text) < 2 ^ 52)%Z ->
       Forall score_is_number scored /\
       StronglySorted (not_below snd PrimFloat.ltb) ranking) /\
      (forall k : float,
          filter (fun e => (snd e =? k)%float) ranking =
          filter (fun e => (snd e =? k)%float) scored) /\
      extract_key_points text max_points = map fst (slice_to max_points ranking) /\
      ((0 <= max_points)%Z ->
       (Z.of_nat (List.length (extract_key_points text max_points))
        <= max_points)%Z /\
       (Z.of_nat (List.length scored) <= max_points * 2)%Z) /\
      Forall (fun s => 20 < len s) (extract_key_points text max_points).
Proof.
  intros text max_points candidates scored.
  exists (sort_desc snd PrimFloat.ltb scored).
  split; [apply extract_key_points_more_than_20|].
  split; [apply candidate_sentences_spec|].
  split; [apply scored_sentences_length|].
  split; [intros i e H; now apply scored_sentences_nth in H|].
  split; [apply sort_desc_perm|].
  assert (Hsorted : Sorted (not_below snd PrimFloat.ltb)
                      (sort_desc snd PrimFloat.ltb scored))
    by (apply sort_desc_sorted; exact float_ltb_asym).
  split; [exact Hsorted|].
  split.
  { intros Hlen.
    pose proof (scored_sentences_numbers text max_points Hlen) as Hnum.
    split; [exact Hnum|].
    apply Sorted_numbers_StronglySorted; [|exact Hsorted].
    apply Forall_forall. intros e He. apply sort_desc_In in He.
    rewrite Forall_forall in Hnum. now apply Hnum. }
  split.
  { intros k. apply sort_desc_stable. intros x y Hlt Hx.
    now apply (float_ltb_eqb (snd x) (snd y) k). }
  split; [reflexivity|].
  split.
  - intros Hm. split.
    + now apply extract_key_points_length.
    + subst scored. rewrite scored_sentences_length.
      apply slice_to_length. lia.
  - apply Forall_forall. intros s Hs. unfold extract_key_points in Hs.
    apply in_map_iff in Hs. destruct Hs as (e & <- & He).
    apply slice_to_In, sort_desc_In in He.
    now apply scored_sentences_long in He.
Qed.

Lemma extract_key_points_ranking_witness :
  let text :=
    "Quantum systems are fragile and require extremely low temperatures. Error correction and scaling remain significant technical hurdles. Short." in
  extract_key_points text 1 =
    ["Quantum systems are fragile and require extremely low temperatures"] /\
  (Z.of_nat (List.length (extract_key_points text 1)) <= 1)%Z /\
  exists ranking,
    StronglySorted (not_below snd PrimFloat.ltb) ranking /\
    extract_key_points text 1 = map fst (slice_to 1 ranking).
Proof.
  intros text.
  destruct (extract_key_points_ranking text 1)
    as (ranking & _ & _ & _ & _ & _ & _ & Hstrong & _ & Hres & Hlen & _).
  split; [reflexivity|].
  split; [apply Hlen; discriminate|].
  exists ranking. split; [|exact Hres].
  apply Hstrong. vm_compute. reflexivity.
Defined.

End KeyPointRanking.

(* ===================================================================== *)
(** * Further properties of the sources *)
(* ===================================================================== *)

(** ** First elements by key *)

Section FirstByKey.

Context {A : Type} (key : A -> string).

Lemma first_by_subsequence l : subsequence (first_by key l) l.
Proof.
  induction l as [|x rest IH]; simpl; constructor.
  now apply subsequence_filter.
Qed.

Lemma first_by_keys l k :
  In k (map key (first_by key l)) <-> In k (map key l).
Proof.
  induction l as [|x rest IH]; simpl; [reflexivity|].
  rewrite <- IH. rewrite !in_map_iff. split.
  - intros [H | (y & Hy & Hin)]; [now left|].
    apply filter_In in Hin. right. exists y. tauto.
  - intros [H | (y & Hy & Hin)]; [now left|].
    destruct (String.eqb_spec (key x) k) as [E|E]; [now left|].
    right. exists y. split; [assumption|]. apply filter_In. split; [assumption|].
    apply negb_true_iff, String.eqb_neq. congruence.
Qed.

Lemma first_by_NoDup l : NoDup (map key (first_by key l)).
Proof.
  induction l as [|x rest IH]; simpl; constructor.
  - rewrite in_map_iff. intros (y & Hy & Hin). apply filter_In in Hin.
    destruct Hin as [_ Hin]. rewrite Hy, String.eqb_refl in Hin. discriminate.
  - induction (first_by key rest) as [|y l IHl]; simpl; [constructor|].
    inversion IH; subst.
    destruct (negb (String.eqb (key x) (key y))); simpl; auto.
    constructor; auto. rewrite in_map_iff in *.
    intros (z & Hz & Hin). apply filter_In in Hin. apply H1. exists z. tauto.
Qed.

Lemma first_by_find l k :
  find (fun y => String.eqb (key y) k) (first_by key l) =
  find (fun y => String.eqb (key y) k) l.
Proof.
  induction l as [|x rest IH]; simpl; [reflexivity|].
  destruct (String.eqb (key x) k) eqn:Hx; [reflexivity|].
  rewrite find_filter_other; [assumption|].
  intros y Hy. apply String.eqb_eq in Hy. rewrite Hy. now rewrite Hx.
Qed.

(** The keys of the elements kept are the distinct keys in the order in
    which they are first met. *)
Lemma first_by_key_order l : map key (first_by key l) = first_seen (map key l).
Proof.
  induction l as [|x rest IH]; simpl; [reflexivity|].
  f_equal. rewrite <- IH. symmetry.
  exact (filter_map_comm key (fun y => negb (String.eqb (key x) y)) _).
Qed.

End FirstByKey.

(** ** Summaries *)

Section Summaries.

Import TextProcessor.

Lemma summarize_loop_first_by snippets :
  forall unique_snippets seen,
    summarize_loop snippets unique_snippets seen =
    unique_snippets ++
    filter (fun x => negb (mem (normalized x) seen)) (first_by normalized snippets).
Proof.
  induction snippets as [|snippet rest IH]; intros acc seen; simpl.
  - now rewrite app_nil_r.
  - fold (normalized snippet).
    destruct (mem (normalized snippet) seen) eqn:Hseen; simpl; rewrite IH.
    + f_equal. rewrite filter_filter. apply filter_ext. intros x.
      destruct (String.eqb_spec (normalized snippet) (normalized x)) as [E|]; simpl.
      * now rewrite <- E, Hseen.
      * reflexivity.
    + rewrite <- app_assoc. simpl. do 2 f_equal.
      rewrite filter_filter. apply filter_ext. intros x.
      unfold mem. simpl.
      rewrite (String.eqb_sym (normalized x) (normalized snippet)).
      now rewrite negb_orb.
Qed.

Lemma summarize_loop_all snippets :
  summarize_loop snippets [] [] = first_by normalized snippets.
Proof.
  rewrite summarize_loop_first_by. simpl.
  induction (first_by normalized snippets) as [|x l IH]; simpl; congruence.
Qed.

(** X1.  The summary of no snippet is the fixed sentence.  The summary of
    other lists joins with single spaces the snippets kept: the first
    snippet and, in their order, every later one that differs from all
    earlier ones once lowercased and stripped; of the snippets equal in that
    sense the first one is kept, in its original spelling.  The snippets
    kept are the first ones by that form, and their forms are the distinct
    forms of the input in the order in which they are first met. *)
Theorem summarize_snippets_keeps_first_spellings :
  summarize_snippets [] = "No content available to summarize." /\
  (forall snippet rest,
      exists kept,
        summarize_snippets (snippet :: rest) = join " " (snippet :: kept) /\
        subsequence (snippet :: kept) (snippet :: rest) /\
        NoDup (map normalized (snippet :: kept)) /\
        (forall s, In s (snippet :: rest) ->
           In (normalized s) (map normalized (snippet :: kept))) /\
        (forall k,
            find (fun s => String.eqb (normalized s) k) (snippet :: kept) =
            find (fun s => String.eqb (normalized s) k) (snippet :: rest)) /\
        snippet :: kept = first_by normalized (snippet :: rest) /\
        map normalized (snippet :: kept) =
          first_seen (map normalized (snippet :: rest))).
Proof.
  split; [reflexivity|]. intros snippet rest.
  exists (filter (fun y => negb (String.eqb (normalized snippet) (normalized y)))
                 (first_by normalized rest)).
  change (snippet :: filter _ (first_by normalized rest))
    with (first_by normalized (snippet :: rest)).
  unfold summarize_snippets. rewrite summarize_loop_all.
  split; [reflexivity|].
  split; [apply first_by_subsequence|].
  split; [apply first_by_NoDup|].
  split; [intros s Hs; apply first_by_keys; now apply in_map|].
  split; [intros k; apply first_by_find|].
  split; [reflexivity | apply first_by_key_order].
Qed.

Lemma summarize_snippets_keeps_first_spellings_witness :
  exists kept,
    summarize_snippets ["Alpha beta."; "  ALPHA BETA. "; "Gamma."] =
      join " " ("Alpha beta." :: kept) /\
    In (normalized "  ALPHA BETA. ") (map normalized ("Alpha beta." :: kept)).
Proof.
  destruct (proj2 summarize_snippets_keeps_first_spellings
              "Alpha beta." ["  ALPHA BETA. "; "Gamma."])
    as (kept & E & _ & _ & Hin & _).
  exists kept. split; [exact E|]. apply Hin. simpl. tauto.
Defined.

(** The order is that of the input. *)
Example summarize_snippets_order :
  summarize_snippets ["a"; "b"; "c"; "B"; " c "] = "a b c".
Proof. reflexivity. Qed.

Example summarize_snippets_example :
  summarize_snippets ["Alpha beta."; "  ALPHA BETA. "; "Gamma."; "alpha beta."] =
  "Alpha beta. Gamma.".
Proof. reflexivity. Qed.

(** ** Cleaning *)

Lemma lstrip_idempotent s : lstrip (lstrip s) = lstrip s.
Proof.
  induction s as [|c r IH]; simpl; [reflexivity|].
  destruct (is_space c) eqn:E; [assumption|]. simpl. now rewrite E.
Qed.

Lemma rstrip_idempotent s : rstrip (rstrip s) = rstrip s.
Proof.
  induction s as [|c r IH]; simpl; [reflexivity|].
  destruct (rstrip r) as [|c' r'] eqn:E.
  - destruct (is_space c) eqn:Hc; simpl; [reflexivity|]. now rewrite Hc.
  - change (rstrip (String c (String c' r')) = String c (String c' r')).
    cbn [rstrip] in *. now rewrite IH.
Qed.

(** Stripping on the right leaves a string that starts with no white space
    that way. *)
Lemma lstrip_rstrip s : lstrip s = s -> lstrip (rstrip s) = rstrip s.
Proof.
  destruct s as [|c r]; [reflexivity|]. simpl.
  destruct (is_space c) eqn:Hc.
  - intros H. pose proof (lstrip_len r) as Hl. rewrite H in Hl. simpl in Hl. lia.
  - intros _. destruct (rstrip r); simpl; now rewrite Hc.
Qed.

Lemma strip_idempotent s : strip (strip s) = strip s.
Proof.
  unfold strip.
  rewrite (lstrip_rstrip (lstrip s)) by apply lstrip_idempotent.
  apply rstrip_idempotent.
Qed.

Lemma all_chars_lstrip p s : all_chars p s = true -> all_chars p (lstrip s) = true.
Proof.
  induction s as [|c r IH]; simpl; [reflexivity|].
  intros H. destruct (is_space c); [|exact H].
  apply andb_true_iff in H. now apply IH.
Qed.

Lemma all_chars_rstrip p s : all_chars p s = true -> all_chars p (rstrip s) = true.
Proof.
  induction s as [|c r IH]; simpl; [reflexivity|].
  intros H. apply andb_true_iff in H. destruct H as [Hc Hr].
  specialize (IH Hr). destruct (rstrip r) as [|c' r'].
  - destruct (is_space c); simpl; [reflexivity | now rewrite Hc].
  - simpl in *. now rewrite Hc.
Qed.

Lemma all_chars_strip p s : all_chars p s = true -> all_chars p (strip s) = true.
Proof. intros H. now apply all_chars_rstrip, all_chars_lstrip. Qed.

Lemma all_chars_filter_chars p s : all_chars p (filter_chars p s) = true.
Proof.
  induction s as [|c r IH]; simpl; [reflexivity|].
  destruct (p c) eqn:E; simpl; [now rewrite E | assumption].
Qed.

Lemma all_chars_impl (p q : ascii -> bool) s :
  (forall c, p c = true -> q c = true) ->
  all_chars p s = true -> all_chars q s = true.
Proof.
  intros Hpq. induction s as [|c r IH]; simpl; [reflexivity|].
  intros H. apply andb_true_iff in H. destruct H as [Hc Hr].
  now rewrite (Hpq c Hc), IH.
Qed.

(** After the runs of white space are replaced, the only white space left
    is the space. *)
Lemma collapse_ws_spaces s :
  forall in_ws,
    all_chars (fun c => negb (is_space c) || Ascii.eqb c " "%char)
              (collapse_ws s in_ws) = true.
Proof.
  induction s as [|c r IH]; intros in_ws; simpl; [reflexivity|].
  destruct (is_space c) eqn:E.
  - destruct in_ws; simpl; now rewrite ?IH.
  - simpl. now rewrite E, IH.
Qed.

Lemma all_chars_and (p q : ascii -> bool) s :
  all_chars p s = true -> all_chars q s = true ->
  all_chars (fun c => p c && q c) s = true.
Proof.
  induction s as [|c r IH]; simpl; [reflexivity|].
  intros Hp Hq. apply andb_true_iff in Hp, Hq.
  destruct Hp as [-> Hp], Hq as [-> Hq]. now rewrite IH.
Qed.

Lemma all_chars_filter_keeps (p q : ascii -> bool) s :
  all_chars q s = true -> all_chars q (filter_chars p s) = true.
Proof.
  induction s as [|c r IH]; simpl; [reflexivity|].
  intros H. apply andb_true_iff in H. destruct H as [Hc Hr].
  destruct (p c); simpl; [now rewrite Hc, IH | now apply IH].
Qed.

(** X2.  A cleaned text consists of word characters, spaces and the
    punctuation [.,!?-] only, every other white space having become a
    space, and it neither starts nor ends with white space: stripping it
    again changes nothing. *)
Theorem clean_text_characters :
  forall text : string,
    all_chars (fun c =>
                 is_word_char c || Ascii.eqb c " "%char ||
                 Ascii.eqb c "."%char || Ascii.eqb c ","%char ||
                 Ascii.eqb c "!"%char || Ascii.eqb c "?"%char ||
                 Ascii.eqb c "-"%char)
              (clean_text text) = true /\
    strip (clean_text text) = clean_text text.
Proof.
  intros text. unfold clean_text. split; [|apply strip_idempotent].
  apply all_chars_strip.
  eapply all_chars_impl;
    [| apply (all_chars_and kept_by_clean
                (fun c => negb (is_space c) || Ascii.eqb c " "%char));
       [apply all_chars_filter_chars
       | apply all_chars_filter_keeps, collapse_ws_spaces]].
  intros c H. cbv beta in H. apply andb_true_iff in H. destruct H as [Hk Hs].
  unfold kept_by_clean in Hk.
  destruct (is_space c); simpl in Hs.
  - rewrite Hs. now rewrite orb_true_r.
  - rewrite orb_false_r in Hk.
    destruct (is_word_char c); simpl in *; [reflexivity|].
    destruct (Ascii.eqb c " "); simpl; [reflexivity | exact Hk].
Qed.

(** Removing a character between two spaces leaves both: cleaning does not
    always leave single spaces, and cleaning twice can change the text. *)
Example clean_text_leaves_double_space :
  clean_text "rust @ speed" = "rust  speed" /\
  clean_text (clean_text "rust @ speed") = "rust speed".
Proof. split; reflexivity. Qed.

End Summaries.

(** ** Keywords and key points: what is returned *)

Section ReturnedTexts.

Import TextProcessor.

Lemma slice_to_all {A} (n : Z) (l : list A) :
  (Z.of_nat (List.length l) <= n)%Z -> slice_to n l = l.
Proof.
  intros H. unfold slice_to.
  destruct (0 <=? n)%Z eqn:E; [|apply Z.leb_gt in E; lia].
  apply firstn_all2. lia.
Qed.

Lemma NoDup_firstn_of {A} (n : nat) (l : list A) : NoDup l -> NoDup (firstn n l).
Proof.
  intros H. revert n. induction H as [|x l Hx Hl IH]; intros [|n]; simpl;
    try constructor; auto.
  intros Hin. apply Hx. rewrite <- (firstn_skipn n l). apply in_or_app. now left.
Qed.

Lemma NoDup_slice_to {A} (n : Z) (l : list A) : NoDup l -> NoDup (slice_to n l).
Proof. intros H. unfold slice_to. destruct (0 <=? n)%Z; now apply NoDup_firstn_of. Qed.

Lemma map_fst_slice_to {A B} (n : Z) (l : list (A * B)) :
  map fst (slice_to n l) = slice_to n (map fst l).
Proof.
  unfold slice_to. rewrite length_map.
  destruct (0 <=? n)%Z; symmetry; apply firstn_map.
Qed.

Lemma frequency_table_keys ws : map fst (frequency_table ws) = first_seen ws.
Proof. unfold frequency_table. rewrite map_map. simpl. apply map_id. Qed.

Lemma extract_keywords_ranked_words text :
  Permutation
    (map fst (sort_desc snd Z.ltb (frequency_table (counted_words text))))
    (first_seen (counted_words text)).
Proof. rewrite <- frequency_table_keys. apply Permutation_map, sort_desc_perm. Qed.

Lemma extract_keywords_distinct text top_n : NoDup (extract_keywords text top_n).
Proof.
  unfold extract_keywords. rewrite word_freq_table, map_fst_slice_to.
  apply NoDup_slice_to.
  apply (Permutation_NoDup (Permutation_sym (extract_keywords_ranked_words text))),
        first_seen_NoDup.
Qed.

(** X3.  The keywords are pairwise distinct, whatever the count asked for;
    and when the count is not below the number of distinct counted words of
    the text, every one of them is returned. *)
Theorem extract_keywords_distinct_and_complete :
  forall (text : string) (top_n : Z),
    NoDup (extract_keywords text top_n) /\
    ((Z.of_nat (List.length (first_seen (counted_words text))) <= top_n)%Z ->
     Permutation (extract_keywords text top_n) (first_seen (counted_words text))).
Proof.
  intros text top_n. split; [apply extract_keywords_distinct|].
  intros Hn. unfold extract_keywords. rewrite word_freq_table, map_fst_slice_to.
  pose proof (extract_keywords_ranked_words text) as Hperm.
  rewrite slice_to_all; [exact Hperm|].
  now rewrite (Permutation_length Hperm).
Qed.

Lemma extract_keywords_distinct_and_complete_witness :
  let text := "Data beats opinions; data that is clean beats data" in
  Permutation (extract_keywords text 10) ["data"; "beats"; "opinions"; "clean"].
Proof.
  intros text.
  apply (proj2 (extract_keywords_distinct_and_complete text 10)).
  vm_compute. discriminate.
Defined.

(** *** Pieces of a text *)

Lemma occurs_in_refl s : occurs_in s s.
Proof. exists "", "". simpl. now rewrite append_empty_r. Qed.

Lemma occurs_in_trans a b c : occurs_in a b -> occurs_in b c -> occurs_in a c.
Proof.
  intros (p1 & q1 & ->) (p2 & q2 & ->).
  exists (p2 +++ p1), (q1 +++ q2). now rewrite !append_assoc3.
Qed.

Lemma occurs_in_cons c a s : occurs_in a s -> occurs_in a (String c s).
Proof. intros (p & q & ->). now exists (String c p), q. Qed.

Lemma lstrip_occurs s : occurs_in (lstrip s) s.
Proof.
  induction s as [|c r IH]; simpl; [apply occurs_in_refl|].
  destruct (is_space c); [now apply occurs_in_cons | apply occurs_in_refl].
Qed.

Lemma rstrip_prefix s : exists post, s = rstrip s +++ post.
Proof.
  induction s as [|c r IH]; simpl; [now exists ""|].
  destruct IH as [post E]. destruct (rstrip r) as [|c' r'] eqn:Hr.
  - destruct (is_space c).
    + now exists (String c r).
    + exists r. simpl in E. now rewrite E.
  - exists post. simpl. simpl in E. now rewrite <- E.
Qed.

Lemma rstrip_occurs s : occurs_in (rstrip s) s.
Proof. destruct (rstrip_prefix s) as [post E]. now exists "", post. Qed.

Lemma strip_occurs s : occurs_in (strip s) s.
Proof.
  unfold strip. eapply occurs_in_trans; [apply rstrip_occurs | apply lstrip_occurs].
Qed.

(** The first piece starts the text that was split. *)
Lemma re_split_runs_head p s :
  match re_split_runs p s false with
  | [] => True
  | q :: _ => exists post, s = q +++ post
  end.
Proof.
  induction s as [|c r IH]; simpl; [now exists ""|].
  destruct (p c); [now exists (String c r)|].
  destruct (re_split_runs p r false) as [|q qs]; [now exists r|].
  destruct IH as [post E]. exists post. simpl. now rewrite <- E.
Qed.

(** The pieces hold no separator and lie in the text that was split. *)
Lemma re_split_runs_pieces p s :
  forall in_sep piece,
    In piece (re_split_runs p s in_sep) ->
    all_chars (fun c => negb (p c)) piece = true /\ occurs_in piece s.
Proof.
  induction s as [|c r IH]; intros in_sep piece; simpl.
  - intros [<-|[]]. split; [reflexivity | apply occurs_in_refl].
  - destruct (p c) eqn:Hc.
    + assert (Hrest : In piece (re_split_runs p r true) ->
                      all_chars (fun c => negb (p c)) piece = true /\
                      occurs_in piece (String c r)).
      { intros H. apply IH in H. destruct H as [Ha Ho].
        split; [assumption | now apply occurs_in_cons]. }
      destruct in_sep; [exact Hrest|].
      intros [<-|H]; [|now apply Hrest].
      split; [reflexivity|]. now exists "", (String c r).
    + pose proof (IH false) as IHf.
      pose proof (re_split_runs_head p r) as Hhead.
      destruct (re_split_runs p r false) as [|q qs].
      * intros [<-|[]]. simpl. rewrite Hc. split; [reflexivity|].
        exists "", r. reflexivity.
      * intros [<-|H].
        -- destruct (IHf q (or_introl eq_refl)) as [Ha _].
           split; [simpl; now rewrite Hc|].
           destruct Hhead as [post E]. exists "", post. simpl. now rewrite <- E.
        -- destruct (IHf piece (or_intror H)) as [Ha Ho].
           split; [assumption | now apply occurs_in_cons].
Qed.

Lemma map_snd_enumerate_from {X} (l : list X) :
  forall i, map snd (enumerate_from i l) = l.
Proof. induction l as [|x r IH]; intros i; simpl; [reflexivity | now rewrite IH]. Qed.

Lemma scored_sentences_texts text max_points :
  map fst (scored_sentences text max_points) =
  slice_to (max_points * 2) (candidate_sentences text).
Proof.
  unfold scored_sentences, enumerate. rewrite map_map.
  rewrite <- (map_snd_enumerate_from (slice_to _ _) 0) at 2.
  apply map_ext. now intros [i s].
Qed.

Lemma extract_key_points_fragments text max_points s :
  In s (extract_key_points text max_points) ->
  all_chars (fun c => negb (is_terminator c)) s = true /\
  strip s = s /\
  occurs_in s text.
Proof.
  intros Hs. unfold extract_key_points in Hs. apply in_map_iff in Hs.
  destruct Hs as (e & <- & He). apply slice_to_In, sort_desc_In in He.
  apply (in_map fst) in He. rewrite scored_sentences_texts in He.
  apply slice_to_In, candidate_sentences_spec in He.
  destruct He as (fragment & Hin & -> & _).
  apply re_split_runs_pieces in Hin. destruct Hin as [Hall Hocc].
  split; [now apply all_chars_strip|].
  split; [apply strip_idempotent|].
  eapply occurs_in_trans; [apply strip_occurs | exact Hocc].
Qed.

Lemma extract_key_points_occur text max_points s :
  In s (extract_key_points text max_points) -> occurs_in s text.
Proof. intros H. now apply extract_key_points_fragments in H. Qed.

(** X4.  Every key point is a piece of the text between sentence
    terminators, with the white space at its ends removed: it holds none of
    the characters [.], [!] and [?], stripping it changes nothing, and it
    occurs in the text as it stands. *)
Theorem extract_key_points_are_trimmed_fragments :
  forall (text : string) (max_points : Z),
    Forall (fun s =>
              all_chars (fun c => negb (is_terminator c)) s = true /\
              strip s = s /\
              occurs_in s text)
           (extract_key_points text max_points).
Proof.
  intros text max_points. apply Forall_forall. intros s Hs.
  exact (extract_key_points_fragments text max_points s Hs).
Qed.

(** X5.  When the text has at most [max_points] candidate sentences, every
    one of them is a key point: the result is a rearrangement of the
    candidates. *)
Theorem extract_key_points_returns_all_candidates_when_few :
  forall (text : string) (max_points : Z),
    (Z.of_nat (List.length (candidate_sentences text)) <= max_points)%Z ->
    Permutation (extract_key_points text max_points) (candidate_sentences text).
Proof.
  intros text max_points Hn. unfold extract_key_points.
  rewrite slice_to_all.
  - rewrite (Permutation_map fst (sort_desc_perm snd PrimFloat.ltb _)).
    rewrite scored_sentences_texts. rewrite slice_to_all; [reflexivity | lia].
  - rewrite sort_desc_length, scored_sentences_length.
    rewrite slice_to_all; lia.
Qed.

Lemma extract_key_points_returns_all_candidates_when_few_witness :
  let text :=
    "Quantum systems are fragile and require extremely low temperatures. Error correction and scaling remain significant technical hurdles. Short." in
  Permutation (extract_key_points text 5)
    ["Quantum systems are fragile and require extremely low temperatures";
     "Error correction and scaling remain significant technical hurdles"].
Proof.
  intros text.
  apply (extract_key_points_returns_all_candidates_when_few text 5).
  vm_compute. discriminate.
Defined.

End ReturnedTexts.

(** ** The canned data *)

Section CannedData.

Import DemoData.

Lemma get_setitem_same {V} (d : dict V) k v : get (setitem d k v) k = Some v.
Proof.
  induction d as [|[k' v'] r IH]; simpl.
  - now rewrite String.eqb_refl.
  - destruct (String.eqb k' k) eqn:E; simpl; now rewrite E.
Qed.

Lemma get_setitem_other {V} (d : dict V) k v k0 :
  k0 <> k -> get (setitem d k v) k0 = get d k0.
Proof.
  intros Hne. induction d as [|[k' v'] r IH]; simpl.
  - apply String.eqb_neq in Hne. rewrite String.eqb_sym in Hne. now rewrite Hne.
  - destruct (String.eqb k' k) eqn:E; simpl.
    + apply String.eqb_eq in E. subst k'.
      assert (String.eqb k k0 = false) as ->
          by (apply String.eqb_neq; congruence).
      reflexivity.
    + now rewrite IH.
Qed.

Lemma keys_setitem {V} (d : dict V) k v :
  keys (setitem d k v) = if mem k (keys d) then keys d else keys d ++ [k].
Proof.
  unfold keys, mem. induction d as [|[k' v'] r IH]; simpl; [reflexivity|].
  rewrite (String.eqb_sym k k').
  destruct (String.eqb k' k); simpl; [reflexivity|].
  rewrite IH. now destruct (existsb (String.eqb k) (map fst r)).
Qed.

Lemma get_keys_In {V} (d : dict V) k : In k (keys d) -> get d k <> None.
Proof.
  unfold keys. induction d as [|[k' v'] r IH]; simpl; [contradiction|].
  intros [->|H].
  - now rewrite String.eqb_refl.
  - destruct (String.eqb k' k); [discriminate | now apply IH].
Qed.

(** X6.  Adding a topic stores the list under the lowercased topic and
    leaves every other entry as it was.  A topic whose lowercased form is
    already a key keeps the place of that key; a new one is added after all
    the keys present, so it is the last to be tried by the lookup. *)
Theorem add_demo_topic_stores_lowercased :
  forall (db : dict (list SearchResult)) (topic : string)
         (results : list SearchResult),
    let db' := add_demo_topic db topic results in
    get db' (lower topic) = Some results /\
    (forall key, key <> lower topic -> get db' key = get db key) /\
    keys db' =
      (if mem (lower topic) (keys db) then keys db
       else keys db ++ [lower topic]).
Proof.
  intros db topic results db'. subst db'. unfold add_demo_topic.
  split; [apply get_setitem_same|].
  split; [intros key Hk; now apply get_setitem_other|].
  apply keys_setitem.
Qed.

Lemma add_demo_topic_stores_lowercased_witness :
  get (add_demo_topic DEMO_SEARCH_RESULTS "Rust" results_default) "default" =
  Some results_default.
Proof.
  destruct (add_demo_topic_stores_lowercased DEMO_SEARCH_RESULTS "Rust"
              results_default) as (_ & Hother & _).
  rewrite (Hother "default"); [reflexivity | discriminate].
Defined.

Lemma find_app_none {A} (p : A -> bool) (l1 l2 : list A) :
  find p l1 = None -> find p (l1 ++ l2) = find p l2.
Proof.
  induction l1 as [|x l1 IH]; simpl; [reflexivity|].
  destruct (p x); [discriminate | exact IH].
Qed.

Lemma find_app_some {A} (p : A -> bool) (l1 l2 : list A) x :
  find p l1 = Some x -> find p (l1 ++ l2) = Some x.
Proof.
  induction l1 as [|y l1 IH]; simpl; [discriminate|].
  destruct (p y); [trivial | exact IH].
Qed.

(** X7.  The lookup after a topic was added.  A query that one of the keys
    present before matches, other than the key added, is answered as
    before: an added topic never takes a query from an earlier key.  A
    query that none of them matches and the added key does is answered
    with the added list, cut to [max_results]; such is the topic itself, in
    any case of letters, unless its lowercased form is ["default"]. *)
Theorem add_demo_topic_then_lookup :
  forall (db : dict (list SearchResult)) (topic : string)
         (results : list SearchResult) (query : string) (max_results : Z),
    let db' := add_demo_topic db topic results in
    (forall key,
        find (topic_matches query) (keys db) = Some key ->
        key <> lower topic ->
        get_demo_results db' query max_results =
        get_demo_results db query max_results) /\
    (find (topic_matches query) (keys db) = None ->
     topic_matches query (lower topic) = true ->
     get_demo_results db' query max_results =
     Return (slice_to max_results results)) /\
    (lower topic <> "default" -> topic_matches topic (lower topic) = true).
Proof.
  intros db topic results query max_results db'. subst db'.
  unfold get_demo_results, add_demo_topic.
  rewrite !scan_keys_find, keys_setitem.
  split; [|split].
  - intros key Hfind Hne.
    assert (Hsame : find (topic_matches query)
                      (if mem (lower topic) (keys db) then keys db
                       else keys db ++ [lower topic]) = Some key).
    { destruct (mem (lower topic) (keys db)); [assumption|].
      now apply find_app_some. }
    rewrite Hsame, Hfind. unfold getitem.
    now rewrite get_setitem_other.
  - intros Hnone Hmatch.
    destruct (mem (lower topic) (keys db)) eqn:Hmem.
    + apply mem_In in Hmem.
      pose proof (find_none _ _ Hnone _ Hmem). congruence.
    + rewrite find_app_none by assumption. simpl. rewrite Hmatch.
      unfold getitem. now rewrite get_setitem_same.
  - intros Hd. unfold topic_matches.
    apply String.eqb_neq in Hd. rewrite Hd. simpl.
    rewrite (occurs_in_contains _ _ (occurs_in_refl (lower topic))).
    reflexivity.
Qed.

Lemma add_demo_topic_then_lookup_witness :
  get_demo_results
    (add_demo_topic DEMO_SEARCH_RESULTS "Rust" results_quantum_computing)
    "RUST compiler" 2 =
  Return (firstn 2 results_quantum_computing).
Proof.
  destruct (add_demo_topic_then_lookup DEMO_SEARCH_RESULTS "Rust"
              results_quantum_computing "RUST compiler" 2) as (_ & Hnew & _).
  apply Hnew; reflexivity.
Defined.

(** *** Which shipped lists are served *)

Lemma prefix_split w s : String.prefix w s = true -> exists post, s = w +++ post.
Proof.
  revert s. induction w as [|c w IH]; intros s; simpl.
  - intros _. now exists s.
  - destruct s as [|c' s]; simpl; [discriminate|].
    destruct (Ascii.ascii_dec c c') as [<-|]; [|discriminate].
    intros H. apply IH in H. destruct H as [post ->]. now exists post.
Qed.

Lemma contains_occurs w s : contains w s = true -> occurs_in w s.
Proof.
  induction s as [|c r IH]; cbn [contains]; intros H.
  - rewrite orb_false_r in H. apply prefix_split in H.
    destruct H as [post E]. now exists "", post.
  - apply orb_true_iff in H. destruct H as [H|H].
    + apply prefix_split in H. destruct H as [post E]. now exists "", post.
    + now apply occurs_in_cons, IH.
Qed.

Lemma contains_trans a b c :
  contains a b = true -> contains b c = true -> contains a c = true.
Proof.
  intros Hab Hbc. apply occurs_in_contains.
  eapply occurs_in_trans; apply contains_occurs; eassumption.
Qed.

Lemma contains_none small big s :
  contains small big = true -> contains small s = false -> contains big s = false.
Proof.
  intros Hsb Hs. destruct (contains big s) eqn:E; [|reflexivity].
  rewrite (contains_trans _ _ _ Hsb E) in Hs. discriminate.
Qed.

Lemma contains_some small big s :
  contains small big = true -> contains big s = true -> contains small s = true.
Proof. apply contains_trans. Qed.

Lemma shipped_find query :
  find (topic_matches query) (keys DEMO_SEARCH_RESULTS) =
  let q := lower query in
  if contains "artificial" q || contains "in" q || contains "healthcare" q
  then Some "artificial intelligence in healthcare"
  else if contains "climate" q || contains "change" q then Some "climate change"
  else if contains "quantum" q then Some "quantum computing"
  else None.
Proof.
  cbv zeta. set (q := lower query).
  assert (H1 : topic_matches query "artificial intelligence in healthcare" =
               (contains "artificial intelligence in healthcare" q ||
                (contains "artificial" q || (contains "intelligence" q ||
                 (contains "in" q || (contains "healthcare" q || false))))))
    by reflexivity.
  assert (H2 : topic_matches query "artificial intelligence" =
               (contains "artificial intelligence" q ||
                (contains "artificial" q || (contains "intelligence" q || false))))
    by reflexivity.
  assert (H3 : topic_matches query "machine learning" =
               (contains "machine learning" q ||
                (contains "machine" q || (contains "learning" q || false))))
    by reflexivity.
  assert (H4 : topic_matches query "climate change" =
               (contains "climate change" q ||
                (contains "climate" q || (contains "change" q || false))))
    by reflexivity.
  assert (H5 : topic_matches query "quantum computing" =
               (contains "quantum computing" q ||
                (contains "quantum" q || (contains "computing" q || false))))
    by reflexivity.
  assert (H6 : topic_matches query "default" = false) by reflexivity.
  change (keys DEMO_SEARCH_RESULTS)
    with ["artificial intelligence in healthcare"; "artificial intelligence";
          "machine learning"; "climate change"; "quantum computing"; "default"].
  cbn [find]. rewrite H1, H2, H3, H4, H5, H6. clear H1 H2 H3 H4 H5 H6.
  destruct (contains "in" q) eqn:Hin.
  { rewrite !orb_true_r. reflexivity. }
  rewrite (contains_none "in" "artificial intelligence in healthcare" q eq_refl Hin).
  rewrite (contains_none "in" "intelligence" q eq_refl Hin).
  rewrite (contains_none "in" "artificial intelligence" q eq_refl Hin).
  rewrite (contains_none "in" "machine learning" q eq_refl Hin).
  rewrite (contains_none "in" "machine" q eq_refl Hin).
  rewrite (contains_none "in" "learning" q eq_refl Hin).
  rewrite (contains_none "in" "quantum computing" q eq_refl Hin).
  rewrite (contains_none "in" "computing" q eq_refl Hin).
  destruct (contains "artificial" q); [reflexivity|].
  destruct (contains "healthcare" q); [reflexivity|].
  cbn [orb].
  destruct (contains "climate" q) eqn:Hc.
  { rewrite orb_true_r. reflexivity. }
  rewrite (contains_none "climate" "climate change" q eq_refl Hc).
  destruct (contains "change" q); [reflexivity|].
  cbn [orb].
  destruct (contains "quantum" q); reflexivity.
Qed.

(** X8.  On the shipped data every query is answered from one of four
    lists, decided by the lowercased query: the health-care list when it
    holds [artificial], [in] or [healthcare]; else the climate list when it
    holds [climate] or [change]; else the quantum list when it holds
    [quantum]; else the default list.  The lists stored under
    ["artificial intelligence"] and ["machine learning"] are never served:
    every query that their keys match is matched by the first key. *)
Theorem shipped_lookup_serves_four_lists :
  forall (query : string) (max_results : Z),
    get_demo_results DEMO_SEARCH_RESULTS query max_results =
      Return (slice_to max_results (shipped_answer (lower query))) /\
    find (topic_matches query) (keys DEMO_SEARCH_RESULTS)
      <> Some "artificial intelligence" /\
    find (topic_matches query) (keys DEMO_SEARCH_RESULTS)
      <> Some "machine learning".
Proof.
  intros query max_results.
  unfold get_demo_results. rewrite scan_keys_find, shipped_find.
  cbv zeta. unfold shipped_answer.
  destruct (contains "artificial" (lower query) || contains "in" (lower query) ||
            contains "healthcare" (lower query));
    [split; [reflexivity | split; discriminate]|].
  destruct (contains "climate" (lower query) || contains "change" (lower query));
    [split; [reflexivity | split; discriminate]|].
  destruct (contains "quantum" (lower query));
    (split; [reflexivity | split; discriminate]).
Qed.

End CannedData.

(** ** The search tool: the live paths *)

Section LiveSearch.

Import WebSearchTool.

Lemma get_demo_results_returns db query max_results :
  get db "default" <> None ->
  exists results, DemoData.get_demo_results db query max_results = Return results.
Proof.
  intros Hd. unfold DemoData.get_demo_results. rewrite scan_keys_find.
  destruct (find (topic_matches query) (keys db)) as [key|] eqn:F.
  - apply find_some in F. destruct F as [Hin _].
    apply get_keys_In in Hin. unfold getitem.
    destruct (get db key); [now eexists | congruence].
  - unfold getitem. destruct (get db "default"); [now eexists | congruence].
Qed.

(** X9.  A live search repeats the call of the backend after a rate-limit
    error only.  When the attempts before attempt [k], one of the three
    allowed, meet rate-limit errors, the search returns what attempt [k]
    yields, each result converted, or the empty list when attempt [k]
    raises another error; the tool is left as it was. *)
Theorem search_retries_after_rate_limits_only :
  forall (env : Env) (db : dict (list SearchResult)) (self : t)
         (query : string) (ddgs : backend) (k : nat),
    use_demo self && DEMO_AVAILABLE env = false ->
    k < 3 ->
    (forall j, j < k ->
       exists e, ddgs j = Raise e /\ contains "Ratelimit" e = true) ->
    (forall search_results,
        ddgs k = Return search_results ->
        search env db self query ddgs =
        (Return (map to_result search_results), self)) /\
    (forall e,
        ddgs k = Raise e -> contains "Ratelimit" e = false ->
        search env db self query ddgs = (Return [], self)).
Proof.
  intros env db self query ddgs k Hlive Hk Hrl.
  unfold search. rewrite Hlive. change (seq 0 max_retries) with [0; 1; 2].
  destruct k as [|[|[|k]]]; [| | |lia].
  - split; [intros rs E | intros e E C]; cbn [attempts]; rewrite E;
      [reflexivity | now rewrite C].
  - destruct (Hrl 0) as (e0 & E0 & C0); [lia|].
    split; [intros rs E | intros e E C]; cbn [attempts];
      rewrite E0, C0; cbn; rewrite E; [reflexivity | now rewrite C].
  - destruct (Hrl 0) as (e0 & E0 & C0); [lia|].
    destruct (Hrl 1) as (e1 & E1 & C1); [lia|].
    split; [intros rs E | intros e E C]; cbn [attempts];
      rewrite E0, C0; cbn; rewrite E1, C1; cbn; rewrite E;
      [reflexivity | now rewrite C].
Qed.

Lemma search_retries_after_rate_limits_only_witness :
  search live_env DemoData.DEMO_SEARCH_RESULTS
    {| max_results := 5; use_demo := false |} "rust"
    (rate_limited_before 2
       (Return [[("title", "Rust"); ("href", "https://www.rust-lang.org")]])) =
  (Return [{| title := "Rust"; url := "https://www.rust-lang.org";
              snippet := "No description available" |}],
   {| max_results := 5; use_demo := false |}).
Proof.
  destruct (search_retries_after_rate_limits_only live_env
              DemoData.DEMO_SEARCH_RESULTS
              {| max_results := 5; use_demo := false |} "rust"
              (rate_limited_before 2
                 (Return [[("title", "Rust"); ("href", "https://www.rust-lang.org")]]))
              2) as [Hret _].
  - reflexivity.
  - lia.
  - intros j Hj. exists "202 Ratelimit". split; [|reflexivity].
    unfold rate_limited_before.
    destruct j as [|[|j]]; [reflexivity | reflexivity | lia].
  - now rewrite (Hret _ eq_refl).
Defined.

(** X10.  The tool after a call of [search] is the tool before it, except on
    one path: the tool was live, the canned data are available, the
    fallback is enabled and all three attempts met rate-limit errors; then
    only the mode flag is set.  [max_results] never changes. *)
Theorem search_changes_tool_only_by_fallback :
  forall (env : Env) (db : dict (list SearchResult)) (self : t)
         (query : string) (ddgs : backend),
    let self' := snd (search env db self query ddgs) in
    max_results self' = max_results self /\
    (self' = self \/
     self' = set_use_demo self true /\
     use_demo self = false /\
     DEMO_AVAILABLE env = true /\
     USE_FALLBACK_ON_ERROR env = true /\
     (forall attempt, attempt < 3 ->
        exists e, ddgs attempt = Raise e /\ contains "Ratelimit" e = true)).
Proof.
  intros env db self query ddgs self'. subst self'.
  split.
  { unfold search. destruct (use_demo self && DEMO_AVAILABLE env); [reflexivity|].
    apply attempts_flag. }
  unfold search.
  destruct (use_demo self && DEMO_AVAILABLE env) eqn:Hlive; [now left|].
  change (seq 0 max_retries) with [0; 1; 2]. cbn [attempts].
  destruct (ddgs 0) as [r0|e0] eqn:E0; [now left|].
  destruct (contains "Ratelimit" e0) eqn:C0; [|now left]. cbn.
  destruct (ddgs 1) as [r1|e1] eqn:E1; [now left|].
  destruct (contains "Ratelimit" e1) eqn:C1; [|now left]. cbn.
  destruct (ddgs 2) as [r2|e2] eqn:E2; [now left|].
  destruct (contains "Ratelimit" e2) eqn:C2; [|now left]. cbn.
  destruct (DEMO_AVAILABLE env) eqn:Ha; [|now left].
  destruct (USE_FALLBACK_ON_ERROR env) eqn:Hf; [|now left]. cbn.
  right. rewrite andb_true_r in Hlive.
  repeat (split; [reflexivity || assumption|]).
  intros attempt Hlt.
  destruct attempt as [|[|[|attempt]]]; [| | |lia]; eexists; eauto.
Qed.

Lemma search_changes_tool_only_by_fallback_witness :
  max_results
    (snd (search live_env DemoData.DEMO_SEARCH_RESULTS
            {| max_results := 5; use_demo := false |} "rust"
            always_rate_limited)) = 5%Z.
Proof.
  exact (proj1 (search_changes_tool_only_by_fallback live_env
                  DemoData.DEMO_SEARCH_RESULTS
                  {| max_results := 5; use_demo := false |} "rust"
                  always_rate_limited)).
Defined.

(** X11.  A call of [search] never raises when the canned data hold an entry
    ["default"], whatever the backend does; it can raise the error of a
    missing key only.  Without the fallback, or without the canned data,
    three rate-limit errors give the empty list and leave the tool live. *)
Theorem search_never_raises_with_default_entry :
  forall (env : Env) (db : dict (list SearchResult)) (self : t)
         (query : string) (ddgs : backend),
    (get db "default" <> None ->
     exists results self',
       search env db self query ddgs = (Return results, self')) /\
    (forall e self',
        search env db self query ddgs = (Raise e, self') -> e = "KeyError") /\
    (use_demo self && DEMO_AVAILABLE env = false ->
     DEMO_AVAILABLE env && USE_FALLBACK_ON_ERROR env = false ->
     (forall attempt, attempt < 3 ->
        exists e, ddgs attempt = Raise e /\ contains "Ratelimit" e = true) ->
     search env db self query ddgs = (Return [], self)).
Proof.
  intros env db self query ddgs.
  assert (Hcases :
    (exists results, search env db self query ddgs = (Return results, self)) \/
    (exists self', search env db self query ddgs =
       (DemoData.get_demo_results db query (max_results self), self'))).
  { unfold search.
    destruct (use_demo self && DEMO_AVAILABLE env); [right; now eexists|].
    change (seq 0 max_retries) with [0; 1; 2]. cbn [attempts].
    destruct (ddgs 0) as [r0|e0]; [left; now eexists|].
    destruct (contains "Ratelimit" e0); [|left; now eexists]. cbn.
    destruct (ddgs 1) as [r1|e1]; [left; now eexists|].
    destruct (contains "Ratelimit" e1); [|left; now eexists]. cbn.
    destruct (ddgs 2) as [r2|e2]; [left; now eexists|].
    destruct (contains "Ratelimit" e2); [|left; now eexists]. cbn.
    destruct (DEMO_AVAILABLE env && USE_FALLBACK_ON_ERROR env);
      [right; now eexists | left; now eexists]. }
  split; [|split].
  - intros Hd. destruct Hcases as [[results E] | [self' E]].
    + now exists results, self.
    + destruct (get_demo_results_returns db query (max_results self) Hd)
        as [results Hr].
      exists results, self'. now rewrite E, Hr.
  - intros e self' E. destruct Hcases as [[results E'] | [self'' E']].
    + congruence.
    + rewrite E' in E. inversion E as [[Hg Hs]]. clear E E'.
      unfold DemoData.get_demo_results in Hg. rewrite scan_keys_find in Hg.
      unfold getitem in Hg.
      destruct (find (topic_matches query) (keys db)) as [key|];
        [destruct (get db key) | destruct (get db "default")];
        simpl in Hg; congruence.
  - intros Hlive Hnf Hrl. unfold search. rewrite Hlive.
    change (seq 0 max_retries) with [0; 1; 2]. cbn [attempts].
    destruct (Hrl 0) as (e0 & E0 & C0); [lia|].
    destruct (Hrl 1) as (e1 & E1 & C1); [lia|].
    destruct (Hrl 2) as (e2 & E2 & C2); [lia|].
    rewrite E0, C0. cbn. rewrite E1, C1. cbn. rewrite E2, C2. cbn.
    now rewrite Hnf.
Qed.

Lemma search_never_raises_with_default_entry_witness :
  search {| DEMO_MODE := false; USE_FALLBACK_ON_ERROR := false;
            DEMO_AVAILABLE := true |}
    DemoData.DEMO_SEARCH_RESULTS {| max_results := 5; use_demo := false |}
    "rust" always_rate_limited =
  (Return [], {| max_results := 5; use_demo := false |}).
Proof.
  destruct (search_never_raises_with_default_entry
              {| DEMO_MODE := false; USE_FALLBACK_ON_ERROR := false;
                 DEMO_AVAILABLE := true |}
              DemoData.DEMO_SEARCH_RESULTS
              {| max_results := 5; use_demo := false |}
              "rust" always_rate_limited) as (_ & _ & Hnone).
  apply Hnone; [reflexivity | reflexivity |].
  intros attempt _. exists "202 Ratelimit". split; reflexivity.
Defined.

End LiveSearch.

(** ** Start-up: the configuration and the search agent *)

Section StartUp.

Lemma prefix_sk_proj k :
  String.prefix "sk-proj-" k = true -> String.prefix "sk-" k = true.
Proof.
  intros H. apply prefix_split in H. destruct H as [post ->]. reflexivity.
Qed.

Lemma key_format k :
  String.prefix "sk-" k || String.prefix "sk-proj-" k = String.prefix "sk-" k.
Proof.
  destruct (String.prefix "sk-" k) eqn:E; [reflexivity|]. simpl.
  destruct (String.prefix "sk-proj-" k) eqn:E'; [|reflexivity].
  apply prefix_sk_proj in E'. congruence.
Qed.

Lemma prefix_sk_truthy k : String.prefix "sk-" k = true -> truthy k = true.
Proof. destruct k; [discriminate | reflexivity]. Qed.

(** X12.  In demo mode the search agent is built whatever the key and the
    client.  In live mode it is built exactly when the key is present and
    starts with [sk-] and the client can be created; the second accepted
    beginning, [sk-proj-], adds nothing.  The key is tested before it is
    stripped: a key that starts with white space is refused.  In both modes
    the agent built and its tool carry the mode of the configuration and
    the same bound on the results. *)
Theorem search_agent_init_outcomes :
  forall (env : Env) (api_key : option string) (client : outcome unit)
         (max_results : Z),
    let built :=
      {| SearchAgent.max_results := max_results;
         SearchAgent.demo_mode := DEMO_MODE env;
         SearchAgent.search_tool :=
           {| WebSearchTool.max_results := max_results;
              WebSearchTool.use_demo := DEMO_MODE env |} |} in
    (forall self,
        SearchAgent.init env api_key client max_results = Return self ->
        self = built) /\
    (DEMO_MODE env = true ->
     SearchAgent.init env api_key client max_results = Return built) /\
    (DEMO_MODE env = false ->
     (SearchAgent.init env api_key client max_results = Return built <->
      exists k,
        api_key = Some k /\ String.prefix "sk-" k = true /\
        client = Return tt)) /\
    (DEMO_MODE env = false ->
     forall c k,
       api_key = Some (String c k) -> is_space c = true ->
       exists e, SearchAgent.init env api_key client max_results = Raise e).
Proof.
  intros env api_key client max_results built. subst built.
  unfold SearchAgent.init, WebSearchTool.init.
  destruct (DEMO_MODE env) eqn:Hd; simpl.
  - repeat split; try discriminate. intros self H. now inversion H.
  - split; [|split; [discriminate|split]].
    + intros self. destruct api_key as [k|]; [|discriminate].
      destruct (truthy k); simpl; [|discriminate].
      rewrite key_format. destruct (String.prefix "sk-" k); simpl; [|discriminate].
      destruct client as [[]|e]; simpl; [|discriminate].
      intros H. now inversion H.
    + intros _. split.
      * destruct api_key as [k|]; [|discriminate].
        destruct (truthy k); simpl; [|discriminate].
        rewrite key_format.
        destruct (String.prefix "sk-" k) eqn:Hp; simpl; [|discriminate].
        destruct client as [[]|e]; simpl; [|discriminate].
        intros _. now exists k.
      * intros (k & -> & Hp & ->).
        rewrite (prefix_sk_truthy k Hp), key_format, Hp. reflexivity.
    + intros _ c k -> Hc. cbn [truthy negb].
      assert (Hp : String.prefix "sk-" (String c k) ||
                   String.prefix "sk-proj-" (String c k) = false).
      { rewrite key_format.
        destruct (String.prefix "sk-" (String c k)) eqn:E; [|reflexivity].
        apply prefix_split in E. destruct E as [post E]. simpl in E.
        inversion E; subst. discriminate Hc. }
      rewrite Hp. simpl. now eexists.
Qed.

Lemma search_agent_init_outcomes_witness :
  SearchAgent.init live_env (Some "sk-test-key") (Return tt) 5 =
    Return live_agent /\
  exists e, SearchAgent.init live_env (Some " sk-test-key") (Return tt) 5 = Raise e.
Proof.
  destruct (search_agent_init_outcomes live_env (Some "sk-test-key") (Return tt) 5)
    as (_ & _ & Hlive & _).
  destruct (search_agent_init_outcomes live_env (Some " sk-test-key") (Return tt) 5)
    as (_ & _ & _ & Hspace).
  split.
  - apply (proj2 (Hlive eq_refl)). exists "sk-test-key". repeat split.
  - apply (Hspace eq_refl " "%char "sk-test-key"); reflexivity.
Defined.

(** X13.  A configuration that [validate] accepts lets the search agent be
    built: [validate] returns [True] only, after the reports directory was
    made, and then the agent's constructor returns unless the client cannot
    be created in live mode.  The two test the key alike: in live mode,
    when the directory and the client can be made, one raises exactly when
    the other does. *)
Theorem validated_configuration_builds_agent :
  forall (env : Env) (api_key : option string) (makedirs client : outcome unit)
         (max_results : Z),
    (forall b,
        Config.validate env api_key makedirs = Return b ->
        b = true /\ makedirs = Return tt /\
        ((exists self,
             SearchAgent.init env api_key client max_results = Return self) \/
         DEMO_MODE env = false /\ exists e, client = Raise e)) /\
    (makedirs = Return tt -> client = Return tt ->
     ((exists b, Config.validate env api_key makedirs = Return b) <->
      (exists self,
          SearchAgent.init env api_key client max_results = Return self))).
Proof.
  intros env api_key makedirs client max_results.
  unfold Config.validate, SearchAgent.init.
  destruct (DEMO_MODE env) eqn:Hd; simpl.
  - split.
    + intros b. destruct makedirs as [[]|e]; simpl; [|discriminate].
      intros H. inversion H. repeat split. left. now eexists.
    + intros -> ->. simpl. split; intros _; now eexists.
  - destruct api_key as [k|].
    + destruct (truthy k); simpl.
      * destruct (String.prefix "sk-" k || String.prefix "sk-proj-" k); simpl.
        -- split.
           ++ intros b. destruct makedirs as [[]|e]; simpl; [|discriminate].
              intros H. inversion H. repeat split.
              destruct client as [[]|e]; simpl;
                [left; now eexists | right; split; [reflexivity | now eexists]].
           ++ intros -> ->. simpl. split; intros _; now eexists.
        -- split; [discriminate|]. intros _ _.
           split; intros [x H]; discriminate.
      * split; [discriminate|]. intros _ _. split; intros [x H]; discriminate.
    + split; [discriminate|]. intros _ _. split; intros [x H]; discriminate.
Qed.

Lemma validated_configuration_builds_agent_witness :
  exists self,
    SearchAgent.init live_env (Some "sk-test-key") (Return tt) 5 = Return self.
Proof.
  destruct (validated_configuration_builds_agent live_env (Some "sk-test-key")
              (Return tt) (Return tt) 5) as [_ Hiff].
  apply (Hiff eq_refl eq_refl). now exists true.
Defined.

End StartUp.

(** ** The live query planner *)

Section LivePlanner.

Import TextProcessor SearchAgent.

(** The first piece starts the text that was split. *)
Lemma split_char_head sep s :
  match split_char sep s with
  | [] => True
  | q :: _ => exists post, s = q +++ post
  end.
Proof.
  induction s as [|c r IH]; simpl; [now exists ""|].
  destruct (Ascii.eqb c sep); [now exists (String c r)|].
  destruct (split_char sep r) as [|q qs]; [now exists r|].
  destruct IH as [post E]. exists post. simpl. now rewrite <- E.
Qed.

(** The pieces hold no separator and lie in the text that was split. *)
Lemma split_char_pieces sep s piece :
  In piece (split_char sep s) ->
  all_chars (fun c => negb (Ascii.eqb c sep)) piece = true /\ occurs_in piece s.
Proof.
  revert piece. induction s as [|c r IH]; intros piece; simpl.
  - intros [<-|[]]. split; [reflexivity | apply occurs_in_refl].
  - destruct (Ascii.eqb c sep) eqn:Hc.
    + intros [<-|H].
      * split; [reflexivity|]. now exists "", (String c r).
      * apply IH in H. destruct H as [Ha Ho].
        split; [assumption | now apply occurs_in_cons].
    + pose proof (split_char_head sep r) as Hhead.
      destruct (split_char sep r) as [|q qs].
      * intros [<-|[]]. simpl. rewrite Hc. split; [reflexivity|].
        now exists "", r.
      * intros [<-|H].
        -- destruct (IH q (or_introl eq_refl)) as [Ha _].
           split; [simpl; now rewrite Hc|].
           destruct Hhead as [post E]. exists "", post. simpl. now rewrite <- E.
        -- destruct (IH piece (or_intror H)) as [Ha Ho].
           split; [assumption | now apply occurs_in_cons].
Qed.

Lemma lstrip_blank s : all_chars is_space s = true -> lstrip s = "".
Proof.
  induction s as [|c r IH]; simpl; [reflexivity|].
  intros H. apply andb_true_iff in H. destruct H as [-> Hr]. now apply IH.
Qed.

Lemma slice_to_nil {A} (n : Z) : slice_to n (@nil A) = [].
Proof. unfold slice_to. destruct (0 <=? n)%Z; apply firstn_nil. Qed.

(** X14.  In live mode, when the model replies, the planner returns the
    lines of the reply that are not blank, stripped, in their order, cut by
    the slice [[:count]].  Every query is non-empty, has no white space at
    its ends, holds no line break and stands in the reply; there are at
    most [count] of them when [count] is not negative, and there is none
    when the reply is blank. *)
Theorem generate_search_queries_reply_lines :
  forall (self : t) (content topic : string) (count : Z),
    demo_mode self = false ->
    exists queries,
      generate_search_queries self (Return content) topic count =
        Return queries /\
      queries = slice_to count (reply_queries (strip content)) /\
      Forall (fun q =>
                q <> "" /\ strip q = q /\
                all_chars (fun c => negb (Ascii.eqb c newline)) q = true /\
                occurs_in q content)
             queries /\
      ((0 <= count)%Z -> (Z.of_nat (List.length queries) <= count)%Z) /\
      (all_chars is_space content = true -> queries = []).
Proof.
  intros self content topic count Hd.
  exists (slice_to count (reply_queries (strip content))).
  split; [unfold generate_search_queries; now rewrite Hd|].
  split; [reflexivity|].
  split; [|split].
  - apply Forall_slice_to, Forall_forall. intros q Hq.
    unfold reply_queries in Hq. apply in_map_iff in Hq.
    destruct Hq as (line & <- & Hline). apply filter_In in Hline.
    destruct Hline as [Hin Ht]. apply truthy_true_iff in Ht.
    apply split_char_pieces in Hin. destruct Hin as [Hall Hocc].
    split; [assumption|]. split; [apply strip_idempotent|].
    split; [now apply all_chars_strip|].
    eapply occurs_in_trans; [apply strip_occurs|].
    eapply occurs_in_trans; [exact Hocc | apply strip_occurs].
  - apply slice_to_length.
  - intros Hb. unfold strip. rewrite (lstrip_blank content Hb). simpl.
    apply slice_to_nil.
Qed.

Lemma generate_search_queries_reply_lines_witness :
  generate_search_queries live_agent
    (Return (String newline "  what is rust  " +++
             String newline (String newline "rust in production")))
    "rust" 3 =
  Return ["what is rust"; "rust in production"].
Proof.
  destruct (generate_search_queries_reply_lines live_agent
              (String newline "  what is rust  " +++
               String newline (String newline "rust in production"))
              "rust" 3 eq_refl) as (queries & E & -> & _).
  exact E.
Defined.

End LivePlanner.

(** ** Gathering *)

Section Gathering.

Import DemoData SearchAgent.

Lemma lower_append a b : lower (a +++ b) = lower a +++ lower b.
Proof. induction a as [|c a IH]; simpl; [reflexivity | now rewrite IH]. Qed.

(** A word without the character [c] starts [a + c + b] exactly when it
    starts [a]. *)
Lemma prefix_before c b a :
  forall w,
    TextProcessor.all_chars (fun x => negb (Ascii.eqb x c)) w = true ->
    String.prefix w (a +++ String c b) = String.prefix w a.
Proof.
  induction a as [|x a IH]; intros [|w0 w] Hw; simpl; try reflexivity.
  - simpl in Hw. apply andb_true_iff in Hw. destruct Hw as [H0 _].
    destruct (Ascii.ascii_dec w0 c) as [->|]; [|reflexivity].
    now rewrite Ascii.eqb_refl in H0.
  - simpl in Hw. apply andb_true_iff in Hw. destruct Hw as [_ Hw].
    destruct (Ascii.ascii_dec w0 x); [now apply IH | reflexivity].
Qed.

(** A word without the character [c] that does not occur in [b] occurs in
    [a + c + b] exactly when it occurs in [a]. *)
Lemma contains_before c w a b :
  TextProcessor.all_chars (fun x => negb (Ascii.eqb x c)) w = true ->
  contains w b = false ->
  contains w (a +++ String c b) = contains w a.
Proof.
  intros Hw Hb. induction a as [|x a IH].
  - change ("" +++ String c b) with (String c b). cbn [contains].
    rewrite Hb, !orb_false_r.
    exact (prefix_before c b "" w Hw).
  - change (String x a +++ String c b) with (String x (a +++ String c b)).
    cbn [contains]. rewrite IH.
    change (String x (a +++ String c b)) with (String x a +++ String c b).
    now rewrite (prefix_before c b (String x a) w Hw).
Qed.

(** The answer does not change when a space and a text without the
    deciding words are added to the query. *)
Lemma shipped_answer_before_space a b :
  forallb (fun w => negb (contains w b))
          ["artificial"; "in"; "healthcare"; "climate"; "change"; "quantum"]
    = true ->
  shipped_answer (a +++ String " "%char b) = shipped_answer a.
Proof.
  intros H. cbn [forallb] in H.
  repeat (apply andb_true_iff in H; destruct H as [?H H]).
  repeat match goal with
         | Hw : negb _ = true |- _ => apply negb_true_iff in Hw
         end.
  unfold shipped_answer.
  rewrite (contains_before " " "artificial" a b eq_refl) by assumption.
  rewrite (contains_before " " "in" a b eq_refl) by assumption.
  rewrite (contains_before " " "healthcare" a b eq_refl) by assumption.
  rewrite (contains_before " " "climate" a b eq_refl) by assumption.
  rewrite (contains_before " " "change" a b eq_refl) by assumption.
  rewrite (contains_before " " "quantum" a b eq_refl) by assumption.
  reflexivity.
Qed.

(** The two longer queries of the template are answered with the list of
    the topic. *)
Lemma shipped_answer_template topic :
  shipped_answer (lower (topic +++ " latest developments")) =
    shipped_answer (lower topic) /\
  shipped_answer (lower (topic +++ " practical applications")) =
    shipped_answer (lower topic).
Proof.
  rewrite !lower_append.
  change (lower " latest developments")
    with (String " "%char "latest developments").
  change (lower " practical applications")
    with (String " "%char "practical applications").
  split; apply shipped_answer_before_space; reflexivity.
Qed.

Lemma shipped_answer_urls query_lower : NoDup (map url (shipped_answer query_lower)).
Proof.
  unfold shipped_answer.
  destruct (_ || _ || _); [|destruct (_ || _); [|destruct (contains _ _)]];
    match goal with
    | |- NoDup ?l =>
        rewrite <- (eq_refl : nodup string_dec l = l); apply NoDup_nodup
    end.
Qed.

Lemma shipped_answer_length query_lower :
  List.length (shipped_answer query_lower) <= 5.
Proof.
  unfold shipped_answer.
  destruct (_ || _ || _); [|destruct (_ || _); [|destruct (contains _ _)]];
    simpl; lia.
Qed.

Lemma shipped_results query max_results :
  get_demo_results DEMO_SEARCH_RESULTS query max_results =
  Return (slice_to max_results (shipped_answer (lower query))).
Proof.
  unfold get_demo_results. rewrite scan_keys_find, shipped_find.
  cbv zeta. unfold shipped_answer.
  destruct (_ || _ || _); [reflexivity|].
  destruct (_ || _); [reflexivity|].
  now destruct (contains _ _).
Qed.

(** The searches of an offline tool on the shipped data. *)
Lemma search_each_shipped env tool ddgs :
  DEMO_AVAILABLE env = true ->
  WebSearchTool.use_demo tool = true ->
  forall queries call all_results,
    search_each env DEMO_SEARCH_RESULTS tool ddgs call queries all_results =
    (Return (all_results ++
             flat_map (fun q => slice_to (WebSearchTool.max_results tool)
                                  (shipped_answer (lower q))) queries),
     tool).
Proof.
  intros Ha Hd. induction queries as [|query rest IH]; intros call acc; simpl.
  - now rewrite app_nil_r.
  - rewrite search_offline by assumption. rewrite shipped_results.
    rewrite IH. now rewrite <- app_assoc.
Qed.

Lemma first_occurrences_distinct l :
  NoDup (map url l) -> first_occurrences l = l.
Proof.
  induction l as [|x l IH]; simpl; [reflexivity|].
  intros H. inversion H as [|u us Hx Hl]; subst. rewrite (IH Hl). f_equal.
  apply forallb_filter_id. apply forallb_forall. intros r Hr.
  unfold has_url. apply negb_true_iff, String.eqb_neq.
  intros E. apply Hx. rewrite <- E. now apply in_map.
Qed.

Lemma subsequence_In {A} (k l : list A) x : subsequence k l -> In x k -> In x l.
Proof. induction 1; simpl; intuition. Qed.

Lemma first_occurrences_repeated l m :
  (forall r, In r m -> In (url r) (map url l)) ->
  first_occurrences (l ++ m) = first_occurrences l.
Proof.
  intros Hm. rewrite first_occurrences_app.
  rewrite <- (app_nil_r (first_occurrences l)) at 2. f_equal.
  assert (Hsub : forall r, In r (first_occurrences m) -> In (url r) (map url l)).
  { intros r Hr. apply Hm.
    exact (subsequence_In _ _ r (first_occurrences_subsequence m) Hr). }
  induction (first_occurrences m) as [|y k IHk]; simpl; [reflexivity|].
  assert (Hy : mem (url y) (map url l) = true)
    by (apply mem_In, Hsub; now left).
  rewrite Hy. simpl. apply IHk. intros r Hr. apply Hsub. now right.
Qed.

(** The gathering of an offline agent on the shipped data. *)
Lemma offline_gather_results env topic max_results llm ddgs :
  DEMO_AVAILABLE env = true ->
  let results := slice_to max_results (shipped_answer (lower topic)) in
  search_and_gather env DEMO_SEARCH_RESULTS (offline_agent max_results)
    llm ddgs topic =
    (Return {| sd_topic := topic;
               sd_queries := query_template topic;
               sd_results := results;
               sd_total_sources := List.length results |},
     offline_agent max_results) /\
  List.length results <= 5.
Proof.
  intros Ha results.
  assert (Hnodup : NoDup (map url results)).
  { subst results. unfold slice_to.
    destruct (0 <=? max_results)%Z; rewrite <- firstn_map;
      apply NoDup_firstn_of, shipped_answer_urls. }
  split.
  - unfold search_and_gather.
    change (generate_search_queries (offline_agent max_results) llm topic 3)
      with (Return (query_template topic)).
    cbv beta iota.
    rewrite (search_each_shipped env (search_tool (offline_agent max_results))
               ddgs Ha eq_refl).
    cbn [query_template flat_map app search_tool offline_agent
         WebSearchTool.max_results].
    destruct (shipped_answer_template topic) as [-> ->].
    fold results. rewrite app_nil_r, remove_duplicates_first_occurrences.
    rewrite first_occurrences_repeated.
    + rewrite (first_occurrences_distinct _ Hnodup). reflexivity.
    + intros r Hr. apply in_map. apply in_app_or in Hr. tauto.
  - subst results. etransitivity; [apply slice_to_length_le|].
    apply shipped_answer_length.
Qed.

(** X15.  Offline, on the shipped data, the three queries planned for a
    topic are all answered with the list that answers the topic itself:
    the two longer queries never reach another list.  After the duplicates
    are removed the sources are that answer, once: at most five results
    with pairwise distinct [url]s.  The call returns and leaves the agent
    as it was. *)
Theorem offline_gather_serves_one_list :
  forall (env : Env) (topic : string) (max_results : Z)
         (llm : outcome string) (ddgs : nat -> WebSearchTool.backend),
    DEMO_AVAILABLE env = true ->
    let results := slice_to max_results (shipped_answer (lower topic)) in
    search_and_gather env DEMO_SEARCH_RESULTS (offline_agent max_results)
      llm ddgs topic =
      (Return {| sd_topic := topic;
                 sd_queries := query_template topic;
                 sd_results := results;
                 sd_total_sources := List.length results |},
       offline_agent max_results) /\
    get_demo_results DEMO_SEARCH_RESULTS topic max_results = Return results /\
    List.length results <= 5 /\
    NoDup (map url results).
Proof.
  intros env topic max_results llm ddgs Ha results.
  destruct (offline_gather_results env topic max_results llm ddgs Ha)
    as (Hg & Hlen).
  split; [exact Hg|]. split; [apply shipped_results|]. split; [exact Hlen|].
  subst results. unfold slice_to.
  destruct (0 <=? max_results)%Z; rewrite <- firstn_map;
    apply NoDup_firstn_of, shipped_answer_urls.
Qed.

Lemma offline_gather_serves_one_list_witness :
  fst (search_and_gather repo_env DEMO_SEARCH_RESULTS (offline_agent 2)
         (Raise "no client") (fun _ => always_rate_limited) "Climate Change") =
  Return {| sd_topic := "Climate Change";
            sd_queries := ["Climate Change";
                           "Climate Change latest developments";
                           "Climate Change practical applications"];
            sd_results := firstn 2 results_climate_change;
            sd_total_sources := 2 |}.
Proof.
  destruct (offline_gather_serves_one_list repo_env "Climate Change" 2
              (Raise "no client") (fun _ => always_rate_limited) eq_refl)
    as [E _].
  rewrite E. reflexivity.
Defined.

End Gathering.

(** ** Gathering across the fallback, and the offline pipeline *)

Section Pipeline.

Import DemoData SearchAgent.

(** X16.  When the search for the first query of a live agent meets three
    rate-limit errors, with the canned data available and the fallback
    enabled, the gathering completes offline: every query, the first and
    the later ones, is answered from the shipped data, whatever the backend
    would do for the later ones, and the agent is left with its tool
    offline. *)
Theorem gather_completes_offline_after_fallback :
  forall (env : Env) (self : t) (llm : outcome string)
         (ddgs : nat -> WebSearchTool.backend) (topic query : string)
         (rest : list string),
    DEMO_AVAILABLE env = true ->
    USE_FALLBACK_ON_ERROR env = true ->
    WebSearchTool.use_demo (search_tool self) = false ->
    generate_search_queries self llm topic 3 = Return (query :: rest) ->
    (forall attempt, attempt < 3 ->
       exists e, ddgs 0 attempt = Raise e /\ contains "Ratelimit" e = true) ->
    let answers :=
      flat_map (fun q => slice_to (WebSearchTool.max_results (search_tool self))
                           (shipped_answer (lower q)))
               (query :: rest) in
    search_and_gather env DEMO_SEARCH_RESULTS self llm ddgs topic =
      (Return {| sd_topic := topic;
                 sd_queries := query :: rest;
                 sd_results := first_occurrences answers;
                 sd_total_sources := List.length (first_occurrences answers) |},
       with_search_tool self
         (WebSearchTool.set_use_demo (search_tool self) true)).
Proof.
  intros env self llm ddgs topic query rest Ha Hf Hlive Hq Hrl answers.
  unfold search_and_gather. rewrite Hq. cbv beta iota.
  cbn [search_each].
  rewrite (search_rate_limited env _ (search_tool self) query (ddgs 0) Ha Hf Hlive Hrl).
  rewrite shipped_results.
  rewrite (search_each_shipped env
             (WebSearchTool.set_use_demo (search_tool self) true) ddgs Ha eq_refl).
  cbn [WebSearchTool.max_results WebSearchTool.set_use_demo app].
  rewrite remove_duplicates_first_occurrences. reflexivity.
Qed.

Lemma gather_completes_offline_after_fallback_witness :
  exists data self',
    search_and_gather live_env DEMO_SEARCH_RESULTS live_agent
      (Raise "timeout") (fun _ => always_rate_limited) "quantum" =
      (Return data, self') /\
    sd_results data = results_quantum_computing /\
    WebSearchTool.use_demo (search_tool self') = true.
Proof.
  eexists. eexists.
  rewrite (gather_completes_offline_after_fallback live_env live_agent
             (Raise "timeout") (fun _ => always_rate_limited) "quantum"
             "quantum" ["quantum latest news"; "quantum applications"]
             eq_refl eq_refl eq_refl eq_refl).
  - split; [reflexivity|]. split; reflexivity.
  - intros attempt _. exists "202 Ratelimit". split; reflexivity.
Defined.

Lemma extract_keywords_length text top_n :
  (0 <= top_n)%Z ->
  (Z.of_nat (List.length (TextProcessor.extract_keywords text top_n)) <= top_n)%Z.
Proof.
  intros Hn. unfold TextProcessor.extract_keywords.
  rewrite length_map. now apply slice_to_length.
Qed.

(** X17.  The offline pipeline on the shipped data: for every topic the
    gathering returns and the analysis of what it gathered returns.  The
    analysis names the topic, its sources are the shipped answer to the
    topic, at most five and at most [max_results] when that is not
    negative, with at most ten keywords and ten key points and with three
    non-empty insight fields. *)
Theorem offline_pipeline_returns :
  forall (env : Env) (topic : string) (max_results : Z)
         (llm : outcome string) (ddgs : nat -> WebSearchTool.backend)
         (model : nat -> outcome string),
    DEMO_AVAILABLE env = true ->
    exists data analysis,
      search_and_gather env DEMO_SEARCH_RESULTS (offline_agent max_results)
        llm ddgs topic = (Return data, offline_agent max_results) /\
      AnalyzerAgent.analyze_sources 1 {| AnalyzerAgent.demo_mode := true |}
        model data = Some analysis /\
      an_topic analysis = topic /\
      an_sources analysis =
        slice_to max_results (shipped_answer (lower topic)) /\
      List.length (an_sources analysis) <= 5 /\
      ((0 <= max_results)%Z ->
       (Z.of_nat (List.length (an_sources analysis)) <= max_results)%Z) /\
      List.length (an_keywords analysis) <= 10 /\
      List.length (an_key_points analysis) <= 10 /\
      overview (an_insights analysis) <> "" /\
      key_findings (an_insights analysis) <> "" /\
      implications (an_insights analysis) <> "".
Proof.
  intros env topic max_results llm ddgs model Ha.
  destruct (offline_gather_results env topic max_results llm ddgs Ha)
    as (Hg & Hlen).
  eexists. eexists. split; [exact Hg|].
  split; [reflexivity|]. cbn [an_topic an_sources an_keywords an_key_points
                               an_insights sd_results sd_topic].
  split; [reflexivity|]. split; [reflexivity|].
  split; [exact Hlen|].
  split; [apply slice_to_length|].
  split.
  { pose proof (extract_keywords_length
                  (join " " (map snippet
                     (slice_to max_results (shipped_answer (lower topic))))) 10).
    lia. }
  split.
  { rewrite collect_key_points_flat_map. cbn [app].
    rewrite slice_to_nonneg by discriminate. apply key_points_of_length. }
  apply demo_insights_nonempty.
Qed.

Lemma offline_pipeline_returns_witness :
  exists data analysis,
    search_and_gather repo_env DEMO_SEARCH_RESULTS (offline_agent 3)
      (Raise "no client") (fun _ => always_rate_limited) "machine learning" =
      (Return data, offline_agent 3) /\
    AnalyzerAgent.analyze_sources 1 {| AnalyzerAgent.demo_mode := true |}
      (fun _ => Raise "no client") data = Some analysis /\
    List.length (an_sources analysis) <= 5 /\
    List.length (an_keywords analysis) <= 10.
Proof.
  destruct (offline_pipeline_returns repo_env "machine learning" 3
              (Raise "no client") (fun _ => always_rate_limited)
              (fun _ => Raise "no client") eq_refl)
    as (data & analysis & Hg & Han & _ & _ & Hs & _ & Hk & _).
  exists data, analysis. auto.
Defined.

End Pipeline.

(** ** The analyzer *)

Section Analyzer.

Import AnalyzerAgent.

(** X18.  In live mode the synthesis returns what it reads from a reply of
    the model and nothing else.  After each failed call it calls itself
    again: it returns [insights] within [fuel] nested calls exactly when
    some call among the first [fuel] is the first one answered, and
    [insights] is read from that reply.  Neither the texts of demo mode
    nor the fixed texts of the handler are ever returned, and when every
    call fails no number of nested calls gives a result. *)
Theorem live_synthesis_returns_replies_only :
  forall (self : t) (llm : nat -> outcome string) (topic : string)
         (results : list SearchResult),
    demo_mode self = false ->
    (forall fuel call content insights,
        _synthesize_insights fuel self llm call topic content results =
          Some insights <->
        exists k reply,
          k < fuel /\
          (forall j, j < k -> exists e, llm (call + j) = Raise e) /\
          llm (call + k) = Return reply /\
          insights = insights_of_reply reply) /\
    ((forall call, exists e, llm call = Raise e) ->
     forall fuel call content,
       _synthesize_insights fuel self llm call topic content results = None).
Proof.
  intros self llm topic results Hd.
  assert (Hiff : forall fuel call content insights,
             _synthesize_insights fuel self llm call topic content results =
               Some insights <->
             exists k reply,
               k < fuel /\
               (forall j, j < k -> exists e, llm (call + j) = Raise e) /\
               llm (call + k) = Return reply /\
               insights = insights_of_reply reply).
  { induction fuel as [|fuel IH]; intros call content insights.
    - simpl. split; [discriminate|]. intros (k & reply & Hk & _). lia.
    - cbn [_synthesize_insights]. rewrite Hd. cbn [negb].
      destruct (llm call) as [reply|e] eqn:E.
      + split.
        * intros H. inversion H; subst; clear H.
          exists 0, reply. rewrite Nat.add_0_r.
          repeat split; [lia | intros j Hj; lia | assumption].
        * intros (k & reply' & Hk & Hfail & Hr & ->).
          destruct k as [|k].
          -- rewrite Nat.add_0_r in Hr. rewrite E in Hr.
             inversion Hr; subst. reflexivity.
          -- destruct (Hfail 0) as [e He]; [lia|].
             rewrite Nat.add_0_r in He. congruence.
      + rewrite IH. split.
        * intros (k & reply & Hk & Hfail & Hr & ->).
          exists (S k), reply. split; [lia|]. split; [|split].
          -- intros [|j] Hj.
             ++ rewrite Nat.add_0_r. now exists e.
             ++ rewrite <- Nat.add_succ_comm. apply Hfail. lia.
          -- now rewrite <- Nat.add_succ_comm.
          -- reflexivity.
        * intros (k & reply & Hk & Hfail & Hr & ->).
          destruct k as [|k].
          -- rewrite Nat.add_0_r in Hr. congruence.
          -- exists k, reply. split; [lia|]. split; [|split].
             ++ intros j Hj. rewrite Nat.add_succ_comm. apply Hfail. lia.
             ++ now rewrite Nat.add_succ_comm.
             ++ reflexivity. }
  split; [exact Hiff|].
  intros Hall fuel call content.
  destruct (_synthesize_insights fuel self llm call topic content results)
    as [insights|] eqn:E; [|reflexivity].
  apply Hiff in E. destruct E as (k & reply & _ & _ & Hr & _).
  destruct (Hall (call + k)) as [e He]. congruence.
Qed.

Lemma live_synthesis_returns_replies_only_witness :
  _synthesize_insights 3 {| demo_mode := false |}
    (fun call => if call <? 2 then Raise "timeout"
                 else Return "OVERVIEW: Rust is fast.")
    0 "rust" "" [] =
  Some {| overview := "Rust is fast."; key_findings := ""; implications := "" |}.
Proof.
  destruct (live_synthesis_returns_replies_only {| demo_mode := false |}
              (fun call => if call <? 2 then Raise "timeout"
                           else Return "OVERVIEW: Rust is fast.")
              "rust" [] eq_refl) as [Hiff _].
  apply Hiff. exists 2, "OVERVIEW: Rust is fast.".
  split; [lia|]. split; [|split; reflexivity].
  intros [|[|j]] Hj; [now exists "timeout" | now exists "timeout" | lia].
Defined.

Lemma has_header_false line :
  has_header line = false ->
  contains "OVERVIEW:" line = false /\
  contains "KEY_FINDINGS:" line = false /\
  contains "IMPLICATIONS:" line = false.
Proof.
  unfold has_header. intros H.
  apply orb_false_iff in H. destruct H as [H H3].
  apply orb_false_iff in H. destruct H as [H1 H2]. auto.
Qed.

(** X19.  The lines of a reply that stand before the first line with a
    section header are dropped: they change nothing in what is read.  A
    reply none of whose lines holds a header gives three empty fields, so
    the insights of a live analysis can be empty. *)
Theorem parse_sections_drops_lines_before_first_header :
  forall (before rest : list string) (insights : Insights),
    Forall (fun line => has_header line = false) before ->
    parse_sections (before ++ rest) insights None =
      parse_sections rest insights None /\
    parse_sections before insights None = insights.
Proof.
  intros before rest insights H.
  assert (Hgen : forall tail,
             parse_sections (before ++ tail) insights None =
             parse_sections tail insights None).
  { intros tail. induction H as [|line before Hline Hbefore IH]; [reflexivity|].
    destruct (has_header_false line Hline) as (H1 & H2 & H3).
    cbn [app parse_sections]. rewrite H1, H2, H3. exact IH. }
  split; [apply Hgen|].
  rewrite <- (app_nil_r before) at 1. apply Hgen.
Qed.

Lemma parse_sections_drops_lines_before_first_header_witness :
  insights_of_reply
    (String SearchAgent.newline "Rust is a systems language." +++
     String SearchAgent.newline "It is fast.") = empty_insights.
Proof.
  apply (parse_sections_drops_lines_before_first_header
           ["Rust is a systems language."; "It is fast."] [] empty_insights).
  repeat constructor.
Defined.

Lemma collect_findings_snippets results results' :
  map snippet results = map snippet results' ->
  forall key_findings,
    collect_findings results key_findings =
    collect_findings results' key_findings.
Proof.
  revert results'. induction results as [|r rest IH]; intros [|r' rest'] H acc;
    try discriminate; [reflexivity|].
  simpl in H. inversion H as [[Hs Hrest]]. simpl. rewrite Hs.
  destruct (long_sentences (snippet r')); now apply IH.
Qed.

(** X20.  The insights of demo mode are made from the topic and from the
    snippets of the first four results, and from nothing else: two lists
    of results whose first four snippets agree give the same insights,
    whatever their titles, their [url]s and their later results, and so
    does any text given as content. *)
Theorem demo_insights_read_first_four_snippets :
  forall (self : t) (llm llm' : nat -> outcome string) (call call' : nat)
         (topic content content' : string)
         (results results' : list SearchResult),
    demo_mode self = true ->
    map snippet (firstn 4 results) = map snippet (firstn 4 results') ->
    _synthesize_insights 1 self llm call topic content results =
    _synthesize_insights 1 self llm' call' topic content' results'.
Proof.
  intros self llm llm' call call' topic content content' results results' Hd H4.
  cbn [_synthesize_insights]. rewrite Hd. f_equal.
  unfold demo_insights.
  rewrite !slice_to_nonneg by discriminate.
  change (Z.to_nat 3) with 3. change (Z.to_nat 4) with 4.
  rewrite (collect_findings_snippets _ _ H4 []).
  assert (H3 : map (fun result => first_sentence (snippet result))
                   (firstn 3 results) =
               map (fun result => first_sentence (snippet result))
                   (firstn 3 results')).
  { change (firstn 3 results) with (firstn (Nat.min 3 4) results).
    change (firstn 3 results') with (firstn (Nat.min 3 4) results').
    rewrite <- !firstn_firstn.
    rewrite <- !(map_map snippet first_sentence). f_equal.
    rewrite <- (firstn_map snippet 3 (firstn 4 results)).
    rewrite <- (firstn_map snippet 3 (firstn 4 results')).
    now rewrite H4. }
  now rewrite H3.
Qed.

Lemma demo_insights_read_first_four_snippets_witness :
  _synthesize_insights 1 {| demo_mode := true |} (fun _ => Raise "no client") 0
    "ai" "" DemoData.results_artificial_intelligence_in_healthcare =
  _synthesize_insights 1 {| demo_mode := true |} (fun _ => Raise "no client") 0
    "ai" "other content"
    (firstn 4 DemoData.results_artificial_intelligence_in_healthcare).
Proof.
  apply demo_insights_read_first_four_snippets; reflexivity.
Defined.

(** X21.  An analysis that is returned hands the topic and the sources on
    as they came, and reads nothing but the topic and the results of what
    was gathered.  Its keywords are at most ten and pairwise distinct, and
    every key point stands in the snippet of one of the first five
    sources.  The analysis is returned exactly when the synthesis of the
    insights returns. *)
Theorem analyze_sources_hands_sources_on :
  forall (fuel : nat) (self : t) (llm : nat -> outcome string)
         (search_data : SearchData),
    (forall analysis,
        analyze_sources fuel self llm search_data = Some analysis ->
        an_topic analysis = sd_topic search_data /\
        an_sources analysis = sd_results search_data /\
        List.length (an_keywords analysis) <= 10 /\
        NoDup (an_keywords analysis) /\
        Forall (fun point =>
                  exists r,
                    In r (firstn 5 (sd_results search_data)) /\
                    occurs_in point (snippet r))
               (an_key_points analysis)) /\
    (forall queries total,
        analyze_sources fuel self llm search_data =
        analyze_sources fuel self llm
          {| sd_topic := sd_topic search_data;
             sd_queries := queries;
             sd_results := sd_results search_data;
             sd_total_sources := total |}) /\
    (analyze_sources fuel self llm search_data = None <->
     _synthesize_insights fuel self llm 0 (sd_topic search_data)
       (join " " (map snippet (sd_results search_data)))
       (sd_results search_data) = None).
Proof.
  intros fuel self llm search_data.
  split; [|split].
  - intros analysis. unfold analyze_sources.
    destruct (_synthesize_insights _ _ _ _ _ _ _) as [insights|]; [|discriminate].
    intros H. inversion H; subst; clear H.
    cbn [an_topic an_sources an_keywords an_key_points].
    split; [reflexivity|]. split; [reflexivity|].
    split.
    { pose proof (extract_keywords_length
                    (join " " (map snippet (sd_results search_data))) 10). lia. }
    split; [apply extract_keywords_distinct|].
    rewrite collect_key_points_flat_map. cbn [app].
    rewrite slice_to_nonneg by discriminate. change (Z.to_nat 5) with 5.
    apply Forall_forall. intros point Hp. apply in_flat_map in Hp.
    destruct Hp as (r & Hr & Hp). exists r. split; [assumption|].
    now apply extract_key_points_occur in Hp.
  - intros queries total. reflexivity.
  - unfold analyze_sources.
    destruct (_synthesize_insights _ _ _ _ _ _ _); split; congruence.
Qed.

Lemma analyze_sources_hands_sources_on_witness :
  exists analysis,
    analyze_sources 1 {| demo_mode := true |} (fun _ => Raise "no client")
      {| sd_topic := "quantum computing";
         sd_queries := ["quantum computing"];
         sd_results := DemoData.results_quantum_computing;
         sd_total_sources := 3 |} = Some analysis /\
    an_sources analysis = DemoData.results_quantum_computing /\
    NoDup (an_keywords analysis).
Proof.
  eexists. split; [reflexivity|].
  destruct (analyze_sources_hands_sources_on 1 {| demo_mode := true |}
              (fun _ => Raise "no client")
              {| sd_topic := "quantum computing";
                 sd_queries := ["quantum computing"];
                 sd_results := DemoData.results_quantum_computing;
                 sd_total_sources := 3 |}) as (Hall & _ & _).
  destruct (Hall _ eq_refl) as (_ & Hs & _ & Hk & _).
  split; [exact Hs | exact Hk].
Defined.

End Analyzer.

(** ** Gathering never raises *)

Section GatheringReturns.

Import SearchAgent.

Lemma search_returns env db tool query ddgs :
  get db "default" <> None ->
  exists results tool',
    WebSearchTool.search env db tool query ddgs = (Return results, tool') /\
    WebSearchTool.max_results tool' = WebSearchTool.max_results tool.
Proof.
  intros Hd.
  pose proof (attempts_flag env db tool query ddgs (seq 0 WebSearchTool.max_retries))
    as [Hm _].
  unfold WebSearchTool.search in *.
  destruct (WebSearchTool.use_demo tool && DEMO_AVAILABLE env).
  - destruct (get_demo_results_returns db query (WebSearchTool.max_results tool) Hd)
      as [results Hr].
    exists results, tool. now rewrite Hr.
  - revert Hm.
    change (seq 0 WebSearchTool.max_retries) with [0; 1; 2].
    cbn [WebSearchTool.attempts].
    destruct (ddgs 0) as [r0|e0]; [intros Hm; now eexists; eexists|].
    destruct (contains "Ratelimit" e0); [|intros Hm; now eexists; eexists]. cbn.
    destruct (ddgs 1) as [r1|e1]; [intros Hm; now eexists; eexists|].
    destruct (contains "Ratelimit" e1); [|intros Hm; now eexists; eexists]. cbn.
    destruct (ddgs 2) as [r2|e2]; [intros Hm; now eexists; eexists|].
    destruct (contains "Ratelimit" e2); [|intros Hm; now eexists; eexists]. cbn.
    destruct (DEMO_AVAILABLE env && USE_FALLBACK_ON_ERROR env);
      [|intros Hm; now eexists; eexists].
    destruct (get_demo_results_returns db query (WebSearchTool.max_results tool) Hd)
      as [results Hr].
    cbn. rewrite Hr. intros Hm. now eexists; eexists.
Qed.

Lemma search_each_returns env db ddgs :
  get db "default" <> None ->
  forall queries tool call all_results,
    exists results tool',
      search_each env db tool ddgs call queries all_results =
        (Return results, tool') /\
      WebSearchTool.max_results tool' = WebSearchTool.max_results tool.
Proof.
  intros Hd. induction queries as [|query rest IH]; intros tool call acc.
  - now exists acc, tool.
  - cbn [search_each].
    destruct (search_returns env db tool query (ddgs call) Hd)
      as (results & tool1 & E & Hm).
    rewrite E.
    destruct (IH tool1 (S call) (acc ++ results)) as (all & tool2 & E2 & Hm2).
    exists all, tool2. split; [exact E2 | congruence].
Qed.

Lemma generate_search_queries_returns self llm topic count :
  exists queries, generate_search_queries self llm topic count = Return queries.
Proof.
  unfold generate_search_queries.
  destruct (demo_mode self); [now eexists|].
  destruct llm; simpl; now eexists.
Qed.

(** X22.  When the canned data hold an entry ["default"], gathering never
    raises, whatever the model and the search backend do.  What it returns
    names the topic and the queries that were planned, holds results with
    pairwise distinct [url]s and counts them.  The agent keeps its bound on
    the results and its mode; only the mode of its tool can change. *)
Theorem search_and_gather_never_raises_with_default_entry :
  forall (env : Env) (db : dict (list SearchResult)) (self : t)
         (llm : outcome string) (ddgs : nat -> WebSearchTool.backend)
         (topic : string),
    get db "default" <> None ->
    exists data self',
      search_and_gather env db self llm ddgs topic = (Return data, self') /\
      sd_topic data = topic /\
      generate_search_queries self llm topic 3 = Return (sd_queries data) /\
      NoDup (map url (sd_results data)) /\
      sd_total_sources data = List.length (sd_results data) /\
      max_results self' = max_results self /\
      demo_mode self' = demo_mode self /\
      WebSearchTool.max_results (search_tool self') =
        WebSearchTool.max_results (search_tool self).
Proof.
  intros env db self llm ddgs topic Hd.
  unfold search_and_gather.
  destruct (generate_search_queries_returns self llm topic 3) as [queries ->].
  destruct (search_each_returns env db ddgs Hd queries (search_tool self) 0 [])
    as (all_results & tool' & -> & Hm).
  eexists. eexists. split; [reflexivity|].
  cbn [sd_topic sd_queries sd_results sd_total_sources with_search_tool
       max_results demo_mode search_tool].
  repeat (split; [reflexivity|]).
  split; [|repeat (split; [reflexivity|]); exact Hm].
  rewrite remove_duplicates_first_occurrences. apply first_occurrences_NoDup.
Qed.

Lemma search_and_gather_never_raises_with_default_entry_witness :
  exists data self',
    search_and_gather live_env DemoData.DEMO_SEARCH_RESULTS live_agent
      (Raise "timeout") (fun _ _ => Raise "connection refused") "rust" =
      (Return data, self') /\
    sd_topic data = "rust".
Proof.
  destruct (search_and_gather_never_raises_with_default_entry live_env
              DemoData.DEMO_SEARCH_RESULTS live_agent (Raise "timeout")
              (fun _ _ => Raise "connection refused") "rust")
    as (data & self' & E & Ht & _).
  - discriminate.
  - now exists data, self'.
Defined.

(** X23.  Removing duplicates twice gives what removing them once gives,
    and a list whose [url]s are pairwise distinct is returned as it is. *)
Theorem remove_duplicates_idempotent :
  forall all_results : list SearchResult,
    remove_duplicates (remove_duplicates all_results) =
      remove_duplicates all_results /\
    (NoDup (map url all_results) -> remove_duplicates all_results = all_results).
Proof.
  intros all_results. rewrite !remove_duplicates_first_occurrences.
  split.
  - apply first_occurrences_distinct, first_occurrences_NoDup.
  - apply first_occurrences_distinct.
Qed.

Lemma remove_duplicates_idempotent_witness :
  remove_duplicates DemoData.results_climate_change =
  DemoData.results_climate_change.
Proof.
  apply remove_duplicates_idempotent.
  rewrite <- (eq_refl : nodup string_dec
                          (map url DemoData.results_climate_change) =
                        map url DemoData.results_climate_change).
  apply NoDup_nodup.
Defined.

End GatheringReturns.
